(** * niuniu_script: the per-account transaction replay engine of [main.py]

    A shallow embedding of [src/main.py].  The script re-broadcasts a template
    Solana transaction: for every row of a CSV file it decodes the template
    into its JSON tree, writes a random byte over the last element of the data
    array of the element at index 1 of the instruction array, binds a fresh
    blockhash, signs, submits, and polls until the RPC node reports the
    transaction as succeeded.

    What the script does itself (control flow, retries, exception handling,
    the in-place write into the decoded JSON tree) is modelled here.  What it
    delegates is taken as a parameter:
    - [Lib]: the pure functions of base64 / solana-py / solders / ast / pandas;
    - [World]: the RPC node, the file system and the [random] module, each a
      function of the history of events so far.

    Python objects that can be written in place (lists) live in a store
    ([heap]) and are passed by reference; a float is the rational it
    denotes. *)

From Stdlib Require Import ZArith QArith Lqa List String Lia.
From stdpp Require Import base gmap strings list.

Local Open Scope Z_scope.

(** ** Data model *)

(** An element of a list the script holds.  The JSON form of solders writes
    an array of n items as n + 1 elements, the first of them the length (to
    Python a list of its own, holding the bytes of n): [Len n].  Every other
    element is an item: [Item a]. *)
Inductive elem (A : Type) :=
| Len (n : nat)
| Item (a : A).
Arguments Len {A} n.
Arguments Item {A} a.

(** References to mutable Python list objects, and the store holding them. *)
Definition loc := positive.
Abbreviation heap := (gmap loc (list (elem Z))).

(** [solders.hash.Hash], [solders.signature.Signature], [solders.keypair.Keypair]:
    opaque tokens. *)
Inductive Hash := mkHash (id : string).
Inductive Signature := mkSignature (id : string).
Inductive Keypair := mkKeypair (secret : list Z).

(** A solders transaction, as far as the script and the library stand-ins
    look at it. *)
Record Header := mkHeader {
  num_required_signatures : Z;
  num_readonly_signed_accounts : Z;
  num_readonly_unsigned_accounts : Z }.

Record Instruction := mkInstruction {
  program_id_index : Z;
  accounts : list Z;
  data : list Z }.

Record Message := mkMessage {
  header : Header;
  account_keys : list string;
  recent_blockhash : Hash;
  instructions : list Instruction }.

Record Tx := mkTx {
  signatures : list Signature;
  message : Message }.

(** The JSON text of a transaction ([Transaction.to_json], and what
    [json.dumps] writes): the arrays [instructions], [accounts] and [data]
    with their length element at the head.  The signatures, the account keys
    and the blockhash, which the script never indexes, are kept as the values
    they encode. *)
Record InstructionJson := mkInstructionJson {
  json_program_id_index : Z;
  json_accounts : list (elem Z);
  json_data : list (elem Z) }.

Record TxJson := mkTxJson {
  json_signatures : list Signature;
  json_header : Header;
  json_account_keys : list string;
  json_recent_blockhash : Hash;
  json_instructions : list (elem InstructionJson) }.

(** The tree [json.loads] builds from that JSON text: the [data] array of
    every instruction is a list object of its own in the store. *)
Record InstructionObj := mkInstructionObj {
  o_program_id_index : Z;
  o_accounts : list (elem Z);
  o_data : loc }.

Record TxObj := mkTxObj {
  o_signatures : list Signature;
  o_header : Header;
  o_account_keys : list string;
  o_recent_blockhash : Hash;
  o_instructions : list (elem InstructionObj) }.

(** A value of a pandas row. *)
Inductive cell :=
| CStr (s : string)
| CInt (z : Z)
| CFloat (q : Q)
| CInf (negative : bool)
| CNaN.

(** One element of the list [read_data_from_csv] returns (the dict with the
    keys private_key, data, repeat_count). *)
Record Task := mkTask {
  t_private_key : loc;
  t_data : cell;
  t_repeat_count : Z }.

(** What [client.get_transaction(sig)] yields, as far as
    [check_transaction_status] looks at it. *)
Inductive tx_reply :=
| QueryRaises                  (* the call raises *)
| ValueNone                    (* res.value is None *)
| MetaNone                     (* res.value.transaction.meta is None *)
| MetaOk                       (* meta.err is None *)
| MetaErr (detail : string).   (* meta.err is set *)

(** Exceptions, by Python class.  The script raises RuntimeError and
    ValueError itself, with one message per raising line; [cause] is the
    exception it formats into the message. *)
Inductive exn :=
| LibError (origin : string)        (* raised inside an external call *)
| IndexError                        (* list index out of range *)
| TypeError                         (* a list where an int or a dict is needed *)
| OverflowError                     (* int() of an infinite float *)
| KeyError (key : string)           (* row[key] with no such column *)
| ValueError (msg : errmsg)
| RuntimeError (msg : errmsg)
| DanglingReference                 (* model only: a reference outside the store *)
| SystemExit (code : Z)             (* exit(code); not an Exception *)
with errmsg :=
| BuiltinMessage                    (* the message of bytes(), int(), ast.literal_eval,
                                       random.randint, time.sleep *)
| NoBlockhash                       (* line 37 *)
| DeserializeFailed (cause : exn)   (* line 48 *)
| ModifyFailed (cause : exn)        (* line 57 *)
| SendFailed (cause : exn)          (* line 69 *)
| ReadCsvFailed (cause : exn).      (* line 126 *)

(** The names the design document gives to the errors the script raises. *)
Abbreviation PyValueError := (ValueError BuiltinMessage).
Abbreviation BlockhashUnavailable := (RuntimeError NoBlockhash).
Abbreviation DeserializeError cause := (ValueError (DeserializeFailed cause)).
Abbreviation MalformedTemplate cause := (ValueError (ModifyFailed cause)).
Abbreviation BroadcastError cause := (RuntimeError (SendFailed cause)).
Abbreviation DatasetLoadError cause := (RuntimeError (ReadCsvFailed cause)).

(** [except Exception] catches everything but [SystemExit]. *)
Definition is_Exception (e : exn) : bool :=
  match e with SystemExit _ => false | _ => true end.

(** The lines printed, by source line. *)
Inductive log :=
| LogBlockhashError                                      (* 27 *)
| LogBlockhashRetry (attempt : Z)                        (* 29 *)
| LogBlockhashGiveUp                                     (* 32 *)
| LogSent (sig : Signature)                              (* 66 *)
| LogNotFound (sig : Signature)                          (* 85 *)
| LogNoMeta (sig : Signature)                            (* 93 *)
| LogSuccess (sig : Signature)                           (* 98 *)
| LogFailed (sig : Signature) (detail : string)          (* 101 *)
| LogStatusError                                         (* 105 *)
| LogWalletStart (address : string) (repeat_count : Z)   (* 137 *)
| LogIterStart (i repeat_count : Z)                      (* 140 *)
| LogIterSignature (i repeat_count : Z) (sig : Signature) (* 142 *)
| LogJitter (sleep_time : Q)                             (* 149 *)
| LogNotConfirmed                                        (* 153 *)
| LogIterError (i repeat_count : Z) (e : exn)            (* 157 *)
| LogCsvError (e : exn).                                 (* 169 *)

(** Everything observable a run does, in order. *)
Inductive event :=
| GetLatestBlockhash (r : option Hash)
| SendRawTransaction (raw : list Z) (r : option Signature)
| GetTransaction (sig : Signature) (r : tx_reply)
| ReadCsv (path : string)
| RandomRandint (a b r : Z)       (* random.randint(a, b) returned r *)
| RandomUniform (a b r : Q)       (* random.uniform(a, b) returned r *)
| Sleep (seconds : Q)
| Printed (line : log).

(** The environment: each answer may depend on everything that happened
    before.  The [random] module answers within the bounds it documents:
    [randint(a, b)] with an integer N, a <= N <= b, and [uniform(a, b)] with a
    float N, a <= N <= b; which one it picks is the generator's affair. *)
Record World := mkWorld {
  rpc_get_latest_blockhash : list event -> option Hash;
  rpc_send_raw_transaction : list event -> list Z -> option Signature;
  rpc_get_transaction : list event -> Signature -> tx_reply;
  random_randint : list event -> Z -> Z -> Z;
  random_randint_range :
    forall tr a b, a <= b -> a <= random_randint tr a b <= b;
  random_uniform : list event -> Q -> Q -> Q;
  random_uniform_range :
    forall tr a b, (a <= b)%Q -> (a <= random_uniform tr a b)%Q /\ (random_uniform tr a b <= b)%Q;
  fs_read_csv : list event -> string -> option (list (gmap string cell)) }.

(** The pure library functions; [None] stands for "raises". *)
Record Lib := mkLib {
  b64decode : string -> option (list Z);           (* base64.b64decode *)
  deserialize : list Z -> option Tx;               (* Transaction.deserialize(..).to_solders() *)
  keypair_from_bytes : list Z -> option Keypair;   (* Keypair.from_bytes *)
  pubkey : Keypair -> string;                      (* Keypair.pubkey *)
  sign : Tx -> Keypair -> option Tx;               (* Transaction.sign *)
  serialize : Tx -> option (list Z);               (* Transaction.serialize(False) *)
  literal_eval : string -> option (list Z);        (* ast.literal_eval, on texts of integer lists *)
  int_of_str : string -> option Z }.               (* int(str) *)

(** ** The JSON form of a transaction *)

(** An array as the JSON form of solders writes it: the length, then the
    items. *)
Definition vec {A} (xs : list A) : list (elem A) := Len (length xs) :: map Item xs.

Definition to_json_instruction (i : Instruction) : InstructionJson :=
  mkInstructionJson (program_id_index i) (vec (accounts i)) (vec (data i)).

(** [Transaction.to_json]. *)
Definition to_json (tx : Tx) : TxJson :=
  mkTxJson (signatures tx) (header (message tx)) (account_keys (message tx))
           (recent_blockhash (message tx))
           (vec (map to_json_instruction (instructions (message tx)))).

(** Reading an array back: the first element must be a length, and exactly
    that many items must follow. *)
Fixpoint items {A} (xs : list (elem A)) : option (list A) :=
  match xs with
  | [] => Some []
  | Item a :: rest =>
      match items rest with
      | Some r => Some (a :: r)
      | None => None
      end
  | Len _ :: _ => None
  end.

Definition unvec {A} (xs : list (elem A)) : option (list A) :=
  match xs with
  | Len n :: rest =>
      match items rest with
      | Some r => if Nat.eqb (length r) n then Some r else None
      | None => None
      end
  | _ => None
  end.

Definition is_u8 (x : Z) : bool := (0 <=? x) && (x <? 256).

Definition parse_instruction (j : InstructionJson) : option Instruction :=
  match unvec (json_accounts j), unvec (json_data j) with
  | Some a, Some d =>
      if is_u8 (json_program_id_index j) && forallb is_u8 a && forallb is_u8 d
      then Some (mkInstruction (json_program_id_index j) a d)
      else None
  | _, _ => None
  end.

Fixpoint parse_instructions (js : list InstructionJson) : option (list Instruction) :=
  match js with
  | [] => Some []
  | j :: rest =>
      match parse_instruction j, parse_instructions rest with
      | Some i, Some r => Some (i :: r)
      | _, _ => None
      end
  end.

(** The typed decoding of [SolderTransaction.from_json]: every array must
    have its length element and the items it announces, and every u8 field
    must be in range. *)
Definition parse_tx (j : TxJson) : option Tx :=
  let hd := json_header j in
  match unvec (json_instructions j) with
  | Some js =>
      match parse_instructions js with
      | Some ins =>
          if is_u8 (num_required_signatures hd) && is_u8 (num_readonly_signed_accounts hd)
             && is_u8 (num_readonly_unsigned_accounts hd)
          then Some (mkTx (json_signatures j)
                          (mkMessage hd (json_account_keys j) (json_recent_blockhash j) ins))
          else None
      | None => None
      end
  | None => None
  end.

(** ** The monad: store, history, emitted events, exceptions, fuel *)

Inductive outcome (A : Type) :=
| Normal (a : A)
| Raised (e : exn)
| OutOfFuel.
Arguments Normal {A} a.
Arguments Raised {A} e.
Arguments OutOfFuel {A}.

(** A computation reads the store and the history, and yields an outcome, the
    new store and the events it emitted itself. *)
Definition M (A : Type) : Type := heap -> list event -> outcome A * heap * list event.

Definition ret {A} (a : A) : M A := fun h _ => (Normal a, h, []).

Definition bind {A B} (m : M A) (f : A -> M B) : M B := fun h tr =>
  match m h tr with
  | (Normal a, h1, e1) =>
      match f a h1 (tr ++ e1) with
      | (r, h2, e2) => (r, h2, e1 ++ e2)
      end
  | (Raised e, h1, e1) => (Raised e, h1, e1)
  | (OutOfFuel, h1, e1) => (OutOfFuel, h1, e1)
  end.

#[global] Instance M_ret : MRet M := @ret.
#[global] Instance M_bind : MBind M := fun A B f m => bind m f.

Definition raise {A} (e : exn) : M A := fun h _ => (Raised e, h, []).

Definition out_of_fuel {A} : M A := fun h _ => (OutOfFuel, h, []).

(** [try: m except Exception as e: handler e]. *)
Definition try_except {A} (m : M A) (handler : exn -> M A) : M A := fun h tr =>
  match m h tr with
  | (Raised e, h1, e1) =>
      if is_Exception e then
        match handler e h1 (tr ++ e1) with
        | (r, h2, e2) => (r, h2, e1 ++ e2)
        end
      else (Raised e, h1, e1)
  | other => other
  end.

Definition emit (e : event) : M unit := fun h _ => (Normal tt, h, [e]).

Definition print (l : log) : M unit := emit (Printed l).

(** [time.sleep(seconds)]: a negative length raises ValueError. *)
Definition sleep (seconds : Q) : M unit :=
  if Qle_bool 0 seconds then emit (Sleep seconds) else raise PyValueError.

(** A call of a pure library function that may raise. *)
Definition lift {A} (origin : string) (o : option A) : M A :=
  match o with
  | Some a => ret a
  | None => raise (LibError origin)
  end.

(** Store operations. *)
Definition alloc (xs : list (elem Z)) : M loc := fun h _ =>
  let l := fresh (dom h) in (Normal l, <[l := xs]> h, []).

Definition load (l : loc) : M (list (elem Z)) := fun h _ =>
  match h !! l with
  | Some xs => (Normal xs, h, [])
  | None => (Raised DanglingReference, h, [])
  end.

Definition store (l : loc) (xs : list (elem Z)) : M unit := fun h _ =>
  (Normal tt, <[l := xs]> h, []).

(** [for x in xs: body x]. *)
Fixpoint for_each {A} (xs : list A) (body : A -> M unit) : M unit :=
  match xs with
  | [] => ret tt
  | x :: rest => body x ;; for_each rest body
  end.

(** [range(n)] as the list 0, 1, ..., n-1 (empty when n <= 0). *)
Definition range (n : Z) : list Z := map Z.of_nat (seq 0 (Z.to_nat n)).

(** ** The script *)

Section Script.

Context (lib : Lib) (w : World).

(** *** Calls into the environment *)

Definition get_latest_blockhash : M (option Hash) := fun h tr =>
  let r := rpc_get_latest_blockhash w tr in (Normal r, h, [GetLatestBlockhash r]).

Definition send_raw_transaction (raw : list Z) : M Signature := fun h tr =>
  let r := rpc_send_raw_transaction w tr raw in
  (match r with
   | Some sig => Normal sig
   | None => Raised (LibError "send_raw_transaction")
   end, h, [SendRawTransaction raw r]).

Definition get_transaction (sig : Signature) : M tx_reply := fun h tr =>
  let r := rpc_get_transaction w tr sig in (Normal r, h, [GetTransaction sig r]).

Definition read_csv (path : string) : M (list (gmap string cell)) := fun h tr =>
  (match fs_read_csv w tr path with
   | Some rows => Normal rows
   | None => Raised (LibError "read_csv")
   end, h, [ReadCsv path]).

(** [random.randint(a, b)]: an empty range raises ValueError. *)
Definition randint (a b : Z) : M Z := fun h tr =>
  if a <=? b then
    let r := random_randint w tr a b in (Normal r, h, [RandomRandint a b r])
  else (Raised PyValueError, h, []).

(** [random.uniform(a, b)]. *)
Definition uniform (a b : Q) : M Q := fun h tr =>
  let r := random_uniform w tr a b in (Normal r, h, [RandomUniform a b r]).

(** *** Python built-ins *)

(** [bytes(xs)]: the elements are taken in order; each must be an int, and in
    range(256). *)
Fixpoint py_bytes (xs : list (elem Z)) : M (list Z) :=
  match xs with
  | [] => mret []
  | Item x :: rest =>
      if is_u8 x then bs ← py_bytes rest; mret (x :: bs) else raise PyValueError
  | Len _ :: _ => raise TypeError
  end.

(** [int(c)]. *)
Definition py_int (c : cell) : M Z :=
  match c with
  | CInt z => mret z
  | CFloat q => mret (Z.quot (Qnum q) (Z.pos (Qden q)))
  | CInf _ => raise OverflowError
  | CNaN => raise PyValueError
  | CStr s => match int_of_str lib s with Some z => mret z | None => raise PyValueError end
  end.

(** [ast.literal_eval(c)]: a fresh list object; anything but a string raises. *)
Definition py_literal_eval (c : cell) : M loc :=
  match c with
  | CStr s =>
      match literal_eval lib s with
      | Some xs => alloc (map Item xs)
      | None => raise PyValueError
      end
  | _ => raise PyValueError
  end.

(** [base64.b64decode(c)]: anything but a string raises. *)
Definition py_b64decode (c : cell) : M (list Z) :=
  match c with
  | CStr s => lift "b64decode" (b64decode lib s)
  | _ => raise (LibError "b64decode")
  end.

(** [xs[i]] for [0 <= i]. *)
Definition getitem {A} (xs : list A) (i : nat) : M A :=
  match xs !! i with
  | Some x => mret x
  | None => raise IndexError
  end.

(** [e['data']] on an element of the instruction array: the data array of an
    instruction; the length element is a list and cannot be indexed by a
    string. *)
Definition getitem_data (e : elem InstructionObj) : M loc :=
  match e with
  | Item ins => mret (o_data ins)
  | Len _ => raise TypeError
  end.

(** [l[-1] = x] on the list object at [l]. *)
Definition setitem_last (l : loc) (x : elem Z) : M unit :=
  xs ← load l;
  match xs with
  | [] => raise IndexError
  | _ => store l (<[Nat.pred (length xs) := x]> xs)
  end.

(** *** JSON round trip of a transaction *)

(** [json.loads]: builds the tree, one fresh list object per [data] array. *)
Fixpoint loads_instructions (js : list (elem InstructionJson)) :
    M (list (elem InstructionObj)) :=
  match js with
  | [] => mret []
  | Len n :: rest =>
      os ← loads_instructions rest;
      mret (Len n :: os)
  | Item i :: rest =>
      l ← alloc (json_data i);
      os ← loads_instructions rest;
      mret (Item (mkInstructionObj (json_program_id_index i) (json_accounts i) l) :: os)
  end.

Definition json_loads (j : TxJson) : M TxObj :=
  os ← loads_instructions (json_instructions j);
  mret (mkTxObj (json_signatures j) (json_header j) (json_account_keys j)
                (json_recent_blockhash j) os).

(** [json.dumps]: reads the tree back. *)
Fixpoint dumps_instructions (os : list (elem InstructionObj)) :
    M (list (elem InstructionJson)) :=
  match os with
  | [] => mret []
  | Len n :: rest =>
      js ← dumps_instructions rest;
      mret (Len n :: js)
  | Item o :: rest =>
      d ← load (o_data o);
      js ← dumps_instructions rest;
      mret (Item (mkInstructionJson (o_program_id_index o) (o_accounts o) d) :: js)
  end.

Definition json_dumps (o : TxObj) : M TxJson :=
  js ← dumps_instructions (o_instructions o);
  mret (mkTxJson (o_signatures o) (o_header o) (o_account_keys o)
                 (o_recent_blockhash o) js).

(** [SolderTransaction.from_json] followed by [Transaction.from_solders]. *)
Definition from_json (j : TxJson) : M Tx :=
  lift "from_json" (parse_tx j).

(** [tx.recent_blockhash = blockhash]. *)
Definition set_recent_blockhash (tx : Tx) (bh : Hash) : Tx :=
  mkTx (signatures tx)
       (mkMessage (header (message tx)) (account_keys (message tx)) bh
                  (instructions (message tx))).

(** *** [get_latest_blockhash_with_retry] (lines 22-33) *)

(** The loop over [range(1, retries + 1)], [n] iterations left. *)
Fixpoint blockhash_attempts (n : nat) (attempt retries : Z) (delay : Q) : M (option Hash) :=
  match n with
  | O => mret None
  | S n' =>
      r ← get_latest_blockhash;
      match r with
      | Some bh => mret (Some bh)
      | None =>
          print LogBlockhashError;;
          if attempt <? retries then
            print (LogBlockhashRetry attempt);;
            sleep delay;;
            blockhash_attempts n' (attempt + 1) retries delay
          else
            print LogBlockhashGiveUp;;
            mret None
      end
  end.

Definition get_latest_blockhash_with_retry (retries : Z) (delay : Q) : M (option Hash) :=
  blockhash_attempts (Z.to_nat retries) 1 retries delay.

(** *** [send_modified_transaction] (lines 10-69) *)

(** Lines 44-46. *)
Definition decode_template (base64_data : cell) : M TxObj :=
  byte_data ← py_b64decode base64_data;
  tx ← lift "deserialize" (deserialize lib byte_data);
  json_loads (to_json tx).

(** Lines 43-48. *)
Definition decode_transaction (base64_data : cell) : M TxObj :=
  try_except (decode_template base64_data) (fun e => raise (DeserializeError e)).

(** Lines 52-55: the draw, the write into the tree, and the re-encoding. *)
Definition mutate (tx : TxObj) : M Tx :=
  random_number ← randint 0 255;
  ins ← getitem (o_instructions tx) 1;
  d ← getitem_data ins;
  setitem_last d (Item random_number);;
  modified_tx_json ← json_dumps tx;
  from_json modified_tx_json.

(** Lines 51-57. *)
Definition modify_transaction (tx : TxObj) : M Tx :=
  try_except (mutate tx) (fun e => raise (MalformedTemplate e)).

Definition send_modified_transaction (rpc_url : string) (base64_data : cell)
    (private_key : loc) : M Signature :=
  blockhash ← get_latest_blockhash_with_retry 5 (1 # 2);
  match blockhash with
  | None => raise BlockhashUnavailable
  | Some blockhash =>
      key ← load private_key;
      key_bytes ← py_bytes key;
      keypair ← lift "Keypair.from_bytes" (keypair_from_bytes lib key_bytes);
      tx ← decode_transaction base64_data;
      tx ← modify_transaction tx;
      tx ← lift "sign" (sign lib (set_recent_blockhash tx blockhash) keypair);
      try_except
        (raw ← lift "serialize" (serialize lib tx);
         tx_signature ← send_raw_transaction raw;
         print (LogSent tx_signature);;
         mret tx_signature)
        (fun e => raise (BroadcastError e))
  end.

(** *** [check_transaction_status] (lines 72-106) *)

Definition check_transaction_status (tx_signature : Signature) : M bool :=
  res ← get_transaction tx_signature;
  match res with
  | QueryRaises => print LogStatusError;; mret false
  | ValueNone => print (LogNotFound tx_signature);; mret false
  | MetaNone => print (LogNoMeta tx_signature);; mret false
  | MetaOk => print (LogSuccess tx_signature);; mret true
  | MetaErr detail => print (LogFailed tx_signature detail);; mret false
  end.

(** *** [process_wallet] (lines 129-157) *)

(** The [while True] loop of lines 145-154, at most [fuel] status queries. *)
Fixpoint wait_for_confirmation (fuel : nat) (tx_signature : Signature) : M unit :=
  match fuel with
  | O => out_of_fuel
  | S fuel' =>
      ok ← check_transaction_status tx_signature;
      if (ok : bool) then
        sleep_time ← uniform 2 5;
        print (LogJitter sleep_time);;
        sleep sleep_time
      else
        print LogNotConfirmed;;
        sleep 5;;
        wait_for_confirmation fuel' tx_signature
  end.

(** The body of the [for] loop, lines 139-157. *)
Definition iteration_body (fuel : nat) (rpc : string) (private_key : loc) (data : cell)
    (repeat_count iteration : Z) : M unit :=
  try_except
    (print (LogIterStart (iteration + 1) repeat_count);;
     tx_signature ← send_modified_transaction rpc data private_key;
     print (LogIterSignature (iteration + 1) repeat_count tx_signature);;
     wait_for_confirmation fuel tx_signature)
    (fun e => print (LogIterError (iteration + 1) repeat_count e)).

(** The [for] loop of line 138. *)
Definition replay_loop (fuel : nat) (rpc : string) (private_key : loc) (data : cell)
    (repeat_count : Z) : M unit :=
  for_each (range repeat_count) (iteration_body fuel rpc private_key data repeat_count).

Definition process_wallet (fuel : nat) (rpc : string) (private_key : loc) (data : cell)
    (repeat_count : Z) : M unit :=
  key ← load private_key;
  key_bytes ← py_bytes key;
  keypair ← lift "Keypair.from_bytes" (keypair_from_bytes lib key_bytes);
  print (LogWalletStart (pubkey lib keypair) repeat_count);;
  replay_loop fuel rpc private_key data repeat_count.

(** *** [read_data_from_csv] (lines 109-126) *)

(** [row[key]]. *)
Definition row_get (row : gmap string cell) (key : string) : M cell :=
  match row !! key with
  | Some c => mret c
  | None => raise (KeyError key)
  end.

(** Lines 120-123: one row, appended to [data]. *)
Fixpoint read_rows (rows : list (gmap string cell)) (data : list Task) : M (list Task) :=
  match rows with
  | [] => mret data
  | row :: rest =>
      c ← row_get row "private_key";
      private_key ← py_literal_eval c;
      transaction_data ← row_get row "data";
      c ← row_get row "repeat_count";
      repeat_count ← py_int c;
      read_rows rest (data ++ [mkTask private_key transaction_data repeat_count])
  end.

Definition read_data_from_csv (file_path : string) : M (list Task) :=
  try_except
    (rows ← read_csv file_path; read_rows rows [])
    (fun e => raise (DatasetLoadError e)).

(** *** The main flow (lines 161-181) *)

(** A job handed to the thread pool: the arguments of one
    [executor.submit(process_wallet, ...)]. *)
Record Job := mkJob {
  j_rpc : string;
  j_private_key : loc;
  j_data : cell;
  j_repeat_count : Z }.

Definition rpc : string := "https://eclipse.lgns.net".
Definition csv_file : string := "transactions.csv".

(** Lines 165-181, up to the hand-over to the pool: the jobs submitted, in
    order.  How the pool runs them is not part of this sequential model. *)
Definition main_submit : M (list Job) :=
  transaction_data_list ←
    try_except (read_data_from_csv csv_file)
               (fun e => print (LogCsvError e);; raise (SystemExit 1));
  mret (map (fun t => mkJob rpc (t_private_key t) (t_data t) (t_repeat_count t))
            transaction_data_list).

End Script.

(** ** Views of a trace *)

Definition is_blockhash_call (e : event) : bool :=
  match e with GetLatestBlockhash _ => true | _ => false end.

Definition is_submission (e : event) : bool :=
  match e with SendRawTransaction _ _ => true | _ => false end.

Definition is_status_query (e : event) : bool :=
  match e with GetTransaction _ _ => true | _ => false end.

Definition is_rpc (e : event) : bool :=
  is_blockhash_call e || is_submission e || is_status_query e.

(** The repetition numbers announced by line 140, in order. *)
Fixpoint iteration_starts (ev : list event) : list Z :=
  match ev with
  | [] => []
  | Printed (LogIterStart i _) :: rest => i :: iteration_starts rest
  | _ :: rest => iteration_starts rest
  end.

(** The repetitions whose error line 157 logged, in order. *)
Fixpoint iteration_errors (ev : list event) : list (Z * exn) :=
  match ev with
  | [] => []
  | Printed (LogIterError i _ e) :: rest => (i, e) :: iteration_errors rest
  | _ :: rest => iteration_errors rest
  end.

Definition count (p : event -> bool) (ev : list event) : nat := length (filter p ev).

(** Runs [m] on the history extended by [pre], and puts [pre] in front of what
    it emits. *)
Definition after {A} (pre : list event) (m : M A) : M A := fun h tr =>
  match m h (tr ++ pre) with
  | (r, h', ev) => (r, h', pre ++ ev)
  end.

(** *** Episodes of the retry loops *)

(** One failed attempt of the blockhash fetch that is followed by a retry. *)
Definition failed_attempt (attempt : Z) : list event :=
  [GetLatestBlockhash None; Printed LogBlockhashError;
   Printed (LogBlockhashRetry attempt); Sleep (1 # 2)].

(** The first [k] attempts, all failed. *)
Definition failed_attempts (k : nat) : list event :=
  flat_map (fun a => failed_attempt (Z.of_nat a)) (seq 1 k).

(** The whole fetch when every attempt fails. *)
Definition exhausted_fetch : list event :=
  failed_attempts 4 ++
  [GetLatestBlockhash None; Printed LogBlockhashError; Printed LogBlockhashGiveUp].

(** A repetition that ends at the failed fetch. *)
Definition aborted_iteration (repeat_count iteration : Z) : list event :=
  [Printed (LogIterStart (iteration + 1) repeat_count)] ++ exhausted_fetch ++
  [Printed (LogIterError (iteration + 1) repeat_count BlockhashUnavailable)].

(** The line [check_transaction_status] prints for a reply. *)
Definition status_line (sig : Signature) (r : tx_reply) : log :=
  match r with
  | QueryRaises => LogStatusError
  | ValueNone => LogNotFound sig
  | MetaNone => LogNoMeta sig
  | MetaOk => LogSuccess sig
  | MetaErr detail => LogFailed sig detail
  end.

(** The value [check_transaction_status] returns for a reply. *)
Definition confirmed (r : tx_reply) : bool :=
  match r with MetaOk => true | _ => false end.

(** One round of the polling loop that ends in the wait of line 154. *)
Definition retry_round (sig : Signature) (r : tx_reply) : list event :=
  [GetTransaction sig r; Printed (status_line sig r); Printed LogNotConfirmed; Sleep 5].

Definition is_sleep (e : event) : bool :=
  match e with Sleep _ => true | _ => false end.

Definition is_uniform_call (e : event) : bool :=
  match e with RandomUniform _ _ _ => true | _ => false end.

(** The round of the polling loop that sees the success; [pause] is what
    the call [random.uniform(2, 5)] of line 148 returned. *)
Definition confirmed_round (sig : Signature) (pause : Q) : list event :=
  [GetTransaction sig MetaOk; Printed (LogSuccess sig); RandomUniform 2 5 pause;
   Printed (LogJitter pause); Sleep pause].

(** *** Conditions on the input *)

(** Every u8 field of the transaction is in range(256). *)
Definition valid_instruction (i : Instruction) : bool :=
  is_u8 (program_id_index i) && forallb is_u8 (accounts i) && forallb is_u8 (data i).

Definition valid_tx (tx : Tx) : bool :=
  let hd := header (message tx) in
  is_u8 (num_required_signatures hd) && is_u8 (num_readonly_signed_accounts hd)
  && is_u8 (num_readonly_unsigned_accounts hd)
  && forallb valid_instruction (instructions (message tx)).

(** The template has a first instruction (instruction 0, the element at
    index 1 of the JSON array), and that instruction has data. *)
Definition mutable_template (tx : Tx) : bool :=
  match instructions (message tx) !! 0%nat with
  | Some i => negb (Nat.eqb (length (data i)) 0)
  | None => false
  end.

(** [tx] with the last data byte of instruction 0 replaced by [r]. *)
Definition with_last_byte (tx : Tx) (r : Z) : Tx :=
  match instructions (message tx) !! 0%nat with
  | Some i =>
      mkTx (signatures tx)
           (mkMessage (header (message tx)) (account_keys (message tx))
                      (recent_blockhash (message tx))
                      (<[0%nat := mkInstruction (program_id_index i) (accounts i)
                                    (<[Nat.pred (length (data i)) := r]> (data i))]>
                         (instructions (message tx))))
  | None => tx
  end.

(** The flat sequence of the u8 fields of a decoded transaction. *)
Definition instruction_bytes (i : Instruction) : list Z :=
  program_id_index i :: accounts i ++ data i.

Definition tx_bytes (tx : Tx) : list Z :=
  let hd := header (message tx) in
  num_required_signatures hd :: num_readonly_signed_accounts hd
  :: num_readonly_unsigned_accounts hd
  :: flat_map instruction_bytes (instructions (message tx)).

(** Where the last data byte of instruction 0 sits in [tx_bytes]. *)
Definition last_byte_position (tx : Tx) : nat :=
  match instructions (message tx) with
  | i0 :: _ => 3 + 1 + length (accounts i0) + Nat.pred (length (data i0))
  | _ => 0
  end.

(** The positions at which two byte sequences of one length differ. *)
Fixpoint differing_positions (xs ys : list Z) (pos : nat) : list nat :=
  match xs, ys with
  | x :: xs', y :: ys' =>
      if Z.eqb x y then differing_positions xs' ys' (S pos)
      else pos :: differing_positions xs' ys' (S pos)
  | _, _ => []
  end.

(** A row the loader converts without raising: the three columns are there,
    private_key is a string [ast.literal_eval] accepts, and repeat_count is a
    value [int] accepts. *)
Definition row_loads (lib : Lib) (row : gmap string cell) : bool :=
  match row !! "private_key", row !! "data", row !! "repeat_count" with
  | Some (CStr s), Some _, Some c =>
      match literal_eval lib s with
      | None => false
      | Some _ =>
          match c with
          | CInt _ | CFloat _ => true
          | CInf _ | CNaN => false
          | CStr t => match int_of_str lib t with Some _ => true | None => false end
          end
      end
  | _, _, _ => false
  end.

(** ** Scenarios

    Concrete libraries, worlds and inputs on which the script is run below. *)

Module Demo.

(** A signing key of the right length, and one that is too short. *)
Definition key_bytes : list Z := repeat 7 64.
Definition short_key_bytes : list Z := [1; 2; 3].

Definition instr (d : list Z) : Instruction := mkInstruction 2 [0; 1] d.

Definition tx_of (ins : list Instruction) : Tx :=
  mkTx [mkSignature "template"]
       (mkMessage (mkHeader 1 0 1) ["payer"; "target"; "program"] (mkHash "stale") ins).

(** Templates: two instructions with data; one instruction only; instruction 1
    without data; no instruction; instruction 0 without data. *)
Definition tx_two : Tx := tx_of [instr [10; 11]; instr [20; 21; 22]].
Definition tx_one : Tx := tx_of [instr [10; 11]].
Definition tx_empty : Tx := tx_of [instr [10; 11]; instr []].
Definition tx_none : Tx := tx_of [].
Definition tx_first_empty : Tx := tx_of [instr []; instr [20; 21; 22]].

(** A stand-in library: the payloads "two", "one", "empty", "none" and
    "first_empty" decode to the templates above; signing replaces the
    signature list; the wire form is the flat byte sequence. *)
Definition lib : Lib := {|
  b64decode := fun s =>
    if String.eqb s "two" then Some [2]
    else if String.eqb s "one" then Some [1]
    else if String.eqb s "empty" then Some [0]
    else if String.eqb s "none" then Some [3]
    else if String.eqb s "first_empty" then Some [4]
    else None;
  deserialize := fun b =>
    match b with
    | [2] => Some tx_two
    | [1] => Some tx_one
    | [0] => Some tx_empty
    | [3] => Some tx_none
    | [4] => Some tx_first_empty
    | _ => None
    end;
  keypair_from_bytes := fun b =>
    if Nat.eqb (length b) 64 then Some (mkKeypair b) else None;
  pubkey := fun _ => "wallet";
  sign := fun tx _ => Some (mkTx [mkSignature "signed"] (message tx));
  serialize := fun tx => Some (tx_bytes tx);
  literal_eval := fun s =>
    if String.eqb s "[7]*64" then Some key_bytes
    else if String.eqb s "[1, 2, 3]" then Some short_key_bytes
    else None;
  int_of_str := fun s =>
    if String.eqb s "3" then Some 3 else None |}.

(** A scripted answer of the [random] module, brought into the bounds of the
    call. *)
Definition within (a b z : Z) : Z := Z.max a (Z.min b z).

Definition within_range (z : Z) (tr : list event) (a b : Z) :
  a <= b -> a <= within a b z <= b.
Proof. unfold within. lia. Qed.

Definition withinQ (a b q : Q) : Q :=
  if Qle_bool q a then a else if Qle_bool b q then b else q.

Definition withinQ_range (q : Q) (tr : list event) (a b : Q) :
  (a <= b)%Q -> (a <= withinQ a b q)%Q /\ (withinQ a b q <= b)%Q.
Proof.
  intros Hab. unfold withinQ.
  destruct (Qle_bool q a) eqn:Hqa; [split; [apply Qle_refl|exact Hab]|].
  destruct (Qle_bool b q) eqn:Hbq; [split; [exact Hab|apply Qle_refl]|].
  split.
  - destruct (Qlt_le_dec q a) as [Hlt | Hle]; [|exact Hle].
    apply Qlt_le_weak, Qle_bool_iff in Hlt. congruence.
  - destruct (Qlt_le_dec b q) as [Hlt | Hle]; [|exact Hle].
    apply Qlt_le_weak, Qle_bool_iff in Hlt. congruence.
Qed.

(** A world given by scripts: the n-th call of a kind gets the n-th answer;
    [random.randint] always answers [byte] and [random.uniform] always
    [pause]. *)
Definition scripted (blockhash : nat -> option Hash) (submission : nat -> option Signature)
    (status : nat -> tx_reply) (byte : Z) (pause : Q)
    (csv : option (list (gmap string cell))) : World := {|
  rpc_get_latest_blockhash := fun tr => blockhash (count is_blockhash_call tr);
  rpc_send_raw_transaction := fun tr _ => submission (count is_submission tr);
  rpc_get_transaction := fun tr _ => status (count is_status_query tr);
  random_randint := fun _ a b => within a b byte;
  random_randint_range := within_range byte;
  random_uniform := fun _ a b => withinQ a b pause;
  random_uniform_range := withinQ_range pause;
  fs_read_csv := fun _ _ => csv |}.

Definition always {A} (a : A) : nat -> A := fun _ => a.

Definition nth_or {A} (xs : list A) (d : A) : nat -> A := fun n => nth n xs d.

(** The store holding one key list, at reference 1. *)
Definition store_with_key : heap := {[ 1%positive := map Item key_bytes ]}.

Definition sig_a : Signature := mkSignature "a".

(** Every call succeeds at once. *)
Definition healthy : World :=
  scripted (always (Some (mkHash "fresh"))) (always (Some sig_a)) (always MetaOk)
           0 (7 # 2) None.

(** The blockhash query never answers. *)
Definition blockhash_down : World :=
  scripted (always None) (always (Some sig_a)) (always MetaOk) 0 (7 # 2) None.

(** The blockhash query answers at the third attempt. *)
Definition blockhash_third : World :=
  scripted (nth_or [None; None] (Some (mkHash "fresh"))) (always (Some sig_a))
           (always MetaOk) 0 (7 # 2) None.

(** Every submitted transaction is reported as failed on chain. *)
Definition always_failed : World :=
  scripted (always (Some (mkHash "fresh"))) (always (Some sig_a))
           (always (MetaErr "InstructionError")) 0 (7 # 2) None.

(** The status is not found twice, then success. *)
Definition found_third : World :=
  scripted (always (Some (mkHash "fresh"))) (always (Some sig_a))
           (nth_or [ValueNone; ValueNone] MetaOk) 0 (7 # 2) None.

(** The second submission is rejected. *)
Definition second_rejected : World :=
  scripted (always (Some (mkHash "fresh"))) (nth_or [Some sig_a; None] (Some sig_a))
           (always MetaOk) 0 (7 # 2) None.

(** [random.randint] answers 11, the last data byte of instruction 0 of
    [tx_two]. *)
Definition draws_11 : World :=
  scripted (always (Some (mkHash "fresh"))) (always (Some sig_a)) (always MetaOk)
           11 (7 # 2) None.

(** The status of the first transaction stays not found, for ever. *)
Definition never_found : World :=
  scripted (always (Some (mkHash "fresh"))) (always (Some sig_a)) (always ValueNone)
           0 (7 # 2) None.

(** What [process_wallet] emits on [always_failed], two repetitions asked, up
    to the first status query. *)
Definition first_submission : list event :=
  [Printed (LogWalletStart "wallet" 2); Printed (LogIterStart 1 2);
   GetLatestBlockhash (Some (mkHash "fresh")); RandomRandint 0 255 0;
   SendRawTransaction [1; 0; 1; 2; 0; 1; 10; 0; 2; 0; 1; 20; 21; 22] (Some sig_a);
   Printed (LogSent sig_a); Printed (LogIterSignature 1 2 sig_a)].

(** Datasets. *)
Definition row (key : cell) (payload : cell) (n : cell) : gmap string cell :=
  {[ "private_key" := key; "data" := payload; "repeat_count" := n ]}.

Definition good_row : gmap string cell := row (CStr "[7]*64") (CStr "two") (CInt 2).
Definition bad_row : gmap string cell := row (CStr "[7]*64") (CStr "two") (CStr "many").

Definition with_csv (rows : list (gmap string cell)) : World :=
  scripted (always (Some (mkHash "fresh"))) (always (Some sig_a)) (always MetaOk)
           0 (7 # 2) (Some rows).

(** The node rejects every submission. *)
Definition rejecting : World :=
  scripted (always (Some (mkHash "fresh"))) (always None) (always MetaOk) 0 (7 # 2) None.

(** The library of [lib] with a signing step that raises. *)
Definition lib_unsigned : Lib := {|
  b64decode := b64decode lib;
  deserialize := deserialize lib;
  keypair_from_bytes := keypair_from_bytes lib;
  pubkey := pubkey lib;
  sign := fun _ _ => None;
  serialize := serialize lib;
  literal_eval := literal_eval lib;
  int_of_str := int_of_str lib |}.

(** A store whose key list is too short for a keypair, and one whose key list
    holds a value that is no byte. *)
Definition store_with_short_key : heap := {[ 1%positive := map Item short_key_bytes ]}.
Definition store_with_wide_key : heap := {[ 1%positive := map Item [1; 256; 3] ]}.

(** The transaction [send_modified_transaction] submits for the template
    "two" when [random.randint] answers 0 and the blockhash is "fresh". *)
Definition tx_sent : Tx :=
  mkTx [mkSignature "signed"]
       (mkMessage (mkHeader 1 0 1) ["payer"; "target"; "program"] (mkHash "fresh")
                  [instr [10; 0]; instr [20; 21; 22]]).

(** Rows: a fractional and a negative repeat count, and a key of the wrong
    length; all of them load. *)
Definition odd_rows : list (gmap string cell) :=
  [row (CStr "[7]*64") (CStr "two") (CFloat (5 # 2));
   row (CStr "[1, 2, 3]") CNaN (CInt (-1))].

(** Rows that are no tasks of the design: a payload that is no base64 text
    with a repeat count of zero; a key of three bytes with an empty payload
    cell and a repeat count of -1; a repeat count of 2.5. *)
Definition unfit_rows : list (gmap string cell) :=
  [row (CStr "[7]*64") (CStr "not base64!") (CInt 0);
   row (CStr "[1, 2, 3]") CNaN (CInt (-1));
   row (CStr "[7]*64") (CStr "two") (CFloat (5 # 2))].

End Demo.

(** ** Predicates used in the proofs *)

(** A trace without the repetition markers of lines 140 and 157. *)
Definition quiet (ev : list event) : Prop :=
  iteration_starts ev = [] /\ iteration_errors ev = [].

(** A computation that needs no fuel, raises only what [except Exception]
    catches, and emits no repetition marker. *)
Definition tame {A} (m : M A) : Prop :=
  forall h tr,
    match m h tr with
    | (r, _, ev) =>
        quiet ev /\ r <> OutOfFuel /\ (forall e, r = Raised e -> is_Exception e = true)
    end.

(** The data arrays of a tree: the list objects its instructions refer to. *)
Definition data_refs (os : list (elem InstructionObj)) : list loc :=
  flat_map (fun e => match e with Item o => [o_data o] | Len _ => [] end) os.

(** The element [o] of a tree is, in the store [h], the element [j] of a JSON
    text. *)
Definition represents_elem (h : heap) (o : elem InstructionObj) (j : elem InstructionJson) :
    Prop :=
  match o, j with
  | Len n, Len m => n = m
  | Item o, Item j =>
      o_program_id_index o = json_program_id_index j
      /\ o_accounts o = json_accounts j
      /\ h !! o_data o = Some (json_data j)
  | _, _ => False
  end.

(** The store [h] holds, for every instruction of the tree [os], the data
    array of the instruction at the same position of [js]. *)
Definition represents (h : heap) (os : list (elem InstructionObj))
    (js : list (elem InstructionJson)) : Prop :=
  Forall2 (represents_elem h) os js.

(** [o] is the tree of the JSON text [j] in the store [h]; its data arrays are
    distinct objects, none of them an object of [base]. *)
Definition loaded (base h : heap) (o : TxObj) (j : TxJson) : Prop :=
  o_signatures o = json_signatures j
  /\ o_header o = json_header j
  /\ o_account_keys o = json_account_keys j
  /\ o_recent_blockhash o = json_recent_blockhash j
  /\ represents h (o_instructions o) (json_instructions j)
  /\ NoDup (data_refs (o_instructions o))
  /\ Forall (fun l => base !! l = None) (data_refs (o_instructions o)).

(** A computation that, started in a store extending [base], ends in one that
    extends [base], with a result satisfying [Q] when it returns. *)
Definition keeps {A} (base : heap) (Q : A -> Prop) (m : M A) : Prop :=
  forall h tr,
    base ⊆ h ->
    match m h tr with
    | (r, h', _) => base ⊆ h' /\ (forall a, r = Normal a -> Q a)
    end.

(** The JSON text of [tx] with [d] for the data array of its first
    instruction. *)
Definition to_json_with_data (tx : Tx) (d : list (elem Z)) : TxJson :=
  match instructions (message tx) with
  | i0 :: rest =>
      mkTxJson (signatures tx) (header (message tx)) (account_keys (message tx))
               (recent_blockhash (message tx))
               (Len (length (i0 :: rest))
                :: Item (mkInstructionJson (program_id_index i0) (vec (accounts i0)) d)
                :: map Item (map to_json_instruction rest))
  | [] => to_json tx
  end.

(** ** Further views of a run *)

(** A computation that emits nothing and needs no fuel. *)
Definition silent {A} (m : M A) : Prop :=
  forall h tr, match m h tr with (r, _, ev) => ev = [] /\ r <> OutOfFuel end.

(** The order in which a run may use the node: a submission needs a blockhash
    obtained since the previous submission, and a status query asks for the
    signature the node returned for the latest submission. *)
Record protocol := mkProtocol {
  fresh_blockhash : bool;
  submitted : option Signature }.

Definition Signature_eqb (a b : Signature) : bool :=
  match a, b with mkSignature x, mkSignature y => String.eqb x y end.

Definition protocol_step (s : protocol) (e : event) : option protocol :=
  match e with
  | GetLatestBlockhash (Some _) => Some (mkProtocol true (submitted s))
  | SendRawTransaction _ r =>
      if fresh_blockhash s then Some (mkProtocol false r) else None
  | GetTransaction sig _ =>
      match submitted s with
      | Some sig' => if Signature_eqb sig sig' then Some s else None
      | None => None
      end
  | _ => Some s
  end.

Fixpoint protocol_run (s : protocol) (ev : list event) : option protocol :=
  match ev with
  | [] => Some s
  | e :: rest =>
      match protocol_step s e with
      | Some s' => protocol_run s' rest
      | None => None
      end
  end.

(** The first [k] rounds of the polling loop in the world [w], each ending in
    the wait of line 154. *)
Fixpoint poll_rounds (w : World) (sig : Signature) (tr : list event) (k : nat) : list event :=
  match k with
  | O => []
  | S k' =>
      let round := retry_round sig (rpc_get_transaction w tr sig) in
      round ++ poll_rounds w sig (tr ++ round) k'
  end.

(** A sleep the script asks for in the run [ev]: the 0.5 of the blockhash
    retry, the 5 of the polling loop, or a value that a call
    [random.uniform(2, 5)] of this run returned. *)
Definition allowed_sleep (ev : list event) (e : event) : Prop :=
  match e with
  | Sleep d => d = (1 # 2)%Q \/ d = 5%Q \/ In (RandomUniform 2 5 d) ev
  | _ => True
  end.

(** A sleep the script asks for in the run [ev], of no less than half a second
    and no more than 5 seconds. *)
Definition asked_sleep (ev : list event) (e : event) : Prop :=
  allowed_sleep ev e
  /\ forall d, e = Sleep d -> (1 # 2 <= d)%Q /\ (d <= 5)%Q.

(** What a loaded task has to do with its row: the payload is the cell of the
    data column, the key list (in the store [h]) is the value of the literal
    in the private_key column, and the repeat count is what [int] makes of the
    repeat_count column. *)
Definition task_of_row (lib : Lib) (h : heap) (row : gmap string cell) (t : Task) : Prop :=
  row !! "data" = Some (t_data t)
  /\ (exists s ks, row !! "private_key" = Some (CStr s)
                   /\ literal_eval lib s = Some ks
                   /\ h !! t_private_key t = Some (map Item ks))
  /\ (exists c, row !! "repeat_count" = Some c
                /\ forall h0 tr0, py_int lib c h0 tr0 = (Normal (t_repeat_count t), h0, [])).

(** [m'] does what [m] does, whenever [m] ends within its fuel. *)
Definition extends {A} (m m' : M A) : Prop :=
  forall h tr, fst (fst (m h tr)) <> OutOfFuel -> m' h tr = m h tr.

(** The errors a submission attempt raises once its key is known to be good:
    the missing blockhash of line 37, the errors of lines 48, 57 and 69, and
    what [tx.sign] raises (line 61 is outside every [try]). *)
Definition submission_error (e : exn) : Prop :=
  e = BlockhashUnavailable
  \/ (exists c, e = DeserializeError c)
  \/ (exists c, e = MalformedTemplate c)
  \/ e = LibError "sign"
  \/ (exists c, e = BroadcastError c).

(** [e], if it is a submission, submits the signed, serialised form of the
    template [tx] with one byte that [random.randint(0, 255)] returned in this
    run written over the last data byte of instruction 0, under a blockhash
    the node gave in this run. *)
Definition template_submission (lib : Lib) (tx : Tx) (kp : Keypair) (ev : list event)
    (e : event) : Prop :=
  forall raw r,
    e = SendRawTransaction raw r ->
    exists byte bh signed,
      In (RandomRandint 0 255 byte) ev /\ In (GetLatestBlockhash (Some bh)) ev
      /\ mutable_template tx = true
      /\ sign lib (set_recent_blockhash (with_last_byte tx byte) bh) kp = Some signed
      /\ serialize lib signed = Some raw.

(** Whether an accepted submission still waits for its success reply.  While
    one does, the only RPC calls allowed are status queries for its signature;
    the first success reply among them ends the wait. *)
Definition pending_step (p : option Signature) (e : event) : option (option Signature) :=
  match e, p with
  | GetLatestBlockhash _, None => Some None
  | GetLatestBlockhash _, Some _ => None
  | SendRawTransaction _ r, None => Some r
  | SendRawTransaction _ _, Some _ => None
  | GetTransaction sig r, Some sig' =>
      if Signature_eqb sig sig' then Some (if confirmed r then None else p) else None
  | GetTransaction _ _, None => None
  | _, _ => Some p
  end.

Fixpoint pending_run (p : option Signature) (ev : list event) : option (option Signature) :=
  match ev with
  | [] => Some p
  | e :: rest =>
      match pending_step p e with
      | Some p' => pending_run p' rest
      | None => None
      end
  end.

(** ** Laws of the monad *)

Ltac unfold_m := unfold mbind, M_bind, mret, M_ret in *.

Ltac split_all := repeat match goal with |- _ /\ _ => split end.

Lemma bind_normal {A B} (m : M A) (f : A -> M B) h tr a h1 e1 :
  m h tr = (Normal a, h1, e1) ->
  (m ≫= f) h tr = after e1 (f a) h1 tr.
Proof. intros Hm. unfold_m. unfold bind, after. now rewrite Hm. Qed.

Lemma bind_raised {A B} (m : M A) (f : A -> M B) h tr e h1 e1 :
  m h tr = (Raised e, h1, e1) ->
  (m ≫= f) h tr = (Raised e, h1, e1).
Proof. intros Hm. unfold_m. unfold bind. now rewrite Hm. Qed.

Lemma bind_out_of_fuel {A B} (m : M A) (f : A -> M B) h tr h1 e1 :
  m h tr = (OutOfFuel, h1, e1) ->
  (m ≫= f) h tr = (OutOfFuel, h1, e1).
Proof. intros Hm. unfold_m. unfold bind. now rewrite Hm. Qed.

Lemma try_normal {A} (m : M A) handler h tr a h1 e1 :
  m h tr = (Normal a, h1, e1) ->
  try_except m handler h tr = (Normal a, h1, e1).
Proof. intros Hm. unfold try_except. now rewrite Hm. Qed.

Lemma try_raised {A} (m : M A) handler h tr e h1 e1 :
  m h tr = (Raised e, h1, e1) -> is_Exception e = true ->
  try_except m handler h tr = after e1 (handler e) h1 tr.
Proof. intros Hm He. unfold try_except, after. now rewrite Hm, He. Qed.

Lemma try_out_of_fuel {A} (m : M A) handler h tr h1 e1 :
  m h tr = (OutOfFuel, h1, e1) ->
  try_except m handler h tr = (OutOfFuel, h1, e1).
Proof. intros Hm. unfold try_except. now rewrite Hm. Qed.

Lemma after_nil {A} (m : M A) h tr : after [] m h tr = m h tr.
Proof. unfold after. rewrite app_nil_r. now destruct (m h tr) as [[r h'] ev]. Qed.

Lemma py_bytes_items ks h tr :
  py_bytes (map Item ks) h tr
  = if forallb is_u8 ks then (Normal ks, h, []) else (Raised PyValueError, h, []).
Proof.
  revert h tr. induction ks as [|k ks IH]; intros h tr; [reflexivity|].
  cbn [map py_bytes forallb]. destruct (is_u8 k); [|reflexivity].
  unfold_m. unfold bind. rewrite IH. now destruct (forallb is_u8 ks).
Qed.

Lemma print_then {A} (l : log) (m : M A) h tr :
  (print l ;; m) h tr = after [Printed l] m h tr.
Proof. reflexivity. Qed.

Lemma sleep_then {A} (d : Q) (m : M A) h tr :
  Qle_bool 0 d = true ->
  (sleep d ;; m) h tr = after [Sleep d] m h tr.
Proof. intros Hd. unfold_m. unfold bind at 1, sleep. now rewrite Hd. Qed.

(** ** Views of a trace: basic facts *)

Lemma iteration_starts_app ev1 ev2 :
  iteration_starts (ev1 ++ ev2) = iteration_starts ev1 ++ iteration_starts ev2.
Proof.
  induction ev1 as [|e ev1 IH]; [reflexivity|].
  destruct e as [| | | | | | |l]; simpl; try exact IH.
  destruct l; simpl; try exact IH. now rewrite IH.
Qed.

Lemma iteration_errors_app ev1 ev2 :
  iteration_errors (ev1 ++ ev2) = iteration_errors ev1 ++ iteration_errors ev2.
Proof.
  induction ev1 as [|e ev1 IH]; [reflexivity|].
  destruct e as [| | | | | | |l]; simpl; try exact IH.
  destruct l; simpl; try exact IH. now rewrite IH.
Qed.

Lemma count_app p ev1 ev2 : count p (ev1 ++ ev2) = (count p ev1 + count p ev2)%nat.
Proof. unfold count. now rewrite filter_app, length_app. Qed.

Lemma range_nonpos n : n <= 0 -> range n = [].
Proof. intros Hn. unfold range. now replace (Z.to_nat n) with O by lia. Qed.

Lemma range_length n : length (range n) = Z.to_nat n.
Proof. unfold range. now rewrite length_map, length_seq. Qed.

(** ** The [for] loop *)

Lemma for_each_normal {A} (body : A -> M unit) (evs : A -> list event) xs :
  (forall x h tr, body x h tr = (Normal tt, h, evs x)) ->
  forall h tr, for_each xs body h tr = (Normal tt, h, flat_map evs xs).
Proof.
  intros Hbody. induction xs as [|x xs IH]; intros h tr; [reflexivity|].
  cbn [for_each flat_map]. rewrite (bind_normal _ _ _ _ _ _ _ (Hbody x h tr)).
  unfold after. now rewrite IH.
Qed.

(** ** The blockhash fetch *)

Section Blockhash.

Context (lib : Lib) (w : World).

Lemma attempt_succeeds n attempt retries delay h tr bh :
  rpc_get_latest_blockhash w tr = Some bh ->
  blockhash_attempts w (S n) attempt retries delay h tr
  = (Normal (Some bh), h, [GetLatestBlockhash (Some bh)]).
Proof.
  intros Hrpc. cbn [blockhash_attempts]. unfold_m.
  unfold bind, get_latest_blockhash. now rewrite Hrpc.
Qed.

Lemma attempt_fails_retry n attempt retries h tr :
  rpc_get_latest_blockhash w tr = None -> attempt < retries ->
  blockhash_attempts w (S n) attempt retries (1 # 2) h tr
  = after (failed_attempt attempt)
          (blockhash_attempts w n (attempt + 1) retries (1 # 2)) h tr.
Proof.
  intros Hrpc Hlt. apply Z.ltb_lt in Hlt.
  cbn [blockhash_attempts]. unfold_m.
  unfold bind at 1. unfold get_latest_blockhash at 1. rewrite Hrpc, Hlt.
  unfold bind, print, sleep, emit, after, failed_attempt.
  change (Qle_bool 0 (1 # 2)) with true. cbv iota.
  rewrite <- !app_assoc. cbn [app].
  now destruct (blockhash_attempts w n (attempt + 1) retries (1 # 2) h _) as [[[]]].
Qed.

Lemma attempt_fails_last n attempt retries delay h tr :
  rpc_get_latest_blockhash w tr = None -> retries <= attempt ->
  blockhash_attempts w (S n) attempt retries delay h tr
  = (Normal None, h,
     [GetLatestBlockhash None; Printed LogBlockhashError; Printed LogBlockhashGiveUp]).
Proof.
  intros Hrpc Hge. apply Z.ltb_ge in Hge.
  cbn [blockhash_attempts]. unfold_m.
  unfold bind at 1. unfold get_latest_blockhash at 1. now rewrite Hrpc, Hge.
Qed.

(** When the node never answers, the fetch is the five attempts. *)
Lemma fetch_exhausted h tr :
  (forall t, rpc_get_latest_blockhash w t = None) ->
  get_latest_blockhash_with_retry w 5 (1 # 2) h tr = (Normal None, h, exhausted_fetch).
Proof.
  intros Hdown. unfold get_latest_blockhash_with_retry.
  change (Z.to_nat 5) with 5%nat.
  do 4 (rewrite attempt_fails_retry by (auto; lia); unfold after at 1).
  now rewrite attempt_fails_last by (auto; lia).
Qed.

Lemma send_without_blockhash url payload key h tr :
  (forall t, rpc_get_latest_blockhash w t = None) ->
  send_modified_transaction lib w url payload key h tr
  = (Raised BlockhashUnavailable, h, exhausted_fetch).
Proof.
  intros Hdown. unfold send_modified_transaction.
  rewrite (bind_normal _ _ _ _ _ _ _ (fetch_exhausted h tr Hdown)).
  unfold after, raise. now rewrite app_nil_r.
Qed.

Lemma iteration_without_blockhash fuel url key payload rc i h tr :
  (forall t, rpc_get_latest_blockhash w t = None) ->
  iteration_body lib w fuel url key payload rc i h tr
  = (Normal tt, h, aborted_iteration rc i).
Proof.
  intros Hdown. unfold iteration_body.
  rewrite (try_raised _ _ h tr BlockhashUnavailable h
             (Printed (LogIterStart (i + 1) rc) :: exhausted_fetch)); [reflexivity| |reflexivity].
  rewrite print_then. unfold after.
  now rewrite (bind_raised _ _ _ _ _ _ _ (send_without_blockhash url payload key h _ Hdown)).
Qed.

End Blockhash.

Lemma attempts_after_failures w retries k : forall n a h tr bh,
  (forall j, (j < k)%nat ->
     rpc_get_latest_blockhash w (tr ++ flat_map (fun x => failed_attempt (Z.of_nat x)) (seq a j)) = None) ->
  rpc_get_latest_blockhash w (tr ++ flat_map (fun x => failed_attempt (Z.of_nat x)) (seq a k)) = Some bh ->
  Z.of_nat (a + k) <= retries ->
  blockhash_attempts w (k + S n) (Z.of_nat a) retries (1 # 2) h tr
  = (Normal (Some bh), h,
     flat_map (fun x => failed_attempt (Z.of_nat x)) (seq a k) ++ [GetLatestBlockhash (Some bh)]).
Proof.
  induction k as [|k IH]; intros n a h tr bh Hfail Hok Hle.
  - cbn [seq flat_map] in *. rewrite app_nil_r in Hok.
    now apply attempt_succeeds.
  - pose proof (Hfail O ltac:(lia)) as H0. cbn [seq flat_map] in H0.
    rewrite app_nil_r in H0.
    change (S k + S n)%nat with (S (k + S n)).
    rewrite attempt_fails_retry by (auto; lia).
    unfold after. replace (Z.of_nat a + 1) with (Z.of_nat (S a)) by lia.
    rewrite (IH n (S a) h (tr ++ failed_attempt (Z.of_nat a)) bh).
    + cbn [seq flat_map]. now rewrite <- app_assoc.
    + intros j Hj. specialize (Hfail (S j) ltac:(lia)).
      cbn [seq flat_map] in Hfail. now rewrite <- app_assoc.
    + cbn [seq flat_map] in Hok. now rewrite <- app_assoc.
    + lia.
Qed.

(** C4: when the blockhash query never answers, the fetch makes five attempts
    with a wait of 0.5 between them and returns None; [send_modified_transaction]
    then raises BlockhashUnavailable, which ends that repetition only: the
    [for] loop runs every one of its repetitions, each ending at the failed
    fetch.  When the query first answers at attempt K (1 <= K <= 5), the fetch
    returns that blockhash with the answer as its last event. *)
Theorem blockhash_fetch_retries lib w h tr :
  ((forall t, rpc_get_latest_blockhash w t = None) ->
     get_latest_blockhash_with_retry w 5 (1 # 2) h tr = (Normal None, h, exhausted_fetch)
     /\ count is_blockhash_call exhausted_fetch = 5%nat
     /\ filter (fun e => negb (is_blockhash_call e)) exhausted_fetch
        = [Printed LogBlockhashError; Printed (LogBlockhashRetry 1); Sleep (1 # 2);
           Printed LogBlockhashError; Printed (LogBlockhashRetry 2); Sleep (1 # 2);
           Printed LogBlockhashError; Printed (LogBlockhashRetry 3); Sleep (1 # 2);
           Printed LogBlockhashError; Printed (LogBlockhashRetry 4); Sleep (1 # 2);
           Printed LogBlockhashError; Printed LogBlockhashGiveUp]
     /\ (forall url payload key,
           send_modified_transaction lib w url payload key h tr
           = (Raised BlockhashUnavailable, h, exhausted_fetch))
     /\ (forall fuel url key payload rc,
           replay_loop lib w fuel url key payload rc h tr
           = (Normal tt, h, flat_map (aborted_iteration rc) (range rc))))
  /\ (forall K bh, (1 <= K <= 5)%nat ->
        (forall j, (j < K - 1)%nat ->
           rpc_get_latest_blockhash w (tr ++ failed_attempts j) = None) ->
        rpc_get_latest_blockhash w (tr ++ failed_attempts (K - 1)) = Some bh ->
        get_latest_blockhash_with_retry w 5 (1 # 2) h tr
        = (Normal (Some bh), h, failed_attempts (K - 1) ++ [GetLatestBlockhash (Some bh)])).
Proof.
  split.
  - intros Hdown. repeat split.
    + now apply fetch_exhausted.
    + intros. now apply send_without_blockhash.
    + intros. unfold replay_loop. apply for_each_normal.
      intros. now apply iteration_without_blockhash.
  - intros K bh HK Hfail Hok. unfold get_latest_blockhash_with_retry.
    change (Z.to_nat 5) with 5%nat.
    replace 5%nat with (K - 1 + S (5 - K))%nat by lia.
    change 1 with (Z.of_nat 1).
    apply attempts_after_failures; [exact Hfail|exact Hok|lia].
Qed.

(** The node of [Demo.blockhash_down] never answers: five attempts, and a loop
    of two repetitions that both end at the fetch.  The node of
    [Demo.blockhash_third] answers at the third attempt. *)
Lemma blockhash_fetch_retries_witness :
  (get_latest_blockhash_with_retry Demo.blockhash_down 5 (1 # 2) Demo.store_with_key []
   = (Normal None, Demo.store_with_key, exhausted_fetch)
   /\ replay_loop Demo.lib Demo.blockhash_down 1 "u" 1%positive (CStr "two") 2
        Demo.store_with_key []
      = (Normal tt, Demo.store_with_key, aborted_iteration 2 0 ++ aborted_iteration 2 1))
  /\ get_latest_blockhash_with_retry Demo.blockhash_third 5 (1 # 2) Demo.store_with_key []
     = (Normal (Some (mkHash "fresh")), Demo.store_with_key,
        failed_attempts 2 ++ [GetLatestBlockhash (Some (mkHash "fresh"))]).
Proof.
  split; [split|].
  - apply (blockhash_fetch_retries Demo.lib Demo.blockhash_down Demo.store_with_key []).
    reflexivity.
  - rewrite (proj2 (proj2 (proj2 (proj2 (proj1
      (blockhash_fetch_retries Demo.lib Demo.blockhash_down Demo.store_with_key [])
      (fun _ => eq_refl)))))).
    reflexivity.
  - apply (proj2 (blockhash_fetch_retries Demo.lib Demo.blockhash_third Demo.store_with_key [])
             3%nat (mkHash "fresh")).
    + lia.
    + intros j Hj.
      assert (j = 0 \/ j = 1)%nat as [-> | ->] by lia; reflexivity.
    + reflexivity.
Defined.

(** ** The confirmation poll *)

(** What [random.uniform(2, 5)] returns lies in [2, 5], and can be slept. *)
Lemma pause_range w tr :
  (2 <= random_uniform w tr 2 5)%Q /\ (random_uniform w tr 2 5 <= 5)%Q.
Proof. apply random_uniform_range. unfold Qle. cbn. lia. Qed.

Lemma pause_nonneg w tr : Qle_bool 0 (random_uniform w tr 2 5) = true.
Proof.
  apply Qle_bool_iff. destruct (pause_range w tr) as [Hlo _].
  eapply Qle_trans; [|exact Hlo]. unfold Qle. cbn. lia.
Qed.

Section Poll.

Context (w : World).

Lemma check_transaction_status_eq sig h tr :
  check_transaction_status w sig h tr
  = (Normal (confirmed (rpc_get_transaction w tr sig)), h,
     [GetTransaction sig (rpc_get_transaction w tr sig);
      Printed (status_line sig (rpc_get_transaction w tr sig))]).
Proof.
  unfold check_transaction_status. unfold_m. unfold bind at 1.
  unfold get_transaction at 1.
  now destruct (rpc_get_transaction w tr sig).
Qed.

Lemma wait_retries fuel sig h tr r :
  rpc_get_transaction w tr sig = r -> confirmed r = false ->
  wait_for_confirmation w (S fuel) sig h tr
  = after (retry_round sig r) (wait_for_confirmation w fuel sig) h tr.
Proof.
  intros Hr Hc. cbn [wait_for_confirmation].
  rewrite (bind_normal _ _ _ _ _ _ _ (check_transaction_status_eq sig h tr)).
  rewrite Hr, Hc. unfold after at 1. cbv iota.
  rewrite print_then. unfold after at 1.
  rewrite sleep_then by reflexivity. unfold after, retry_round.
  rewrite <- !app_assoc. cbn [app].
  now destruct (wait_for_confirmation w fuel sig h _) as [[r' h'] ev].
Qed.

Lemma wait_confirmed fuel sig h tr :
  rpc_get_transaction w tr sig = MetaOk ->
  wait_for_confirmation w (S fuel) sig h tr
  = (Normal tt, h,
     confirmed_round sig
       (random_uniform w (tr ++ [GetTransaction sig MetaOk; Printed (LogSuccess sig)]) 2 5)).
Proof.
  intros Hr. cbn [wait_for_confirmation].
  rewrite (bind_normal _ _ _ _ _ _ _ (check_transaction_status_eq sig h tr)).
  rewrite Hr. unfold after. cbn [confirmed status_line].
  set (t := tr ++ [GetTransaction sig MetaOk; Printed (LogSuccess sig)]).
  rewrite (bind_normal (uniform w 2 5) _ h t (random_uniform w t 2 5) h
             [RandomUniform 2 5 (random_uniform w t 2 5)] eq_refl).
  unfold after. rewrite print_then. unfold after, sleep.
  now rewrite pause_nonneg.
Qed.

(** While the reply stays the same unconfirmed one, the poll only repeats. *)
Lemma wait_never_confirmed sig r :
  (forall t, rpc_get_transaction w t sig = r) -> confirmed r = false ->
  forall fuel h tr,
    wait_for_confirmation w fuel sig h tr
    = (OutOfFuel, h, concat (repeat (retry_round sig r) fuel)).
Proof.
  intros Hr Hc. induction fuel as [|fuel IH]; intros h tr; [reflexivity|].
  rewrite (wait_retries fuel sig h tr r (Hr tr) Hc). unfold after.
  now rewrite IH.
Qed.

(** The poll never raises, and returns only behind a success reply. *)
Lemma wait_outcome fuel : forall sig h tr,
  exists h' ev,
    (wait_for_confirmation w fuel sig h tr = (OutOfFuel, h', ev)
     \/ (wait_for_confirmation w fuel sig h tr = (Normal tt, h', ev)
         /\ exists pre pause, ev = pre ++ confirmed_round sig pause))
    /\ h' = h /\ iteration_starts ev = [] /\ iteration_errors ev = [].
Proof.
  induction fuel as [|fuel IH]; intros sig h tr.
  - exists h, []. repeat split. now left.
  - destruct (confirmed (rpc_get_transaction w tr sig)) eqn:Hc.
    + assert (rpc_get_transaction w tr sig = MetaOk) as Hr
        by (destruct (rpc_get_transaction w tr sig); (discriminate || reflexivity)).
      rewrite (wait_confirmed fuel sig h tr Hr).
      exists h, (confirmed_round sig
        (random_uniform w (tr ++ [GetTransaction sig MetaOk; Printed (LogSuccess sig)]) 2 5)).
      split; [|split; [|split]; reflexivity].
      right. split; [reflexivity|].
      now exists [], (random_uniform w (tr ++ [GetTransaction sig MetaOk; Printed (LogSuccess sig)]) 2 5).
    + rewrite (wait_retries fuel sig h tr _ eq_refl Hc). unfold after.
      destruct (IH sig h (tr ++ retry_round sig (rpc_get_transaction w tr sig)))
        as (h' & ev & Hrun & -> & Hs & He).
      exists h, (retry_round sig (rpc_get_transaction w tr sig) ++ ev).
      split; [|split; [reflexivity|split]].
      * destruct Hrun as [-> | [-> (pre & pause & ->)]]; [now left|right].
        split; [reflexivity|].
        exists (retry_round sig (rpc_get_transaction w tr sig) ++ pre), pause.
        now rewrite app_assoc.
      * rewrite iteration_starts_app, Hs.
        now destruct (rpc_get_transaction w tr sig).
      * rewrite iteration_errors_app, He.
        now destruct (rpc_get_transaction w tr sig).
Qed.

End Poll.

(** C6: on the replies not found, not found, success, the polling loop waits
    5 twice, the third [check_transaction_status] returns True, and the loop
    then calls [random.uniform(2, 5)] once, and prints and sleeps the value
    that call returns, a value between 2 and 5, both ends included; then it
    returns. *)
Theorem poll_confirms_at_third_query w sig h tr fuel :
  (3 <= fuel)%nat ->
  rpc_get_transaction w tr sig = ValueNone ->
  rpc_get_transaction w (tr ++ retry_round sig ValueNone) sig = ValueNone ->
  rpc_get_transaction w (tr ++ retry_round sig ValueNone ++ retry_round sig ValueNone) sig
  = MetaOk ->
  let third := tr ++ retry_round sig ValueNone ++ retry_round sig ValueNone in
  let answered := third ++ [GetTransaction sig MetaOk; Printed (LogSuccess sig)] in
  let pause := random_uniform w answered 2 5 in
  let ev := retry_round sig ValueNone ++ retry_round sig ValueNone ++ confirmed_round sig pause in
  wait_for_confirmation w fuel sig h tr = (Normal tt, h, ev)
  /\ check_transaction_status w sig h third
     = (Normal true, h, [GetTransaction sig MetaOk; Printed (LogSuccess sig)])
  /\ count is_status_query ev = 3%nat
  /\ filter is_sleep ev = [Sleep 5; Sleep 5; Sleep pause]
  /\ uniform w 2 5 h answered = (Normal pause, h, [RandomUniform 2 5 pause])
  /\ filter is_uniform_call ev = [RandomUniform 2 5 pause]
  /\ (2 <= pause)%Q /\ (pause <= 5)%Q.
Proof.
  intros Hfuel H1 H2 H3 third answered pause ev.
  destruct fuel as [|[|[|fuel]]]; try lia.
  split_all.
  - rewrite (wait_retries w _ sig h tr _ H1 eq_refl). unfold after.
    rewrite (wait_retries w _ sig h _ _ H2 eq_refl). unfold after.
    rewrite <- app_assoc.
    rewrite (wait_confirmed w _ sig h _ H3).
    subst ev pause answered third. now rewrite <- app_assoc.
  - rewrite check_transaction_status_eq. subst third. now rewrite H3.
  - reflexivity.
  - reflexivity.
  - reflexivity.
  - reflexivity.
  - apply pause_range.
  - apply pause_range.
Qed.

(** On [Demo.found_third] the replies are exactly: not found, not found,
    success; [random.uniform(2, 5)] answers 3.5. *)
Lemma poll_confirms_at_third_query_witness :
  wait_for_confirmation Demo.found_third 3 Demo.sig_a Demo.store_with_key []
  = (Normal tt, Demo.store_with_key,
     retry_round Demo.sig_a ValueNone ++ retry_round Demo.sig_a ValueNone
     ++ confirmed_round Demo.sig_a (7 # 2))
  /\ (2 <= 7 # 2)%Q /\ (7 # 2 <= 5)%Q.
Proof.
  pose proof (poll_confirms_at_third_query Demo.found_third Demo.sig_a
                Demo.store_with_key [] 3 (le_n 3) eq_refl eq_refl eq_refl) as H.
  cbv zeta in H. destruct H as (Hrun & _ & _ & _ & _ & _ & Hlo & Hhi).
  split; [exact Hrun|]. split; [exact Hlo|exact Hhi].
Defined.

(** ** One repetition *)

Section Iteration.

Context (lib : Lib) (w : World).

Lemma iteration_body_raised fuel url key payload rc i h tr e h1 ev1 :
  send_modified_transaction lib w url payload key h
    (tr ++ [Printed (LogIterStart (i + 1) rc)]) = (Raised e, h1, ev1) ->
  is_Exception e = true ->
  iteration_body lib w fuel url key payload rc i h tr
  = (Normal tt, h1,
     Printed (LogIterStart (i + 1) rc) :: ev1 ++ [Printed (LogIterError (i + 1) rc e)]).
Proof.
  intros Hsend He. unfold iteration_body.
  rewrite (try_raised _ _ h tr e h1 (Printed (LogIterStart (i + 1) rc) :: ev1));
    [reflexivity| |exact He].
  rewrite print_then. unfold after.
  now rewrite (bind_raised _ _ _ _ _ _ _ Hsend).
Qed.

Lemma iteration_body_sent fuel url key payload rc i h tr sig h1 ev1 :
  send_modified_transaction lib w url payload key h
    (tr ++ [Printed (LogIterStart (i + 1) rc)]) = (Normal sig, h1, ev1) ->
  iteration_body lib w fuel url key payload rc i h tr
  = after (Printed (LogIterStart (i + 1) rc) :: ev1 ++ [Printed (LogIterSignature (i + 1) rc sig)])
          (wait_for_confirmation w fuel sig) h1 tr.
Proof.
  intros Hsend. unfold iteration_body, after.
  destruct (wait_outcome w fuel sig h1
              (tr ++ Printed (LogIterStart (i + 1) rc) :: ev1
                  ++ [Printed (LogIterSignature (i + 1) rc sig)]))
    as (h' & ev & Hrun & _).
  assert (forall r, wait_for_confirmation w fuel sig h1
              (tr ++ Printed (LogIterStart (i + 1) rc) :: ev1
                  ++ [Printed (LogIterSignature (i + 1) rc sig)]) = (r, h', ev) ->
            (print (LogIterStart (i + 1) rc);;
             tx_signature ← send_modified_transaction lib w url payload key;
             print (LogIterSignature (i + 1) rc tx_signature);;
             wait_for_confirmation w fuel tx_signature) h tr
            = (r, h', Printed (LogIterStart (i + 1) rc) :: ev1
                      ++ [Printed (LogIterSignature (i + 1) rc sig)] ++ ev)) as Hinner.
  { intros r Hr. rewrite print_then. unfold after.
    rewrite (bind_normal _ _ _ _ _ _ _ Hsend). unfold after.
    rewrite print_then. unfold after.
    rewrite <- ?app_assoc. cbn [app]. rewrite <- ?app_assoc in Hr. cbn [app] in Hr.
    rewrite Hr. cbn [app]. now rewrite <- ?app_assoc. }
  destruct Hrun as [Hrun | [Hrun _]]; rewrite Hrun.
  - rewrite (try_out_of_fuel _ _ _ _ _ _ (Hinner _ Hrun)).
    cbn [app]. now rewrite <- ?app_assoc.
  - rewrite (try_normal _ _ _ _ _ _ _ (Hinner _ Hrun)).
    cbn [app]. now rewrite <- ?app_assoc.
Qed.

End Iteration.

Lemma retry_rounds_views sig r n :
  iteration_starts (concat (repeat (retry_round sig r) n)) = []
  /\ count is_submission (concat (repeat (retry_round sig r) n)) = 0%nat
  /\ count is_status_query (concat (repeat (retry_round sig r) n)) = n.
Proof.
  induction n as [|n (IH1 & IH2 & IH3)]; [now repeat split|].
  cbn [repeat concat]. rewrite iteration_starts_app, !count_app, IH1, IH2, IH3.
  repeat split. now destruct r.
Qed.

(** C1, as the code has it: on a reply whose metadata carries an error,
    [check_transaction_status] logs it and returns False after that one query;
    the polling loop of [process_wallet] takes this False like any other, waits
    5 and queries the same submission again.  The loop returns only behind a
    success reply, so while the status stays failed it never returns. *)
Theorem failed_status_is_polled_again w sig detail h tr :
  rpc_get_transaction w tr sig = MetaErr detail ->
  check_transaction_status w sig h tr
  = (Normal false, h, [GetTransaction sig (MetaErr detail); Printed (LogFailed sig detail)])
  /\ (forall fuel,
        wait_for_confirmation w (S fuel) sig h tr
        = after (retry_round sig (MetaErr detail)) (wait_for_confirmation w fuel sig) h tr)
  /\ (forall fuel h' ev,
        wait_for_confirmation w fuel sig h tr = (Normal tt, h', ev) ->
        exists pre pause, ev = pre ++ confirmed_round sig pause)
  /\ ((forall t, rpc_get_transaction w t sig = MetaErr detail) ->
      forall fuel,
        wait_for_confirmation w fuel sig h tr
        = (OutOfFuel, h, concat (repeat (retry_round sig (MetaErr detail)) fuel))).
Proof.
  intros Hr. split; [|split; [|split]].
  - rewrite check_transaction_status_eq. now rewrite Hr.
  - intros fuel. now apply wait_retries.
  - intros fuel h' ev Hrun.
    destruct (wait_outcome w fuel sig h tr) as (h2 & ev2 & [Hout | [Hok Hend]] & _).
    + rewrite Hrun in Hout. discriminate.
    + rewrite Hrun in Hok. now inversion Hok; subst.
  - intros Hall fuel. now apply wait_never_confirmed.
Qed.

(** On [Demo.always_failed] the first reply already carries an error. *)
Lemma failed_status_is_polled_again_witness :
  check_transaction_status Demo.always_failed Demo.sig_a Demo.store_with_key []
  = (Normal false, Demo.store_with_key,
     [GetTransaction Demo.sig_a (MetaErr "InstructionError");
      Printed (LogFailed Demo.sig_a "InstructionError")])
  /\ wait_for_confirmation Demo.always_failed 2 Demo.sig_a Demo.store_with_key []
     = (OutOfFuel, Demo.store_with_key,
        retry_round Demo.sig_a (MetaErr "InstructionError")
        ++ retry_round Demo.sig_a (MetaErr "InstructionError")).
Proof.
  destruct (failed_status_is_polled_again Demo.always_failed Demo.sig_a
              "InstructionError" Demo.store_with_key [] eq_refl)
    as (Hcheck & _ & _ & Hloop).
  split; [exact Hcheck|].
  rewrite (Hloop (fun _ => eq_refl) 2%nat). reflexivity.
Defined.

(** C1 as stated fails: with two repetitions asked and every status reply
    carrying an error, [check_transaction_status] does return False at once,
    but [process_wallet] keeps polling the first submission; whatever the
    number of queries allowed, it makes them all, submits once, and never
    starts repetition 2. *)
Lemma failed_status_counterexample :
  check_transaction_status Demo.always_failed Demo.sig_a Demo.store_with_key []
  = (Normal false, Demo.store_with_key,
     [GetTransaction Demo.sig_a (MetaErr "InstructionError");
      Printed (LogFailed Demo.sig_a "InstructionError")])
  /\ forall fuel, exists h' ev,
       process_wallet Demo.lib Demo.always_failed fuel "u" 1%positive (CStr "two") 2
         Demo.store_with_key [] = (OutOfFuel, h', ev)
       /\ ev = Demo.first_submission
               ++ concat (repeat (retry_round Demo.sig_a (MetaErr "InstructionError")) fuel)
       /\ count is_status_query ev = fuel
       /\ count is_submission ev = 1%nat
       /\ iteration_starts ev = [1].
Proof.
  split; [reflexivity|]. intros fuel.
  pose (rounds := concat (repeat (retry_round Demo.sig_a (MetaErr "InstructionError")) fuel)).
  destruct (retry_rounds_views Demo.sig_a (MetaErr "InstructionError") fuel)
    as (Hs & Hsub & Hq).
  eexists _, (Demo.first_submission ++ rounds).
  split; [|split; [reflexivity|split; [|split]]].
  - unfold process_wallet.
    rewrite (bind_normal _ _ Demo.store_with_key [] (map Item Demo.key_bytes)
               Demo.store_with_key [] eq_refl).
    rewrite after_nil.
    rewrite (bind_normal _ _ Demo.store_with_key [] Demo.key_bytes Demo.store_with_key []
               eq_refl).
    rewrite after_nil.
    rewrite (bind_normal _ _ Demo.store_with_key [] (mkKeypair Demo.key_bytes)
               Demo.store_with_key [] eq_refl).
    rewrite after_nil, print_then. unfold after at 1.
    unfold replay_loop.
    change (range 2) with [0; 1]. cbn [for_each].
    erewrite bind_out_of_fuel; [reflexivity|].
    erewrite iteration_body_sent by (vm_compute; reflexivity).
    unfold after.
    rewrite (wait_never_confirmed Demo.always_failed Demo.sig_a
               (MetaErr "InstructionError") (fun _ => eq_refl) eq_refl).
    reflexivity.
  - unfold rounds. rewrite count_app, Hq. reflexivity.
  - unfold rounds. rewrite count_app, Hsub. reflexivity.
  - unfold rounds. rewrite iteration_starts_app, Hs. reflexivity.
Qed.

(** ** Loading the dataset *)

Section Dataset.

Context (lib : Lib) (w : World).

(** One row either stops the load or adds one task. *)
Lemma read_rows_step row rest data h tr :
  (row_loads lib row = false
   /\ exists e h', read_rows lib (row :: rest) data h tr = (Raised e, h', [])
                   /\ is_Exception e = true)
  \/ (row_loads lib row = true
      /\ exists t h', read_rows lib (row :: rest) data h tr
                      = read_rows lib rest (data ++ [t]) h' tr).
Proof.
  unfold row_loads. cbn [read_rows]. unfold row_get.
  destruct (row !! "private_key") as [[s| | | |]|];
    try (left; split; [repeat case_match; reflexivity|eexists _, _; split; reflexivity]).
  cbv beta iota zeta delta [mbind M_bind mret M_ret bind ret raise alloc py_literal_eval py_int].
  destruct (literal_eval lib s) as [xs|];
    [|left; split; [repeat case_match; reflexivity|eexists _, _; split; reflexivity]].
  destruct (row !! "data") as [d|];
    [|left; split; [repeat case_match; reflexivity|eexists _, _; split; reflexivity]].
  destruct (row !! "repeat_count") as [[t|z|q|b|]|];
    try (left; split; [repeat case_match; reflexivity|eexists _, _; split; reflexivity]);
    [destruct (int_of_str lib t) as [z|];
       [|left; split; [repeat case_match; reflexivity|eexists _, _; split; reflexivity]]| |];
    (right; split; [reflexivity|]; eexists _, _;
     rewrite ?app_nil_r;
     match goal with
     | |- context [read_rows lib rest ?d ?h' tr] =>
         destruct (read_rows lib rest d h' tr) as [[r h2] e2] eqn:Hrun
     end;
     cbn [app]; symmetry; exact Hrun).
Qed.

Lemma read_rows_malformed rows : forall data h tr,
  Exists (fun row => row_loads lib row = false) rows ->
  exists e h', read_rows lib rows data h tr = (Raised e, h', [])
               /\ is_Exception e = true.
Proof.
  induction rows as [|row rest IH]; intros data h tr Hbad.
  - inversion Hbad.
  - destruct (read_rows_step row rest data h tr)
      as [[_ Hstop] | [Hok (t & h' & Hnext)]]; [exact Hstop|].
    rewrite Hnext. apply IH.
    inversion Hbad as [? ? Hrow | ? ? Htail]; subst; [congruence|exact Htail].
Qed.

End Dataset.

(** C7, as the code has it: when one row of the file is one the loader cannot
    convert (a column is missing, private_key is not a literal
    [ast.literal_eval] accepts, or repeat_count is not accepted by [int]),
    [read_data_from_csv] raises the load error and returns no list, and the
    main flow prints it and exits with status 1 having made no RPC call and
    submitted no job. *)
Theorem malformed_row_aborts_load lib w h tr rows :
  fs_read_csv w tr csv_file = Some rows ->
  Exists (fun row => row_loads lib row = false) rows ->
  exists e h',
    read_data_from_csv lib w csv_file h tr
    = (Raised (DatasetLoadError e), h', [ReadCsv csv_file])
    /\ main_submit lib w h tr
       = (Raised (SystemExit 1), h',
          [ReadCsv csv_file; Printed (LogCsvError (DatasetLoadError e))])
    /\ count is_rpc [ReadCsv csv_file; Printed (LogCsvError (DatasetLoadError e))] = 0%nat
    /\ 1 <> 0.
Proof.
  intros Hcsv Hbad.
  destruct (read_rows_malformed lib rows [] h (tr ++ [ReadCsv csv_file]) Hbad)
    as (e & h' & Hrows & He).
  assert (read_data_from_csv lib w csv_file h tr
          = (Raised (DatasetLoadError e), h', [ReadCsv csv_file])) as Hload.
  { unfold read_data_from_csv.
    rewrite (try_raised _ _ h tr e h' [ReadCsv csv_file]); [reflexivity| |exact He].
    unfold_m. unfold bind at 1. unfold read_csv at 1. rewrite Hcsv.
    now rewrite Hrows. }
  exists e, h'. split; [exact Hload|]. split; [|split; [reflexivity|lia]].
  unfold main_submit.
  erewrite bind_raised; [reflexivity|].
  now rewrite (try_raised _ _ h tr _ h' [ReadCsv csv_file] Hload eq_refl).
Qed.

(** The dataset of [Demo.with_csv [good_row; bad_row]]: the second row has a
    repeat_count that is not a number. *)
Lemma malformed_row_aborts_load_witness :
  row_loads Demo.lib Demo.bad_row = false
  /\ exists e h',
       read_data_from_csv Demo.lib (Demo.with_csv [Demo.good_row; Demo.bad_row]) csv_file
         Demo.store_with_key []
       = (Raised (DatasetLoadError e), h', [ReadCsv csv_file])
       /\ main_submit Demo.lib (Demo.with_csv [Demo.good_row; Demo.bad_row])
            Demo.store_with_key []
          = (Raised (SystemExit 1), h',
             [ReadCsv csv_file; Printed (LogCsvError (DatasetLoadError e))]).
Proof.
  split; [reflexivity|].
  destruct (malformed_row_aborts_load Demo.lib
              (Demo.with_csv [Demo.good_row; Demo.bad_row]) Demo.store_with_key []
              [Demo.good_row; Demo.bad_row] eq_refl
              (Exists_cons_tl Demo.good_row
                 (Exists_cons_hd (fun row => row_loads Demo.lib row = false)
                    Demo.bad_row [] (eq_refl false))))
    as (e & h' & Hload & Hmain & _).
  exists e, h'. split; [exact Hload|exact Hmain].
Defined.

(** C7 as stated fails: the rows of [Demo.unfit_rows] are malformed (a payload
    that is no base64 text, a repeat count of zero, a key of three bytes, an
    empty payload cell, a negative and a fractional repeat count), and they
    load: the loader returns one task for each, and the main flow hands one
    job for each to the pool. *)
Lemma unfit_rows_load_counterexample :
  b64decode Demo.lib "not base64!" = None
  /\ keypair_from_bytes Demo.lib Demo.short_key_bytes = None
  /\ exists h' jobs,
       read_data_from_csv Demo.lib (Demo.with_csv Demo.unfit_rows) csv_file
         Demo.store_with_key []
       = (Normal [mkTask 2%positive (CStr "not base64!") 0;
                  mkTask 3%positive CNaN (-1);
                  mkTask 4%positive (CStr "two") 2], h', [ReadCsv csv_file])
       /\ h' !! 3%positive = Some (map Item Demo.short_key_bytes)
       /\ main_submit Demo.lib (Demo.with_csv Demo.unfit_rows) Demo.store_with_key []
          = (Normal jobs, h', [ReadCsv csv_file])
       /\ map j_repeat_count jobs = [0; -1; 2]
       /\ map j_data jobs = [CStr "not base64!"; CNaN; CStr "two"].
Proof.
  split; [reflexivity|]. split; [reflexivity|].
  eexists _, _. split_all; try reflexivity; vm_compute; reflexivity.
Qed.

(** C10: with a repeat count of zero or less the [for] loop has no iteration:
    it returns normally, emits nothing and leaves the store as it is; with a
    signing key [Keypair.from_bytes] accepts, [process_wallet] as a whole
    prints its opening line and returns normally. *)
Theorem replay_loop_nonpositive_count lib w fuel url key payload rc h tr :
  rc <= 0 ->
  replay_loop lib w fuel url key payload rc h tr = (Normal tt, h, [])
  /\ (forall ks kp,
        h !! key = Some (map Item ks) -> forallb is_u8 ks = true ->
        keypair_from_bytes lib ks = Some kp ->
        process_wallet lib w fuel url key payload rc h tr
        = (Normal tt, h, [Printed (LogWalletStart (pubkey lib kp) rc)])).
Proof.
  intros Hrc.
  assert (forall h tr, replay_loop lib w fuel url key payload rc h tr = (Normal tt, h, []))
    as Hloop by (intros; unfold replay_loop; now rewrite range_nonpos).
  split; [apply Hloop|].
  intros ks kp Hkey Hu8 Hkp. unfold process_wallet.
  rewrite (bind_normal _ _ h tr (map Item ks) h []) by (unfold load; now rewrite Hkey).
  rewrite after_nil.
  rewrite (bind_normal _ _ h tr ks h []) by (now rewrite py_bytes_items, Hu8).
  rewrite after_nil.
  rewrite (bind_normal _ _ h tr kp h []) by now rewrite Hkp.
  rewrite after_nil, print_then. unfold after. now rewrite Hloop.
Qed.

(** A repeat count of -2 on [Demo.healthy]. *)
Lemma replay_loop_nonpositive_count_witness :
  -2 <= 0
  /\ replay_loop Demo.lib Demo.healthy 3 "u" 1%positive (CStr "two") (-2)
       Demo.store_with_key []
     = (Normal tt, Demo.store_with_key, [])
  /\ process_wallet Demo.lib Demo.healthy 3 "u" 1%positive (CStr "two") (-2)
       Demo.store_with_key []
     = (Normal tt, Demo.store_with_key, [Printed (LogWalletStart "wallet" (-2))]).
Proof.
  assert (-2 <= 0) as Hle by lia.
  destruct (replay_loop_nonpositive_count Demo.lib Demo.healthy 3 "u" 1%positive
              (CStr "two") (-2) Demo.store_with_key [] Hle) as [Hloop Hwallet].
  split; [exact Hle|]. split; [exact Hloop|].
  exact (Hwallet Demo.key_bytes (mkKeypair Demo.key_bytes) eq_refl eq_refl eq_refl).
Defined.

(** ** Tame computations *)

Lemma quiet_app ev1 ev2 : quiet ev1 -> quiet ev2 -> quiet (ev1 ++ ev2).
Proof.
  intros [Hs1 He1] [Hs2 He2]. split.
  - now rewrite iteration_starts_app, Hs1, Hs2.
  - now rewrite iteration_errors_app, He1, He2.
Qed.

Lemma tame_ret {A} (a : A) : tame (mret a).
Proof. intros h tr. cbn. repeat split; [discriminate|discriminate]. Qed.

Lemma tame_raise {A} e : is_Exception e = true -> tame (@raise A e).
Proof.
  intros He h tr. cbn. repeat split; [discriminate|].
  intros e' [= <-]. exact He.
Qed.

Lemma tame_bind {A B} (m : M A) (f : A -> M B) :
  tame m -> (forall a, tame (f a)) -> tame (m ≫= f).
Proof.
  intros Hm Hf h tr. unfold_m. unfold bind. specialize (Hm h tr).
  destruct (m h tr) as [[[a|e|] h1] e1].
  - specialize (Hf a h1 (tr ++ e1)).
    destruct (f a h1 (tr ++ e1)) as [[r h2] e2].
    destruct Hm as (Hq1 & _), Hf as (Hq2 & Hf).
    split; [now apply quiet_app|exact Hf].
  - destruct Hm as (Hq & _ & He). split; [exact Hq|]. split; [discriminate|].
    intros e' [= <-]. now apply He.
  - now destruct Hm as (_ & Hfuel & _).
Qed.

Lemma tame_try {A} (m : M A) handler :
  tame m -> (forall e, tame (handler e)) -> tame (try_except m handler).
Proof.
  intros Hm Hh h tr. unfold try_except. specialize (Hm h tr).
  destruct (m h tr) as [[[a|e|] h1] e1]; [exact Hm| |exact Hm].
  destruct (is_Exception e); [|exact Hm].
  specialize (Hh e h1 (tr ++ e1)).
  destruct (handler e h1 (tr ++ e1)) as [[r h2] e2].
  destruct Hm as (Hq1 & _), Hh as (Hq2 & Hh).
  split; [now apply quiet_app|exact Hh].
Qed.

Lemma tame_emit e : quiet [e] -> tame (emit e).
Proof. intros Hq h tr. cbn. split; [exact Hq|]. split; discriminate. Qed.

Lemma tame_lift {A} origin (o : option A) : tame (lift origin o).
Proof. destruct o; [apply tame_ret|now apply tame_raise]. Qed.

Lemma tame_alloc xs : tame (alloc xs).
Proof. intros h tr. cbn. repeat split; discriminate. Qed.

Lemma tame_load l : tame (load l).
Proof.
  intros h tr. unfold load. destruct (h !! l); cbn; repeat split; try discriminate.
  now intros e [= <-].
Qed.

Lemma tame_store l xs : tame (store l xs).
Proof. intros h tr. cbn. repeat split; discriminate. Qed.

Lemma tame_get_latest_blockhash w : tame (get_latest_blockhash w).
Proof. intros h tr. cbn. repeat split; discriminate. Qed.

Lemma tame_send_raw_transaction w raw : tame (send_raw_transaction w raw).
Proof.
  intros h tr. unfold send_raw_transaction.
  destruct (rpc_send_raw_transaction w tr raw); cbn; repeat split; try discriminate.
  now intros e [= <-].
Qed.

Lemma tame_randint w a b : tame (randint w a b).
Proof.
  intros h tr. unfold randint. destruct (a <=? b); cbn; repeat split; try discriminate.
  now intros e [= <-].
Qed.

Lemma tame_uniform w a b : tame (uniform w a b).
Proof. intros h tr. cbn. repeat split; discriminate. Qed.

Lemma tame_py_bytes xs : tame (py_bytes xs).
Proof.
  induction xs as [|[n|x] xs IH]; cbn [py_bytes].
  - apply tame_ret.
  - now apply tame_raise.
  - destruct (is_u8 x); [|now apply tame_raise].
    apply tame_bind; [exact IH|intros bs; apply tame_ret].
Qed.

Create HintDb tame.

#[local] Hint Resolve tame_ret tame_lift tame_alloc tame_load tame_store
  tame_get_latest_blockhash tame_send_raw_transaction tame_randint tame_uniform
  tame_py_bytes : tame.

Ltac tame_step :=
  first
    [ apply tame_bind; [|intros ?]
    | apply tame_try; [|intros ?]
    | apply tame_raise; reflexivity
    | apply tame_emit; split; reflexivity
    | solve [auto with tame]
    | match goal with
      | |- tame (match ?x with _ => _ end) => destruct x
      | |- tame (if ?b then _ else _) => destruct b
      end ].

Lemma tame_blockhash_attempts w n : forall attempt retries delay,
  tame (blockhash_attempts w n attempt retries delay).
Proof.
  induction n as [|n IH]; intros attempt retries delay; cbn [blockhash_attempts].
  - apply tame_ret.
  - unfold print, sleep. repeat tame_step.
Qed.

Lemma tame_loads_instructions ins : tame (loads_instructions ins).
Proof.
  induction ins as [|i ins IH]; cbn [loads_instructions]; repeat tame_step.
Qed.

Lemma tame_dumps_instructions os : tame (dumps_instructions os).
Proof.
  induction os as [|o os IH]; cbn [dumps_instructions]; repeat tame_step.
Qed.

#[local] Hint Resolve tame_blockhash_attempts tame_loads_instructions
  tame_dumps_instructions : tame.

Lemma tame_send_modified_transaction lib w url payload key :
  tame (send_modified_transaction lib w url payload key).
Proof.
  unfold send_modified_transaction, get_latest_blockhash_with_retry,
    decode_transaction, decode_template, py_b64decode, json_loads,
    modify_transaction, mutate, getitem, getitem_data, setitem_last, json_dumps,
    from_json, print.
  repeat tame_step.
Qed.

(** ** The replay loop *)

Section Replay.

Context (lib : Lib) (w : World) (fuel : nat).

(** Every poll ends within [fuel] queries. *)
Hypothesis polls_end :
  forall sig h tr, fst (fst (wait_for_confirmation w fuel sig h tr)) <> OutOfFuel.

(** A repetition always completes; it announces itself once, and logs at most
    one error, its own. *)
Lemma iteration_body_done url key payload rc i h tr :
  exists h' ev,
    iteration_body lib w fuel url key payload rc i h tr
    = (Normal tt, h', Printed (LogIterStart (i + 1) rc) :: ev)
    /\ iteration_starts ev = []
    /\ (iteration_errors ev = [] \/ exists e, iteration_errors ev = [(i + 1, e)]).
Proof.
  pose proof (tame_send_modified_transaction lib w url payload key h
                (tr ++ [Printed (LogIterStart (i + 1) rc)])) as Htame.
  destruct (send_modified_transaction lib w url payload key h
              (tr ++ [Printed (LogIterStart (i + 1) rc)]))
    as [[[sig|e|] h1] ev1] eqn:Hsend; destruct Htame as ([Hs He] & Hfuel & Hexc).
  - rewrite (iteration_body_sent lib w fuel url key payload rc i h tr sig h1 ev1 Hsend).
    unfold after.
    pose proof (polls_end sig h1
                  (tr ++ Printed (LogIterStart (i + 1) rc) :: ev1
                      ++ [Printed (LogIterSignature (i + 1) rc sig)])) as Hend.
    destruct (wait_outcome w fuel sig h1
                (tr ++ Printed (LogIterStart (i + 1) rc) :: ev1
                    ++ [Printed (LogIterSignature (i + 1) rc sig)]))
      as (h2 & ev2 & [Hout | [Hok _]] & _ & Hs2 & He2).
    + rewrite Hout in Hend. now contradiction Hend.
    + rewrite Hok. exists h2, (ev1 ++ [Printed (LogIterSignature (i + 1) rc sig)] ++ ev2).
      split; [cbn [app]; now rewrite <- app_assoc|]. split.
      * now rewrite !iteration_starts_app, Hs, Hs2.
      * left. now rewrite !iteration_errors_app, He, He2.
  - rewrite (iteration_body_raised lib w fuel url key payload rc i h tr e h1 ev1 Hsend
               (Hexc e eq_refl)).
    exists h1, (ev1 ++ [Printed (LogIterError (i + 1) rc e)]).
    split; [reflexivity|]. split.
    + now rewrite iteration_starts_app, Hs.
    + right. exists e. now rewrite iteration_errors_app, He.
  - now contradiction Hfuel.
Qed.

Lemma for_each_iterations url key payload rc xs : forall h tr,
  exists h' ev,
    for_each xs (iteration_body lib w fuel url key payload rc) h tr = (Normal tt, h', ev)
    /\ iteration_starts ev = map (fun i => i + 1) xs
    /\ sublist (map fst (iteration_errors ev)) (iteration_starts ev).
Proof.
  induction xs as [|i xs IH]; intros h tr.
  - exists h, []. repeat split. constructor.
  - destruct (iteration_body_done url key payload rc i h tr)
      as (h1 & ev1 & Hbody & Hs1 & He1).
    destruct (IH h1 (tr ++ Printed (LogIterStart (i + 1) rc) :: ev1))
      as (h2 & ev2 & Hrest & Hs2 & He2).
    exists h2, ((Printed (LogIterStart (i + 1) rc) :: ev1) ++ ev2).
    assert (iteration_starts ((Printed (LogIterStart (i + 1) rc) :: ev1) ++ ev2)
            = (i + 1) :: map (fun i => i + 1) xs) as Hstarts.
    { rewrite iteration_starts_app. cbn [iteration_starts]. now rewrite Hs1, Hs2. }
    split; [|split; [exact Hstarts|]].
    + cbn [for_each]. rewrite (bind_normal _ _ _ _ _ _ _ Hbody).
      unfold after. now rewrite Hrest.
    + rewrite Hstarts, iteration_errors_app, map_app. cbn [iteration_errors].
      rewrite Hs2 in He2.
      destruct He1 as [-> | [e ->]]; cbn [map fst app].
      * now apply sublist_cons.
      * now apply sublist_skip.
Qed.

End Replay.

(** Without any assumption on the polls: a repetition completes or is stuck
    in its poll, and never raises. *)
Lemma iteration_body_outcome lib w fuel url key payload rc i h tr :
  exists r h' ev,
    iteration_body lib w fuel url key payload rc i h tr
    = (r, h', Printed (LogIterStart (i + 1) rc) :: ev)
    /\ (r = Normal tt \/ r = OutOfFuel)
    /\ iteration_starts ev = []
    /\ (iteration_errors ev = [] \/ exists e, iteration_errors ev = [(i + 1, e)]).
Proof.
  pose proof (tame_send_modified_transaction lib w url payload key h
                (tr ++ [Printed (LogIterStart (i + 1) rc)])) as Htame.
  destruct (send_modified_transaction lib w url payload key h
              (tr ++ [Printed (LogIterStart (i + 1) rc)]))
    as [[[sig|e|] h1] ev1] eqn:Hsend; destruct Htame as ([Hs He] & Hfuel & Hexc).
  - rewrite (iteration_body_sent lib w fuel url key payload rc i h tr sig h1 ev1 Hsend).
    unfold after.
    destruct (wait_outcome w fuel sig h1
                (tr ++ Printed (LogIterStart (i + 1) rc) :: ev1
                    ++ [Printed (LogIterSignature (i + 1) rc sig)]))
      as (h2 & ev2 & Hrun & _ & Hs2 & He2).
    assert (iteration_starts (ev1 ++ [Printed (LogIterSignature (i + 1) rc sig)] ++ ev2) = []
            /\ iteration_errors (ev1 ++ [Printed (LogIterSignature (i + 1) rc sig)] ++ ev2) = [])
      as [Hs3 He3].
    { now rewrite !iteration_starts_app, !iteration_errors_app, Hs, Hs2, He, He2. }
    destruct Hrun as [Hout | [Hok _]]; [rewrite Hout|rewrite Hok];
      eexists _, h2, (ev1 ++ [Printed (LogIterSignature (i + 1) rc sig)] ++ ev2);
      (split; [cbn [app]; now rewrite <- app_assoc|]); auto.
  - rewrite (iteration_body_raised lib w fuel url key payload rc i h tr e h1 ev1 Hsend
               (Hexc e eq_refl)).
    exists (Normal tt), h1, (ev1 ++ [Printed (LogIterError (i + 1) rc e)]).
    split; [reflexivity|]. split; [now left|]. split.
    + now rewrite iteration_starts_app, Hs.
    + right. exists e. now rewrite iteration_errors_app, He.
  - now contradiction Hfuel.
Qed.

Lemma for_each_iterations_any lib w fuel url key payload rc xs : forall h tr,
  exists r h' ev n,
    for_each xs (iteration_body lib w fuel url key payload rc) h tr = (r, h', ev)
    /\ iteration_starts ev = take n (map (fun i => i + 1) xs)
    /\ ((r = Normal tt /\ n = length xs) \/ (r = OutOfFuel /\ (1 <= n <= length xs)%nat))
    /\ sublist (map fst (iteration_errors ev)) (iteration_starts ev).
Proof.
  induction xs as [|i xs IH]; intros h tr.
  - exists (Normal tt), h, [], O. repeat split; [now left|constructor].
  - destruct (iteration_body_outcome lib w fuel url key payload rc i h tr)
      as (r1 & h1 & ev1 & Hbody & Hr1 & Hs1 & He1).
    destruct Hr1 as [-> | ->].
    + destruct (IH h1 (tr ++ Printed (LogIterStart (i + 1) rc) :: ev1))
        as (r & h2 & ev2 & n & Hrest & Hs2 & Hr & He2).
      exists r, h2, ((Printed (LogIterStart (i + 1) rc) :: ev1) ++ ev2), (S n).
      assert (iteration_starts ((Printed (LogIterStart (i + 1) rc) :: ev1) ++ ev2)
              = (i + 1) :: take n (map (fun i => i + 1) xs)) as Hstarts.
      { rewrite iteration_starts_app. cbn [iteration_starts]. now rewrite Hs1, Hs2. }
      split; [|split; [exact Hstarts|split]].
      * cbn [for_each]. rewrite (bind_normal _ _ _ _ _ _ _ Hbody).
        unfold after. now rewrite Hrest.
      * destruct Hr as [[-> ->] | [-> Hn]]; [now left|right]. cbn [length]. split; [reflexivity|lia].
      * rewrite Hstarts, iteration_errors_app, map_app. cbn [iteration_errors].
        rewrite Hs2 in He2.
        destruct He1 as [-> | [e ->]]; cbn [map fst app].
        -- now apply sublist_cons.
        -- now apply sublist_skip.
    + exists OutOfFuel, h1, (Printed (LogIterStart (i + 1) rc) :: ev1), 1%nat.
      split; [|split; [|split]].
      * cbn [for_each]. now rewrite (bind_out_of_fuel _ _ _ _ _ _ Hbody).
      * cbn [iteration_starts map take]. now rewrite Hs1, take_0.
      * right. cbn [length]. split; [reflexivity|lia].
      * cbn [iteration_starts iteration_errors]. rewrite Hs1.
        destruct He1 as [-> | [e ->]]; cbn [map fst].
        -- apply sublist_cons. constructor.
        -- apply sublist_skip. constructor.
Qed.

(** C3, as the code has it: the [for] loop announces its repetitions in the
    order 1, 2, ..., each once, and never raises, whatever the submissions
    raise; the errors logged belong to repetitions announced, at most one
    each.  It stops short of repeat_count repetitions only inside a
    confirmation poll that does not end; provided every poll ends (within
    [fuel] queries) it completes, having announced exactly the repetitions
    1, ..., repeat_count.  A repetition whose submission raises logs that error
    behind the events of its single submission attempt and completes
    normally. *)
Theorem replay_loop_runs_every_iteration lib w fuel url key payload rc h tr :
  (exists r h' ev n,
     replay_loop lib w fuel url key payload rc h tr = (r, h', ev)
     /\ iteration_starts ev = take n (map (fun i => i + 1) (range rc))
     /\ ((r = Normal tt /\ n = Z.to_nat rc) \/ (r = OutOfFuel /\ (1 <= n <= Z.to_nat rc)%nat))
     /\ sublist (map fst (iteration_errors ev)) (iteration_starts ev))
  /\ ((forall sig h tr, fst (fst (wait_for_confirmation w fuel sig h tr)) <> OutOfFuel) ->
      exists h' ev,
        replay_loop lib w fuel url key payload rc h tr = (Normal tt, h', ev)
        /\ iteration_starts ev = map (fun i => i + 1) (range rc)
        /\ length (iteration_starts ev) = Z.to_nat rc
        /\ sublist (map fst (iteration_errors ev)) (iteration_starts ev))
  /\ (forall i h tr e h1 ev1,
        send_modified_transaction lib w url payload key h
          (tr ++ [Printed (LogIterStart (i + 1) rc)]) = (Raised e, h1, ev1) ->
        iteration_body lib w fuel url key payload rc i h tr
        = (Normal tt, h1,
           Printed (LogIterStart (i + 1) rc) :: ev1 ++ [Printed (LogIterError (i + 1) rc e)])).
Proof.
  split; [|split].
  - destruct (for_each_iterations_any lib w fuel url key payload rc (range rc) h tr)
      as (r & h' & ev & n & Hrun & Hstarts & Hr & Herrors).
    rewrite range_length in Hr. now exists r, h', ev, n.
  - intros Hpoll.
    destruct (for_each_iterations lib w fuel Hpoll url key payload rc (range rc) h tr)
      as (h' & ev & Hrun & Hstarts & Herrors).
    exists h', ev. split; [exact Hrun|]. split; [exact Hstarts|]. split; [|exact Herrors].
    now rewrite Hstarts, length_map, range_length.
  - intros i h0 tr0 e h1 ev1 Hsend.
    apply iteration_body_raised; [exact Hsend|].
    pose proof (tame_send_modified_transaction lib w url payload key h0
                  (tr0 ++ [Printed (LogIterStart (i + 1) rc)])) as Htame.
    rewrite Hsend in Htame. now apply Htame.
Qed.

(** On [Demo.second_rejected] every poll ends at its first query, and the
    second of three submissions is rejected. *)
Lemma replay_loop_runs_every_iteration_witness :
  (forall sig h tr,
     fst (fst (wait_for_confirmation Demo.second_rejected 1 sig h tr)) <> OutOfFuel)
  /\ exists h' ev,
       replay_loop Demo.lib Demo.second_rejected 1 "u" 1%positive (CStr "two") 3
         Demo.store_with_key [] = (Normal tt, h', ev)
       /\ iteration_starts ev = [1; 2; 3].
Proof.
  assert (forall sig h tr,
            fst (fst (wait_for_confirmation Demo.second_rejected 1 sig h tr)) <> OutOfFuel)
    as Hpoll.
  { intros sig h tr. now rewrite (wait_confirmed Demo.second_rejected 0 sig h tr eq_refl). }
  split; [exact Hpoll|].
  destruct (proj1 (proj2 (replay_loop_runs_every_iteration Demo.lib Demo.second_rejected 1
                             "u" 1%positive (CStr "two") 3 Demo.store_with_key [])) Hpoll)
    as (h' & ev & Hrun & Hstarts & _).
  exists h', ev. split; [exact Hrun|exact Hstarts].
Defined.

(** C3 as stated fails: on [Demo.never_found] the status of the first
    submission stays not found; with two repetitions asked the loop submits
    once and polls for as many queries as it is allowed, and repetition 2 is
    never started. *)
Lemma replay_loop_stops_in_poll_counterexample :
  (forall t, rpc_get_transaction Demo.never_found t Demo.sig_a = ValueNone)
  /\ forall fuel, exists h' ev,
       replay_loop Demo.lib Demo.never_found fuel "u" 1%positive (CStr "two") 2
         Demo.store_with_key [] = (OutOfFuel, h', ev)
       /\ ev = [Printed (LogIterStart 1 2);
                GetLatestBlockhash (Some (mkHash "fresh")); RandomRandint 0 255 0;
                SendRawTransaction (tx_bytes Demo.tx_sent) (Some Demo.sig_a);
                Printed (LogSent Demo.sig_a); Printed (LogIterSignature 1 2 Demo.sig_a)]
               ++ concat (repeat (retry_round Demo.sig_a ValueNone) fuel)
       /\ count is_status_query ev = fuel
       /\ count is_submission ev = 1%nat
       /\ iteration_starts ev = [1]
       /\ length (iteration_starts ev) <> Z.to_nat 2.
Proof.
  split; [reflexivity|]. intros fuel.
  pose (rounds := concat (repeat (retry_round Demo.sig_a ValueNone) fuel)).
  destruct (retry_rounds_views Demo.sig_a ValueNone fuel) as (Hs & Hsub & Hq).
  assert (iteration_starts
            ([Printed (LogIterStart 1 2);
              GetLatestBlockhash (Some (mkHash "fresh")); RandomRandint 0 255 0;
              SendRawTransaction (tx_bytes Demo.tx_sent) (Some Demo.sig_a);
              Printed (LogSent Demo.sig_a); Printed (LogIterSignature 1 2 Demo.sig_a)]
             ++ rounds) = [1]) as Hstarts
    by (unfold rounds; now rewrite iteration_starts_app, Hs).
  eexists _, _. split; [|split; [reflexivity|]].
  - unfold replay_loop. change (range 2) with [0; 1]. cbn [for_each].
    erewrite bind_out_of_fuel; [reflexivity|].
    erewrite iteration_body_sent by (vm_compute; reflexivity).
    unfold after.
    rewrite (wait_never_confirmed Demo.never_found Demo.sig_a ValueNone
               (fun _ => eq_refl) eq_refl).
    reflexivity.
  - fold rounds. split_all.
    + rewrite count_app. unfold rounds. now rewrite Hq.
    + rewrite count_app. unfold rounds. now rewrite Hsub.
    + exact Hstarts.
    + rewrite Hstarts. discriminate.
Qed.

(** The whole run on [Demo.second_rejected]: three repetitions, three
    submissions, the error of the second logged once. *)
Example second_rejected_run :
  let '(r, _, ev) :=
    process_wallet Demo.lib Demo.second_rejected 1 "u" 1%positive (CStr "two") 3
      Demo.store_with_key [] in
  r = Normal tt
  /\ iteration_starts ev = [1; 2; 3]
  /\ iteration_errors ev = [(2, BroadcastError (LibError "send_raw_transaction"))]
  /\ count is_submission ev = 3%nat
  /\ count is_blockhash_call ev = 3%nat.
Proof. vm_compute. repeat split. Qed.

(** ** The decoded tree in the store *)

Lemma items_map_Item {A} (xs : list A) : items (map Item xs) = Some xs.
Proof. induction xs as [|x xs IH]; [reflexivity|]. cbn. now rewrite IH. Qed.

Lemma unvec_vec {A} (xs : list A) : unvec (vec xs) = Some xs.
Proof. unfold unvec, vec. now rewrite items_map_Item, Nat.eqb_refl. Qed.

Lemma parse_instruction_to_json i :
  parse_instruction (to_json_instruction i) = if valid_instruction i then Some i else None.
Proof.
  unfold parse_instruction, to_json_instruction, valid_instruction.
  cbn [json_accounts json_data json_program_id_index]. rewrite !unvec_vec.
  now destruct i.
Qed.

Lemma parse_instructions_to_json ins :
  parse_instructions (map to_json_instruction ins)
  = if forallb valid_instruction ins then Some ins else None.
Proof.
  induction ins as [|i ins IH]; [reflexivity|].
  cbn [map parse_instructions forallb]. rewrite parse_instruction_to_json, IH.
  destruct (valid_instruction i); [|reflexivity].
  now destruct (forallb valid_instruction ins).
Qed.

(** The typed decoding reads back what [to_json] wrote. *)
Lemma parse_tx_to_json tx : parse_tx (to_json tx) = if valid_tx tx then Some tx else None.
Proof.
  unfold parse_tx, to_json, valid_tx.
  cbn [json_header json_instructions json_signatures json_account_keys json_recent_blockhash].
  rewrite unvec_vec, parse_instructions_to_json.
  destruct (forallb valid_instruction (instructions (message tx))).
  - rewrite andb_true_r.
    destruct (is_u8 _ && is_u8 _ && is_u8 _); [|reflexivity].
    now destruct tx as [sigs [hd keys bh ins]].
  - now rewrite andb_false_r.
Qed.

Lemma data_refs_cons_item o os : data_refs (Item o :: os) = o_data o :: data_refs os.
Proof. reflexivity. Qed.

Lemma data_refs_cons_len n os : data_refs (Len n :: os) = data_refs os.
Proof. reflexivity. Qed.

Lemma data_refs_lookup os k o : os !! k = Some (Item o) -> In (o_data o) (data_refs os).
Proof.
  revert k. induction os as [|[n|o'] os IH]; intros [|k] Hk; try discriminate.
  - cbn in Hk. rewrite data_refs_cons_len. now apply (IH k).
  - injection Hk as ->. now left.
  - cbn in Hk. rewrite data_refs_cons_item. right. now apply (IH k).
Qed.

Lemma loads_instructions_spec js : forall h,
  exists os h',
    (forall tr, loads_instructions js h tr = (Normal os, h', []))
    /\ represents h' os js
    /\ h ⊆ h'
    /\ Forall (fun l => h !! l = None) (data_refs os)
    /\ NoDup (data_refs os).
Proof.
  induction js as [|[n|i] js IH]; intros h.
  - exists [], h.
    split; [reflexivity|]. split; [constructor|]. split; [reflexivity|].
    split; constructor.
  - destruct (IH h) as (os & h' & Hrun & Hrep & Hsub & Hfresh & Hnodup).
    exists (Len n :: os), h'. split_all; try assumption.
    + intros tr. cbn [loads_instructions].
      now rewrite (bind_normal _ _ _ _ _ _ _ (Hrun tr)), after_nil.
    + constructor; [reflexivity|exact Hrep].
  - set (l := fresh (dom h)). set (h1 := <[l := json_data i]> h).
    assert (h !! l = None) as Hl by (apply not_elem_of_dom, is_fresh).
    assert (h ⊆ h1) as Hsub by now apply insert_subseteq.
    destruct (IH h1) as (os & h' & Hrun & Hrep & Hsub' & Hfresh & Hnodup).
    exists (Item (mkInstructionObj (json_program_id_index i) (json_accounts i) l) :: os), h'.
    split; [|split; [|split; [|split]]].
    + intros tr. cbn [loads_instructions].
      rewrite (bind_normal (alloc (json_data i)) _ h tr l h1 [] eq_refl), after_nil.
      rewrite (bind_normal _ _ _ _ _ _ _ (Hrun tr)), after_nil.
      reflexivity.
    + constructor; [|exact Hrep]. cbn. repeat split.
      apply (lookup_weaken h1); [|exact Hsub']. apply lookup_insert_eq.
    + now transitivity h1.
    + rewrite data_refs_cons_item. constructor; [exact Hl|].
      eapply Forall_impl; [exact Hfresh|]. intros l' Hl'. cbn in Hl'.
      eapply lookup_weaken_None; [exact Hl'|exact Hsub].
    + rewrite data_refs_cons_item. cbn [o_data]. constructor; [|exact Hnodup].
      intros Hin. rewrite Forall_forall in Hfresh.
      specialize (Hfresh l Hin). cbn in Hfresh.
      subst h1. now rewrite lookup_insert_eq in Hfresh.
Qed.

Lemma dumps_instructions_spec h os js tr :
  represents h os js ->
  dumps_instructions os h tr = (Normal js, h, []).
Proof.
  intros Hrep. revert tr. induction Hrep as [|o j os js Hoj _ IH]; intros tr.
  - reflexivity.
  - destruct o as [n|o], j as [m|j]; cbn in Hoj; try contradiction.
    + subst m. cbn [dumps_instructions].
      now rewrite (bind_normal _ _ _ _ _ _ _ (IH tr)), after_nil.
    + destruct Hoj as (Hp & Ha & Hd). cbn [dumps_instructions].
      rewrite (bind_normal _ _ h tr (json_data j) h []) by (unfold load; now rewrite Hd).
      rewrite after_nil, (bind_normal _ _ _ _ _ _ _ (IH tr)), after_nil.
      cbn. rewrite Hp, Ha. now destruct j.
Qed.

(** Writing to a list that is no data array of the tree changes nothing of
    what the tree holds. *)
Lemma represents_insert_other h os js l d :
  ~ In l (data_refs os) -> represents h os js -> represents (<[l := d]> h) os js.
Proof.
  intros Hnotin Hrep. induction Hrep as [|o j os js Hoj Hrep IH]; [constructor|].
  destruct o as [n|o], j as [m|j]; cbn in Hoj; try contradiction.
  - constructor; [exact Hoj|]. apply IH. now rewrite data_refs_cons_len in Hnotin.
  - rewrite data_refs_cons_item in Hnotin. destruct Hoj as (Hp & Ha & Hd).
    constructor.
    + repeat split; [exact Hp|exact Ha|].
      rewrite lookup_insert_ne; [exact Hd|]. intros Heq. apply Hnotin. now left.
    + apply IH. intros Hin. apply Hnotin. now right.
Qed.

(** Writing the data array of element [k] changes element [k] only. *)
Lemma represents_store h os js k o j d :
  NoDup (data_refs os) -> represents h os js ->
  os !! k = Some (Item o) -> js !! k = Some (Item j) ->
  represents (<[o_data o := d]> h) os
    (<[k := Item (mkInstructionJson (json_program_id_index j) (json_accounts j) d)]> js).
Proof.
  intros Hnodup Hrep. revert k.
  induction Hrep as [|o' j' os js Hoj Hrep IH]; intros k Ho Hj.
  - discriminate.
  - destruct k as [|k]; cbn in Ho, Hj.
    + injection Ho as ->. injection Hj as ->. cbn in Hoj.
      destruct Hoj as (Hp & Ha & Hd).
      rewrite data_refs_cons_item in Hnodup. apply NoDup_cons in Hnodup as [Hnotin Hnodup].
      change (<[0%nat := ?x]> (?y :: ?l)) with (x :: l).
      constructor.
      * cbn. repeat split; [exact Hp|exact Ha|apply lookup_insert_eq].
      * apply represents_insert_other; [|exact Hrep].
        intros Hin. apply Hnotin. now apply list_elem_of_In.
    + change (<[S k := ?x]> (?y :: ?l)) with (y :: <[k := x]> l).
      destruct o' as [n|o'], j' as [m|j']; cbn in Hoj; try contradiction.
      * constructor; [exact Hoj|]. now apply IH.
      * rewrite data_refs_cons_item in Hnodup.
        apply NoDup_cons in Hnodup as [Hnotin Hnodup].
        destruct Hoj as (Hp & Ha & Hd). constructor; [|now apply IH].
        repeat split; [exact Hp|exact Ha|].
        rewrite lookup_insert_ne; [exact Hd|].
        intros Heq. apply Hnotin. rewrite <- Heq.
        apply list_elem_of_In. now apply (data_refs_lookup os k).
Qed.

Lemma decode_template_spec lib s bytes tx h :
  b64decode lib s = Some bytes -> deserialize lib bytes = Some tx ->
  exists o h1,
    (forall tr, decode_transaction lib (CStr s) h tr = (Normal o, h1, []))
    /\ loaded h h1 o (to_json tx) /\ h ⊆ h1.
Proof.
  intros Hb Hd.
  destruct (loads_instructions_spec (json_instructions (to_json tx)) h)
    as (os & h1 & Hrun & Hrep & Hsub & Hfresh & Hnodup).
  exists (mkTxObj (signatures tx) (header (message tx)) (account_keys (message tx))
                  (recent_blockhash (message tx)) os), h1.
  split; [|split; [now repeat split|exact Hsub]].
  intros tr. unfold decode_transaction. apply try_normal.
  unfold decode_template, py_b64decode. rewrite Hb. cbn [lift].
  rewrite (bind_normal (ret bytes) _ h tr bytes h [] eq_refl), after_nil.
  rewrite Hd. cbn [lift].
  rewrite (bind_normal (ret tx) _ h tr tx h [] eq_refl), after_nil.
  unfold json_loads.
  now rewrite (bind_normal _ _ _ _ _ _ _ (Hrun tr)), after_nil.
Qed.

(** ** The store only grows *)

Lemma keeps_pure {A} base (m : M A) :
  (forall h tr, snd (fst (m h tr)) = h) -> keeps base (fun _ => True) m.
Proof.
  intros Hm h tr Hh. specialize (Hm h tr).
  destruct (m h tr) as [[r h'] ev]. cbn in Hm. now subst.
Qed.

Lemma keeps_bind {A B} base (Q : A -> Prop) (R : B -> Prop) (m : M A) (f : A -> M B) :
  keeps base Q m -> (forall a, Q a -> keeps base R (f a)) -> keeps base R (m ≫= f).
Proof.
  intros Hm Hf h tr Hh. unfold_m. unfold bind. specialize (Hm h tr Hh).
  destruct (m h tr) as [[[a|e|] h1] e1]; destruct Hm as [Hsub HQ].
  - specialize (Hf a (HQ a eq_refl) h1 (tr ++ e1) Hsub).
    now destruct (f a h1 (tr ++ e1)) as [[r h2] e2].
  - split; [exact Hsub|discriminate].
  - split; [exact Hsub|discriminate].
Qed.

Lemma keeps_try {A} base (Q : A -> Prop) (m : M A) handler :
  keeps base Q m -> (forall e, keeps base Q (handler e)) ->
  keeps base Q (try_except m handler).
Proof.
  intros Hm Hh h tr Hh0. unfold try_except. specialize (Hm h tr Hh0).
  destruct (m h tr) as [[[a|e|] h1] e1]; [exact Hm| |exact Hm].
  destruct (is_Exception e); [|exact Hm].
  destruct Hm as [Hsub _]. specialize (Hh e h1 (tr ++ e1) Hsub).
  now destruct (handler e h1 (tr ++ e1)) as [[r h2] e2].
Qed.

Lemma keeps_ret {A} base (a : A) : keeps base (fun _ => True) (mret a).
Proof. now apply keeps_pure. Qed.

Lemma keeps_raise {A} base (Q : A -> Prop) e : keeps base Q (raise e).
Proof. intros h tr Hh. cbn. split; [exact Hh|discriminate]. Qed.

Lemma keeps_emit base e : keeps base (fun _ => True) (emit e).
Proof. now apply keeps_pure. Qed.

Lemma keeps_lift {A} base origin (o : option A) : keeps base (fun _ => True) (lift origin o).
Proof. apply keeps_pure. intros h tr. now destruct o. Qed.

Lemma keeps_load base l : keeps base (fun _ => True) (load l).
Proof. apply keeps_pure. intros h tr. unfold load. now destruct (h !! l). Qed.

Lemma fresh_outside (base h : heap) : base ⊆ h -> base !! fresh (dom h) = None.
Proof.
  intros Hsub. eapply lookup_weaken_None; [|exact Hsub].
  apply not_elem_of_dom, is_fresh.
Qed.

Lemma keeps_alloc base xs : keeps base (fun _ => True) (alloc xs).
Proof.
  intros h tr Hh. cbn. split; [|trivial].
  apply insert_subseteq_r; [|exact Hh]. now apply fresh_outside.
Qed.

Lemma keeps_store base l xs : base !! l = None -> keeps base (fun _ => True) (store l xs).
Proof. intros Hl h tr Hh. cbn. split; [|trivial]. now apply insert_subseteq_r. Qed.

Lemma keeps_world_calls base w :
  keeps base (fun _ => True) (get_latest_blockhash w)
  /\ (forall raw, keeps base (fun _ => True) (send_raw_transaction w raw))
  /\ (forall sig, keeps base (fun _ => True) (get_transaction w sig))
  /\ (forall a b, keeps base (fun _ => True) (randint w a b))
  /\ (forall a b, keeps base (fun _ => True) (uniform w a b)).
Proof.
  split_all; [|intros raw|intros sig|intros a b|intros a b]; apply keeps_pure;
    try reflexivity.
  intros h tr. unfold randint. now destruct (a <=? b).
Qed.

Lemma keeps_py_bytes base xs : keeps base (fun _ => True) (py_bytes xs).
Proof.
  induction xs as [|[n|x] xs IH]; cbn [py_bytes].
  - apply keeps_ret.
  - apply keeps_raise.
  - destruct (is_u8 x); [|apply keeps_raise].
    eapply keeps_bind; [exact IH|intros bs _; apply keeps_ret].
Qed.

Ltac keeps_step :=
  first
    [ apply keeps_ret | apply keeps_raise | apply keeps_emit | apply keeps_lift
    | apply keeps_load | apply keeps_alloc
    | apply keeps_world_calls
    | eapply keeps_bind; [|intros ? _]
    | apply keeps_try; [|intros ?]
    | match goal with
      | |- keeps _ _ (match ?x with _ => _ end) => destruct x
      | |- keeps _ _ (if ?b then _ else _) => destruct b
      end ].

Lemma keeps_blockhash_attempts base w n : forall attempt retries delay,
  keeps base (fun _ => True) (blockhash_attempts w n attempt retries delay).
Proof.
  induction n as [|n IH]; intros attempt retries delay; cbn [blockhash_attempts].
  - apply keeps_ret.
  - unfold print, sleep. repeat keeps_step. apply IH.
Qed.

(** The decoded tree is made of new objects. *)
Lemma keeps_loads_instructions base ins :
  keeps base (fun os => Forall (fun l => base !! l = None) (data_refs os))
    (loads_instructions ins).
Proof.
  intros h tr Hh.
  destruct (loads_instructions_spec ins h) as (os & h' & Hrun & _ & Hsub & Hfresh & _).
  rewrite (Hrun tr). split; [now transitivity h|].
  intros a [= <-]. eapply Forall_impl; [exact Hfresh|].
  intros l Hl. cbn in Hl. eapply lookup_weaken_None; [exact Hl|exact Hh].
Qed.

Lemma keeps_dumps_instructions base os :
  keeps base (fun _ => True) (dumps_instructions os).
Proof.
  induction os as [|[n|o] os IH]; cbn [dumps_instructions]; repeat keeps_step; exact IH.
Qed.

Lemma keeps_decode_transaction base lib payload :
  keeps base (fun o => Forall (fun l => base !! l = None) (data_refs (o_instructions o)))
    (decode_transaction lib payload).
Proof.
  unfold decode_transaction, decode_template, py_b64decode, json_loads.
  apply keeps_try; [|intros e; apply keeps_raise].
  eapply keeps_bind; [|intros bytes _].
  { destruct payload; keeps_step. }
  eapply keeps_bind; [apply keeps_lift|intros tx _].
  eapply keeps_bind; [apply keeps_loads_instructions|intros os Hos].
  intros h tr Hh. cbn. split; [exact Hh|]. now intros a [= <-].
Qed.

Lemma keeps_setitem_last base l x :
  base !! l = None -> keeps base (fun _ => True) (setitem_last l x).
Proof.
  intros Hl. unfold setitem_last.
  eapply keeps_bind; [apply keeps_load|intros xs _].
  destruct xs; [apply keeps_raise|now apply keeps_store].
Qed.

(** The write of line 53 lands in the decoded tree. *)
Lemma keeps_modify_transaction base w o :
  Forall (fun l => base !! l = None) (data_refs (o_instructions o)) ->
  keeps base (fun _ => True) (modify_transaction w o).
Proof.
  intros Hfresh. unfold modify_transaction.
  apply keeps_try; [|intros e; apply keeps_raise].
  unfold mutate.
  eapply keeps_bind; [apply keeps_world_calls|intros r _].
  eapply keeps_bind with (Q := fun e => forall ins, e = Item ins -> base !! o_data ins = None).
  - unfold getitem. destruct (o_instructions o !! 1%nat) as [e|] eqn:He;
      [|apply keeps_raise].
    intros h tr Hh. cbn. split; [exact Hh|]. intros a [= <-] ins ->.
    rewrite Forall_forall in Hfresh. apply Hfresh.
    apply list_elem_of_In. now apply (data_refs_lookup _ 1%nat).
  - intros e Hout.
    eapply keeps_bind with (Q := fun l => base !! l = None).
    { destruct e as [n|ins]; [apply keeps_raise|].
      intros h tr Hh. cbn. split; [exact Hh|]. intros a [= <-]. now apply Hout. }
    intros d Hd.
    eapply keeps_bind; [now apply keeps_setitem_last|intros _ _].
    eapply keeps_bind; [|intros j _; unfold from_json; apply keeps_lift].
    unfold json_dumps.
    eapply keeps_bind; [apply keeps_dumps_instructions|intros; apply keeps_ret].
Qed.

Lemma keeps_send_modified_transaction base lib w url payload key :
  keeps base (fun _ => True) (send_modified_transaction lib w url payload key).
Proof.
  unfold send_modified_transaction, get_latest_blockhash_with_retry.
  eapply keeps_bind; [apply keeps_blockhash_attempts|intros [bh|] _];
    [|apply keeps_raise].
  eapply keeps_bind; [apply keeps_load|intros ks _].
  eapply keeps_bind; [apply keeps_py_bytes|intros kb _].
  eapply keeps_bind; [apply keeps_lift|intros kp _].
  eapply keeps_bind; [apply keeps_decode_transaction|intros o Ho].
  eapply keeps_bind; [now apply keeps_modify_transaction|intros tx _].
  eapply keeps_bind; [apply keeps_lift|intros signed _].
  unfold print. repeat keeps_step.
Qed.

Lemma keeps_wait_for_confirmation base w fuel : forall sig,
  keeps base (fun _ => True) (wait_for_confirmation w fuel sig).
Proof.
  induction fuel as [|fuel IH]; intros sig; cbn [wait_for_confirmation].
  - now apply keeps_pure.
  - unfold check_transaction_status, print, sleep.
    repeat keeps_step. apply IH.
Qed.

Lemma keeps_for_each {A} base (body : A -> M unit) xs :
  (forall x, keeps base (fun _ => True) (body x)) ->
  keeps base (fun _ => True) (for_each xs body).
Proof.
  intros Hbody. induction xs as [|x xs IH]; cbn [for_each].
  - apply keeps_ret.
  - eapply keeps_bind; [apply Hbody|intros _ _; exact IH].
Qed.

Lemma keeps_process_wallet base lib w fuel url key payload rc :
  keeps base (fun _ => True) (process_wallet lib w fuel url key payload rc).
Proof.
  unfold process_wallet.
  eapply keeps_bind; [apply keeps_load|intros ks _].
  eapply keeps_bind; [apply keeps_py_bytes|intros kb _].
  eapply keeps_bind; [apply keeps_lift|intros kp _].
  eapply keeps_bind; [apply keeps_emit|intros _ _].
  unfold replay_loop. apply keeps_for_each. intros i.
  unfold iteration_body. apply keeps_try; [|intros e; apply keeps_emit].
  eapply keeps_bind; [apply keeps_emit|intros _ _].
  eapply keeps_bind; [apply keeps_send_modified_transaction|intros sig _].
  eapply keeps_bind; [apply keeps_emit|intros _ _].
  apply keeps_wait_for_confirmation.
Qed.

(** C8: [send_modified_transaction] leaves every object of the store it is
    started in as it was, the private-key list among them (the payload is an
    immutable value): whatever it writes, it writes into objects created
    during the call.  The same holds for all repetitions of [process_wallet]. *)
Theorem send_modified_transaction_frame lib w url payload key h tr :
  (let '(_, h', _) := send_modified_transaction lib w url payload key h tr in
   h ⊆ h'
   /\ (forall ks, h !! key = Some ks -> h' !! key = Some ks)
   /\ (forall l, h' !! l <> h !! l -> h !! l = None))
  /\ (forall fuel rc,
        let '(_, h', _) := process_wallet lib w fuel url key payload rc h tr in
        h ⊆ h' /\ (forall ks, h !! key = Some ks -> h' !! key = Some ks)).
Proof.
  assert (forall h' : heap, h ⊆ h' ->
            (forall ks, h !! key = Some ks -> h' !! key = Some ks)
            /\ (forall l, h' !! l <> h !! l -> h !! l = None)) as Hframe.
  { intros h' Hsub. split.
    - intros ks Hks. now apply (lookup_weaken h).
    - intros l Hne. destruct (h !! l) as [xs|] eqn:Hl; [|reflexivity].
      contradict Hne. now apply (lookup_weaken h). }
  split.
  - pose proof (keeps_send_modified_transaction h lib w url payload key h tr
                  (reflexivity h)) as Hkeep.
    destruct (send_modified_transaction lib w url payload key h tr) as [[r h'] ev].
    destruct Hkeep as [Hsub _]. split; [exact Hsub|now apply Hframe].
  - intros fuel rc.
    pose proof (keeps_process_wallet h lib w fuel url key payload rc h tr
                  (reflexivity h)) as Hkeep.
    destruct (process_wallet lib w fuel url key payload rc h tr) as [[r h'] ev].
    destruct Hkeep as [Hsub _]. split; [exact Hsub|now apply Hframe].
Qed.

(** ** The mutation *)

Lemma forallb_insert {A} (p : A -> bool) (l : list A) : forall k x,
  forallb p l = true -> p x = true -> forallb p (<[k := x]> l) = true.
Proof.
  induction l as [|y l IH]; intros k x Hl Hx; [exact Hl|].
  cbn in Hl. apply andb_true_iff in Hl as [Hy Hl].
  destruct k as [|k]; cbn; apply andb_true_iff; split; auto.
Qed.

(** What [random.randint(0, 255)] returns is a byte. *)
Lemma randint_byte w tr :
  0 <= random_randint w tr 0 255 < 256 /\ is_u8 (random_randint w tr 0 255) = true.
Proof.
  assert (0 <= random_randint w tr 0 255 <= 255) as H
    by (apply random_randint_range; lia).
  split; [lia|]. unfold is_u8. apply andb_true_iff. split; lia.
Qed.

Lemma valid_with_last_byte tx r :
  valid_tx tx = true -> is_u8 r = true -> valid_tx (with_last_byte tx r) = true.
Proof.
  intros Hvalid Hr. unfold with_last_byte.
  destruct (instructions (message tx) !! 0%nat) as [i0|] eqn:Hi0; [|exact Hvalid].
  unfold valid_tx in *. cbn.
  apply andb_true_iff in Hvalid as [Hhd Hins]. apply andb_true_iff. split; [exact Hhd|].
  apply forallb_insert; [exact Hins|].
  assert (valid_instruction i0 = true) as Hi.
  { rewrite forallb_forall in Hins. apply Hins, list_elem_of_In.
    now apply list_elem_of_lookup_2 with 0%nat. }
  unfold valid_instruction in *. cbn.
  apply andb_true_iff in Hi as [Hpa Hd]. apply andb_true_iff. split; [exact Hpa|].
  now apply forallb_insert.
Qed.

(** Writing over the last element of a data array that holds data is writing
    over its last data byte. *)
Lemma vec_insert_last (d : list Z) r :
  d <> [] -> <[length d := Item r]> (vec d) = vec (<[Nat.pred (length d) := r]> d).
Proof.
  intros Hne. unfold vec. rewrite length_insert.
  destruct d as [|x d]; [contradiction|].
  change (<[length (x :: d) := Item r]> (Len (length (x :: d)) :: map Item (x :: d)))
    with (Len (length (x :: d)) :: <[length d := Item r]> (map Item (x :: d)) : list (elem Z)).
  f_equal. cbn [length Nat.pred]. now rewrite list_fmap_insert.
Qed.

Lemma to_json_with_data_last tx i0 r :
  instructions (message tx) !! 0%nat = Some i0 -> data i0 <> [] ->
  to_json_with_data tx (<[length (data i0) := Item r]> (vec (data i0)))
  = to_json (with_last_byte tx r).
Proof.
  intros Hi0 Hne. unfold to_json_with_data, with_last_byte, to_json. rewrite Hi0.
  destruct (instructions (message tx)) as [|i rest]; [discriminate|].
  injection Hi0 as ->. cbn [signatures message header account_keys recent_blockhash
                             instructions].
  change (<[0%nat := ?x]> (i0 :: rest)) with (x :: rest).
  rewrite (vec_insert_last _ _ Hne). unfold vec at 3.
  cbn [map length to_json_instruction program_id_index accounts data].
  now rewrite length_map.
Qed.

(** With the length element of the data array written over, the typed
    decoding fails. *)
Lemma parse_tx_without_length tx i0 r :
  instructions (message tx) !! 0%nat = Some i0 ->
  parse_tx (to_json_with_data tx [Item r]) = None.
Proof.
  intros Hi0. unfold to_json_with_data, parse_tx.
  destruct (instructions (message tx)) as [|i rest]; [discriminate|].
  cbn [json_instructions unvec items]. rewrite items_map_Item.
  cbn [length]. rewrite length_map, Nat.eqb_refl.
  cbn [parse_instructions]. unfold parse_instruction at 1.
  cbn [json_accounts json_data].
  change (unvec [Item r]) with (@None (list Z)).
  now destruct (unvec (vec (accounts i))).
Qed.

Section Mutation.

Context (w : World).

(** Lines 52-55 on a template with an instruction: the element at index 1 of
    the tree is the first instruction; the last element of its data array is
    written over, and the tree is encoded and decoded again. *)
Lemma mutate_first_instruction base h o tx i0 tr :
  loaded base h o (to_json tx) ->
  instructions (message tx) !! 0%nat = Some i0 ->
  let r := random_randint w tr 0 255 in
  let d := <[length (data i0) := Item r]> (vec (data i0)) in
  exists l,
    In l (data_refs (o_instructions o))
    /\ h !! l = Some (vec (data i0))
    /\ mutate w o h tr
       = (match parse_tx (to_json_with_data tx d) with
          | Some tx' => Normal tx'
          | None => Raised (LibError "from_json")
          end, <[l := d]> h, [RandomRandint 0 255 r]).
Proof.
  intros (Hsig & Hhd & Hak & Hbh & Hrep & Hnodup & Hfresh) Hi0 r d.
  destruct (instructions (message tx)) as [|i rest] eqn:Hins; [discriminate|].
  injection Hi0 as ->.
  assert (json_instructions (to_json tx) !! 1%nat = Some (Item (to_json_instruction i0)))
    as Hj1 by (unfold to_json; now rewrite Hins).
  destruct (Forall2_lookup_r _ _ _ _ _ Hrep Hj1) as ([n|o0] & Ho0 & Hoj); [contradiction|].
  destruct Hoj as (Hp & Ha & Hd).
  cbn [to_json_instruction json_data json_program_id_index json_accounts] in Hp, Ha, Hd.
  exists (o_data o0). split; [now apply (data_refs_lookup _ 1%nat)|]. split; [exact Hd|].
  unfold mutate.
  rewrite (bind_normal (randint w 0 255) _ h tr r h [RandomRandint 0 255 r] eq_refl).
  unfold after.
  rewrite (bind_normal (getitem (o_instructions o) 1) _ h _ (Item o0) h [])
    by (unfold getitem; now rewrite Ho0).
  rewrite after_nil.
  rewrite (bind_normal (getitem_data (Item o0)) _ h _ (o_data o0) h [] eq_refl), after_nil.
  rewrite (bind_normal (setitem_last (o_data o0) (Item r)) _ h _ tt (<[o_data o0 := d]> h) []).
  2:{ unfold setitem_last.
      rewrite (bind_normal (load (o_data o0)) _ h _ (vec (data i0)) h [])
        by (unfold load; now rewrite Hd).
      rewrite after_nil. unfold vec at 1. unfold store, d.
      do 3 f_equal. unfold vec. cbn [length Nat.pred]. now rewrite length_map. }
  rewrite after_nil.
  rewrite (bind_normal (json_dumps o) _ (<[o_data o0 := d]> h) _ (to_json_with_data tx d)
             (<[o_data o0 := d]> h) []).
  2:{ unfold json_dumps.
      rewrite (bind_normal _ _ _ _ _ _ _
                 (dumps_instructions_spec (<[o_data o0 := d]> h) _ _ _
                    (represents_store h _ _ 1 o0 _ d Hnodup Hrep Ho0 Hj1))).
      rewrite after_nil. unfold to_json_with_data, to_json. rewrite Hins.
      cbn. rewrite Hsig, Hhd, Hak, Hbh, length_map. reflexivity. }
  rewrite after_nil. unfold from_json.
  now destruct (parse_tx (to_json_with_data tx d)).
Qed.

(** On a valid template whose first instruction has data, lines 52-55 yield
    the template with that one byte overwritten. *)
Lemma mutate_spec base h o tx i0 tr :
  loaded base h o (to_json tx) ->
  instructions (message tx) !! 0%nat = Some i0 -> data i0 <> [] ->
  valid_tx tx = true ->
  exists h',
    mutate w o h tr
    = (Normal (with_last_byte tx (random_randint w tr 0 255)), h',
       [RandomRandint 0 255 (random_randint w tr 0 255)]).
Proof.
  intros Hloaded Hi0 Hne Hvalid.
  destruct (mutate_first_instruction base h o tx i0 tr Hloaded Hi0)
    as (l & _ & _ & Hrun).
  eexists. rewrite Hrun, (to_json_with_data_last tx i0 _ Hi0 Hne), parse_tx_to_json.
  rewrite valid_with_last_byte; [reflexivity|exact Hvalid|apply randint_byte].
Qed.

(** On a template without any instruction, line 53 raises before anything is
    written. *)
Lemma mutate_no_instruction base h o tx tr :
  loaded base h o (to_json tx) -> instructions (message tx) = [] ->
  mutate w o h tr
  = (Raised IndexError, h, [RandomRandint 0 255 (random_randint w tr 0 255)]).
Proof.
  intros (_ & _ & _ & _ & Hrep & _) Hnone. unfold mutate.
  rewrite (bind_normal (randint w 0 255) _ h tr (random_randint w tr 0 255) h
             [RandomRandint 0 255 (random_randint w tr 0 255)] eq_refl).
  unfold after.
  assert (o_instructions o !! 1%nat = None) as Ho1.
  { apply lookup_ge_None. rewrite (Forall2_length _ _ _ Hrep).
    unfold to_json. rewrite Hnone. cbn. lia. }
  rewrite (bind_raised (getitem (o_instructions o) 1) _ h _ IndexError h []);
    [reflexivity|].
  unfold getitem. now rewrite Ho1.
Qed.

(** On a template whose first instruction has no data, line 53 writes over
    the length element of the data array, and line 55 rejects the result. *)
Lemma mutate_empty_data base h o tx i0 tr :
  loaded base h o (to_json tx) ->
  instructions (message tx) !! 0%nat = Some i0 -> data i0 = [] ->
  exists l,
    In l (data_refs (o_instructions o))
    /\ h !! l = Some [Len 0]
    /\ mutate w o h tr
       = (Raised (LibError "from_json"), <[l := [Item (random_randint w tr 0 255)]]> h,
          [RandomRandint 0 255 (random_randint w tr 0 255)]).
Proof.
  intros Hloaded Hi0 Hempty.
  destruct (mutate_first_instruction base h o tx i0 tr Hloaded Hi0)
    as (l & Hin & Hl & Hrun).
  rewrite Hempty in Hl, Hrun. cbn in Hl, Hrun.
  exists l. split; [exact Hin|]. split; [exact Hl|].
  now rewrite Hrun, (parse_tx_without_length tx i0 _ Hi0).
Qed.

(** Lines 52-55 return nothing but the template with the byte of
    [random.randint] written over the last data byte of instruction 0. *)
Lemma mutate_result base h o tx tr tx' h' ev :
  loaded base h o (to_json tx) ->
  mutate w o h tr = (Normal tx', h', ev) ->
  tx' = with_last_byte tx (random_randint w tr 0 255)
  /\ ev = [RandomRandint 0 255 (random_randint w tr 0 255)]
  /\ mutable_template tx = true.
Proof.
  intros Hloaded.
  destruct (instructions (message tx) !! 0%nat) as [i0|] eqn:Hi0.
  2:{ rewrite (mutate_no_instruction base h o tx tr Hloaded); [discriminate|].
      now destruct (instructions (message tx)). }
  destruct (data i0) as [|x d] eqn:Hd.
  { destruct (mutate_empty_data base h o tx i0 tr Hloaded Hi0 Hd) as (l & _ & _ & ->).
    discriminate. }
  assert (data i0 <> []) as Hne by now rewrite Hd.
  destruct (mutate_first_instruction base h o tx i0 tr Hloaded Hi0)
    as (l & _ & _ & ->).
  rewrite (to_json_with_data_last tx i0 _ Hi0 Hne), parse_tx_to_json.
  destruct (valid_tx (with_last_byte tx (random_randint w tr 0 255))); [|discriminate].
  intros [= <- _ <-]. split_all; try reflexivity.
  unfold mutable_template. now rewrite Hi0, Hd.
Qed.

End Mutation.

(** ** The bytes of the mutated transaction *)

Lemma differing_positions_same xs : forall pos, differing_positions xs xs pos = [].
Proof.
  induction xs as [|x xs IH]; intros pos; [reflexivity|].
  cbn. now rewrite Z.eqb_refl.
Qed.

Lemma differing_positions_insert (xs : list Z) : forall p r pos old,
  xs !! p = Some old ->
  differing_positions xs (<[p := r]> xs) pos
  = if Z.eqb old r then [] else [(pos + p)%nat].
Proof.
  induction xs as [|x xs IH]; intros p r pos old Hp; [discriminate|].
  destruct p as [|p].
  - injection Hp as ->.
    change (<[0%nat := r]> (old :: xs)) with (r :: xs).
    cbn [differing_positions]. rewrite differing_positions_same.
    destruct (Z.eqb old r); [reflexivity|]. now rewrite Nat.add_0_r.
  - change (<[S p := r]> (x :: xs)) with (x :: <[p := r]> xs).
    change ((x :: xs) !! S p) with (xs !! p) in Hp.
    cbn [differing_positions]. rewrite Z.eqb_refl, (IH p r (S pos) old Hp).
    destruct (Z.eqb old r); [reflexivity|]. f_equal. lia.
Qed.

Lemma tx_bytes_with_last_byte tx r i0 :
  instructions (message tx) !! 0%nat = Some i0 -> data i0 <> [] ->
  tx_bytes (with_last_byte tx r) = <[last_byte_position tx := r]> (tx_bytes tx)
  /\ tx_bytes tx !! last_byte_position tx = last (data i0).
Proof.
  intros Hi0 Hne. unfold with_last_byte, last_byte_position, tx_bytes. rewrite Hi0.
  destruct (instructions (message tx)) as [|i rest]; try discriminate.
  injection Hi0 as ->. cbn [message instructions header flat_map].
  assert (Nat.pred (length (data i0)) < length (data i0))%nat as Hlt
    by (destruct (data i0); [contradiction|cbn; lia]).
  set (k := Nat.pred (length (data i0))) in *.
  replace (3 + 1 + length (accounts i0) + k)%nat
    with (S (S (S (S (length (accounts i0) + k))))) by lia.
  set (i0' := mkInstruction (program_id_index i0) (accounts i0) (<[k := r]> (data i0))).
  set (a := num_required_signatures (header (message tx))).
  set (b := num_readonly_signed_accounts (header (message tx))).
  set (c := num_readonly_unsigned_accounts (header (message tx))).
  set (R := flat_map instruction_bytes rest).
  set (m := (length (accounts i0) + k)%nat).
  change (flat_map instruction_bytes (<[0%nat := i0']> (i0 :: rest)))
    with (instruction_bytes i0' ++ R).
  unfold instruction_bytes, i0'. cbn [program_id_index accounts data].
  change (<[S (S (S (S m))) := r]>
            (a :: b :: c :: (program_id_index i0 :: accounts i0 ++ data i0) ++ R))
    with (a :: b :: c :: program_id_index i0
            :: <[m := r]> ((accounts i0 ++ data i0) ++ R)).
  change ((a :: b :: c :: (program_id_index i0 :: accounts i0 ++ data i0) ++ R)
            !! S (S (S (S m))))
    with (((accounts i0 ++ data i0) ++ R) !! m).
  subst m. split.
  - do 4 f_equal. cbn [app].
    rewrite insert_app_l by (rewrite length_app; lia).
    now rewrite insert_app_r.
  - rewrite lookup_app_l by (rewrite length_app; lia).
    rewrite lookup_app_r by lia.
    replace (length (accounts i0) + k - length (accounts i0))%nat with k by lia.
    now rewrite last_lookup.
Qed.

Lemma with_last_byte_fields tx r :
  signatures (with_last_byte tx r) = signatures tx
  /\ header (message (with_last_byte tx r)) = header (message tx)
  /\ account_keys (message (with_last_byte tx r)) = account_keys (message tx)
  /\ recent_blockhash (message (with_last_byte tx r)) = recent_blockhash (message tx)
  /\ length (instructions (message (with_last_byte tx r)))
     = length (instructions (message tx))
  /\ (forall k, (0 < k)%nat ->
        instructions (message (with_last_byte tx r)) !! k
        = instructions (message tx) !! k).
Proof.
  unfold with_last_byte.
  destruct (instructions (message tx) !! 0%nat); cbn; split_all; try reflexivity.
  - now rewrite length_insert.
  - intros k Hk. apply list_lookup_insert_ne. lia.
Qed.

(** C2, as the code has it.  Line 53 indexes the JSON tree, in which every
    array starts with its length: element 1 of the instruction array is the
    first instruction, instruction 0.  On a valid template whose instruction 0
    has a non-empty data buffer, the mutation step succeeds and overwrites one
    byte position, the last byte of that buffer, with the byte that
    [random.randint(0, 255)] returns; every other byte and field of the
    decoded transaction, and every instruction behind the first, is as
    decoded.  The result differs from the decode in that one byte when the new
    byte is not the one it replaces, and in no byte when it is. *)
Theorem mutation_overwrites_last_byte lib w s bytes tx i0 h :
  b64decode lib s = Some bytes -> deserialize lib bytes = Some tx ->
  valid_tx tx = true ->
  instructions (message tx) !! 0%nat = Some i0 -> data i0 <> [] ->
  exists o h1,
    (forall tr, decode_transaction lib (CStr s) h tr = (Normal o, h1, []))
    /\ forall tr,
         let r := random_randint w tr 0 255 in
         let tx' := with_last_byte tx r in
         exists h2 old,
           modify_transaction w o h1 tr = (Normal tx', h2, [RandomRandint 0 255 r])
           /\ 0 <= r < 256
           /\ last (data i0) = Some old
           /\ tx_bytes tx !! last_byte_position tx = Some old
           /\ tx_bytes tx' = <[last_byte_position tx := r]> (tx_bytes tx)
           /\ differing_positions (tx_bytes tx) (tx_bytes tx') 0
              = (if Z.eqb old r then [] else [last_byte_position tx])
           /\ signatures tx' = signatures tx
           /\ account_keys (message tx') = account_keys (message tx)
           /\ recent_blockhash (message tx') = recent_blockhash (message tx)
           /\ length (instructions (message tx')) = length (instructions (message tx))
           /\ (forall k, (0 < k)%nat ->
                 instructions (message tx') !! k = instructions (message tx) !! k).
Proof.
  intros Hb Hd Hvalid Hi0 Hne.
  destruct (decode_template_spec lib s bytes tx h Hb Hd) as (o & h1 & Hdec & Hloaded & _).
  exists o, h1. split; [exact Hdec|]. intros tr r tx'.
  destruct (mutate_spec w h h1 o tx i0 tr Hloaded Hi0 Hne Hvalid) as (h2 & Hmut).
  destruct (tx_bytes_with_last_byte tx r i0 Hi0 Hne) as [Hbytes Hold].
  destruct (last (data i0)) as [old|] eqn:Hlast.
  2:{ rewrite last_lookup in Hlast. apply lookup_ge_None in Hlast.
      destruct (data i0); [contradiction|cbn in Hlast; lia]. }
  destruct (with_last_byte_fields tx r) as (Hs & _ & Hk & Hbh & Hlen & Hrest).
  exists h2, old. subst tx' r.
  split; [unfold modify_transaction; now apply try_normal|].
  split; [apply randint_byte|]. split; [reflexivity|]. split; [exact Hold|].
  split; [exact Hbytes|]. split; [|now split_all].
  rewrite Hbytes. now apply (differing_positions_insert _ _ _ 0%nat).
Qed.

(** On [Demo.healthy] [random.randint] answers 0, and the last data byte of
    instruction 0 of the template "two" is 11, byte 7 of the transaction. *)
Lemma mutation_overwrites_last_byte_witness :
  exists o h1 h2,
    decode_transaction Demo.lib (CStr "two") Demo.store_with_key [] = (Normal o, h1, [])
    /\ modify_transaction Demo.healthy o h1 []
       = (Normal (Demo.tx_of [Demo.instr [10; 0]; Demo.instr [20; 21; 22]]), h2,
          [RandomRandint 0 255 0])
    /\ differing_positions (tx_bytes Demo.tx_two)
         (tx_bytes (Demo.tx_of [Demo.instr [10; 0]; Demo.instr [20; 21; 22]])) 0
       = [7%nat].
Proof.
  destruct (mutation_overwrites_last_byte Demo.lib Demo.healthy "two" [2] Demo.tx_two
              (Demo.instr [10; 11]) Demo.store_with_key
              eq_refl eq_refl eq_refl eq_refl ltac:(discriminate))
    as (o & h1 & Hdec & Hmod).
  destruct (Hmod []) as (h2 & old & Hrun & _).
  exists o, h1, h2. split; [apply Hdec|]. split; [exact Hrun|reflexivity].
Defined.

(** C2 as stated fails, in three ways.  The template "two" is valid, has two
    instructions and data on instruction 1; on [Demo.healthy] the mutation
    step leaves the data of instruction 1 as it is and changes byte 7, the
    last data byte of instruction 0, not byte 13; on [Demo.draws_11] the byte
    returned is the byte already there, and no byte changes.  The template
    "first_empty" is valid, has two instructions and data on instruction 1 as
    well; the mutation step raises. *)
Lemma mutation_misses_instruction_1_counterexample :
  exists o h1 h2 h3 o' h1' h2',
    valid_tx Demo.tx_two = true
    /\ instructions (message Demo.tx_two) !! 1%nat = Some (Demo.instr [20; 21; 22])
    /\ decode_transaction Demo.lib (CStr "two") Demo.store_with_key [] = (Normal o, h1, [])
    /\ modify_transaction Demo.healthy o h1 []
       = (Normal (Demo.tx_of [Demo.instr [10; 0]; Demo.instr [20; 21; 22]]), h2,
          [RandomRandint 0 255 0])
    /\ differing_positions (tx_bytes Demo.tx_two)
         (tx_bytes (Demo.tx_of [Demo.instr [10; 0]; Demo.instr [20; 21; 22]])) 0
       = [7%nat]
    /\ modify_transaction Demo.draws_11 o h1 []
       = (Normal Demo.tx_two, h3, [RandomRandint 0 255 11])
    /\ differing_positions (tx_bytes Demo.tx_two) (tx_bytes Demo.tx_two) 0 = []
    /\ valid_tx Demo.tx_first_empty = true
    /\ instructions (message Demo.tx_first_empty) !! 1%nat = Some (Demo.instr [20; 21; 22])
    /\ decode_transaction Demo.lib (CStr "first_empty") Demo.store_with_key []
       = (Normal o', h1', [])
    /\ modify_transaction Demo.healthy o' h1' []
       = (Raised (MalformedTemplate (LibError "from_json")), h2', [RandomRandint 0 255 0]).
Proof.
  eexists _, _, _, _, _, _, _.
  split_all; try reflexivity; vm_compute; reflexivity.
Qed.

(** C5, as the code has it.  The mutation step raises the modification error
    on a template without any instruction (the index error of line 53, with
    nothing written) and on a template whose instruction 0 has no data (line
    53 then writes over the length element of the data array in the tree just
    decoded, and line 55 rejects the result).  In both cases no modified
    transaction is produced, every object of the caller is as before, and
    [send_modified_transaction], having obtained the blockhash and the
    keypair, ends with that error and submits nothing. *)
Theorem malformed_template_is_rejected lib w s bytes tx h tr :
  b64decode lib s = Some bytes -> deserialize lib bytes = Some tx ->
  (instructions (message tx) = []
   \/ exists i0, instructions (message tx) !! 0%nat = Some i0 /\ data i0 = []) ->
  exists o h1 cause,
    (forall tr', decode_transaction lib (CStr s) h tr' = (Normal o, h1, []))
    /\ h ⊆ h1
    /\ (instructions (message tx) = [] -> cause = IndexError)
    /\ (instructions (message tx) <> [] -> cause = LibError "from_json")
    /\ (forall tr',
          exists h2,
            modify_transaction w o h1 tr'
            = (Raised (MalformedTemplate cause), h2,
               [RandomRandint 0 255 (random_randint w tr' 0 255)])
            /\ h ⊆ h2
            /\ (instructions (message tx) = [] -> h2 = h1))
    /\ (forall url key ks kp bh,
          rpc_get_latest_blockhash w tr = Some bh ->
          h !! key = Some (map Item ks) -> forallb is_u8 ks = true ->
          keypair_from_bytes lib ks = Some kp ->
          exists h2,
            send_modified_transaction lib w url (CStr s) key h tr
            = (Raised (MalformedTemplate cause), h2,
               [GetLatestBlockhash (Some bh);
                RandomRandint 0 255
                  (random_randint w (tr ++ [GetLatestBlockhash (Some bh)]) 0 255)])
            /\ h ⊆ h2).
Proof.
  intros Hb Hd Hshape.
  destruct (decode_template_spec lib s bytes tx h Hb Hd) as (o & h1 & Hdec & Hloaded & Hsub).
  assert (exists cause,
            (instructions (message tx) = [] -> cause = IndexError)
            /\ (instructions (message tx) <> [] -> cause = LibError "from_json")
            /\ forall tr',
                 exists h2,
                   modify_transaction w o h1 tr'
                   = (Raised (MalformedTemplate cause), h2,
                      [RandomRandint 0 255 (random_randint w tr' 0 255)])
                   /\ h ⊆ h2
                   /\ (instructions (message tx) = [] -> h2 = h1))
    as (cause & Hnone & Hsome & Hmod).
  { destruct Hshape as [Hempty | (i0 & Hi0 & Hdata)].
    - exists IndexError. split; [reflexivity|]. split; [now intros Hne|].
      intros tr'. exists h1. split; [|now split].
      unfold modify_transaction.
      now rewrite (try_raised _ _ _ _ _ _ _
                     (mutate_no_instruction w h h1 o tx tr' Hloaded Hempty) eq_refl).
    - exists (LibError "from_json").
      split; [intros Hempty; now rewrite Hempty in Hi0|]. split; [reflexivity|].
      intros tr'.
      destruct (mutate_empty_data w h h1 o tx i0 tr' Hloaded Hi0 Hdata)
        as (l & Hin & Hl & Hrun).
      eexists. split; [|split].
      + unfold modify_transaction.
        now rewrite (try_raised _ _ _ _ _ _ _ Hrun eq_refl).
      + destruct Hloaded as (_ & _ & _ & _ & _ & _ & Hfresh).
        rewrite Forall_forall in Hfresh.
        apply map_subseteq_spec. intros k v Hk.
        destruct (decide (k = l)) as [->|Hkl].
        * rewrite (Hfresh l) in Hk by (now apply list_elem_of_In). discriminate.
        * rewrite lookup_insert_ne by congruence.
          now apply (lookup_weaken h h1).
      + intros Hempty. now rewrite Hempty in Hi0. }
  exists o, h1, cause. split_all; try assumption.
  intros url key ks kp bh Hbh Hkey Hu8 Hkp.
  destruct (Hmod (tr ++ [GetLatestBlockhash (Some bh)])) as (h2 & Hrun & Hsub2 & _).
  exists h2. split; [|exact Hsub2].
  unfold send_modified_transaction, get_latest_blockhash_with_retry.
  change (Z.to_nat 5) with 5%nat.
  rewrite (bind_normal _ _ _ _ _ _ _ (attempt_succeeds w 4 1 5 (1 # 2) h tr bh Hbh)).
  unfold after.
  rewrite (bind_normal (load key) _ h _ (map Item ks) h []) by (unfold load; now rewrite Hkey).
  rewrite after_nil.
  rewrite (bind_normal (py_bytes (map Item ks)) _ h _ ks h [])
    by (now rewrite py_bytes_items, Hu8).
  rewrite after_nil.
  rewrite (bind_normal (lift _ _) _ h _ kp h []) by now rewrite Hkp.
  rewrite after_nil.
  rewrite (bind_normal _ _ _ _ _ _ _ (Hdec _)), after_nil.
  now rewrite (bind_raised _ _ _ _ _ _ _ Hrun).
Qed.

(** The templates "none" (no instruction) and "first_empty" (no data on
    instruction 0) of [Demo.lib], sent on [Demo.healthy]. *)
Lemma malformed_template_is_rejected_witness :
  (exists h2,
     send_modified_transaction Demo.lib Demo.healthy "u" (CStr "none") 1%positive
       Demo.store_with_key []
     = (Raised (MalformedTemplate IndexError), h2,
        [GetLatestBlockhash (Some (mkHash "fresh")); RandomRandint 0 255 0])
     /\ Demo.store_with_key ⊆ h2)
  /\ (exists h2,
        send_modified_transaction Demo.lib Demo.healthy "u" (CStr "first_empty") 1%positive
          Demo.store_with_key []
        = (Raised (MalformedTemplate (LibError "from_json")), h2,
           [GetLatestBlockhash (Some (mkHash "fresh")); RandomRandint 0 255 0])
        /\ Demo.store_with_key ⊆ h2).
Proof.
  split.
  - destruct (malformed_template_is_rejected Demo.lib Demo.healthy "none" [3] Demo.tx_none
                Demo.store_with_key [] eq_refl eq_refl (or_introl eq_refl))
      as (o & h1 & cause & _ & _ & Hcause & _ & _ & Hsend).
    rewrite (Hcause eq_refl) in Hsend.
    exact (Hsend "u" 1%positive Demo.key_bytes (mkKeypair Demo.key_bytes)
             (mkHash "fresh") eq_refl eq_refl eq_refl eq_refl).
  - destruct (malformed_template_is_rejected Demo.lib Demo.healthy "first_empty" [4]
                Demo.tx_first_empty Demo.store_with_key [] eq_refl eq_refl
                (or_intror (ex_intro _ (Demo.instr []) (conj eq_refl eq_refl))))
      as (o & h1 & cause & _ & _ & _ & Hcause & _ & Hsend).
    rewrite (Hcause ltac:(discriminate)) in Hsend.
    exact (Hsend "u" 1%positive Demo.key_bytes (mkKeypair Demo.key_bytes)
             (mkHash "fresh") eq_refl eq_refl eq_refl eq_refl).
Defined.

(** C5 as stated fails: the template "one" has a single instruction, and the
    template "empty" has no data on instruction 1; on [Demo.healthy] both pass
    the mutation step, which writes into instruction 0, and are submitted. *)
Lemma short_template_is_submitted_counterexample :
  exists h2 h2',
    (length (instructions (message Demo.tx_one)) < 2)%nat
    /\ send_modified_transaction Demo.lib Demo.healthy "u" (CStr "one") 1%positive
         Demo.store_with_key []
       = (Normal Demo.sig_a, h2,
          [GetLatestBlockhash (Some (mkHash "fresh")); RandomRandint 0 255 0;
           SendRawTransaction [1; 0; 1; 2; 0; 1; 10; 0] (Some Demo.sig_a);
           Printed (LogSent Demo.sig_a)])
    /\ instructions (message Demo.tx_empty) !! 1%nat = Some (Demo.instr [])
    /\ send_modified_transaction Demo.lib Demo.healthy "u" (CStr "empty") 1%positive
         Demo.store_with_key []
       = (Normal Demo.sig_a, h2',
          [GetLatestBlockhash (Some (mkHash "fresh")); RandomRandint 0 255 0;
           SendRawTransaction [1; 0; 1; 2; 0; 1; 10; 0; 2; 0; 1] (Some Demo.sig_a);
           Printed (LogSent Demo.sig_a)]).
Proof.
  eexists _, _. split_all; try reflexivity; try (cbn; lia); vm_compute; reflexivity.
Qed.

(** A run of [send_modified_transaction] that goes through: the store gains
    the two data arrays of the decoded tree, the first with its last element
    overwritten, and the key list is as it was. *)
Example send_modified_transaction_run :
  let '(r, h', ev) :=
    send_modified_transaction Demo.lib Demo.draws_11 "u" (CStr "empty") 1%positive
      Demo.store_with_key [] in
  r = Normal Demo.sig_a
  /\ h' = <[3%positive := [Len 0]]>
            (<[2%positive := [Len 2; Item 10; Item 11]]> Demo.store_with_key)
  /\ ev = [GetLatestBlockhash (Some (mkHash "fresh")); RandomRandint 0 255 11;
           SendRawTransaction [1; 0; 1; 2; 0; 1; 10; 11; 2; 0; 1] (Some Demo.sig_a);
           Printed (LogSent Demo.sig_a)].
Proof. vm_compute. repeat split. Qed.

(** ** Further properties of the script *)

(** *** The blockhash fetch, for any number of retries *)

Lemma attempt_fails_retry_any w n attempt retries delay h tr :
  Qle_bool 0 delay = true ->
  rpc_get_latest_blockhash w tr = None -> attempt < retries ->
  blockhash_attempts w (S n) attempt retries delay h tr
  = after [GetLatestBlockhash None; Printed LogBlockhashError;
           Printed (LogBlockhashRetry attempt); Sleep delay]
          (blockhash_attempts w n (attempt + 1) retries delay) h tr.
Proof.
  intros Hdelay Hrpc Hlt. apply Z.ltb_lt in Hlt.
  cbn [blockhash_attempts]. unfold_m.
  unfold bind at 1. unfold get_latest_blockhash at 1. rewrite Hrpc, Hlt.
  unfold bind, print, sleep, emit, after. rewrite Hdelay.
  rewrite <- !app_assoc. cbn [app].
  now destruct (blockhash_attempts w n (attempt + 1) retries delay h _) as [[[]]].
Qed.

Lemma blockhash_attempts_bounds w delay retries n : forall attempt h tr,
  Qle_bool 0 delay = true ->
  (n = O \/ Z.of_nat n = retries - attempt + 1) ->
  exists r ev,
    blockhash_attempts w n attempt retries delay h tr = (Normal r, h, ev)
    /\ (count is_blockhash_call ev <= n)%nat
    /\ (n <> O -> (1 <= count is_blockhash_call ev)%nat)
    /\ count is_sleep ev = Nat.pred (count is_blockhash_call ev)
    /\ Forall (fun e => is_sleep e = true -> e = Sleep delay) ev
    /\ count is_submission ev = O /\ count is_status_query ev = O
    /\ (forall bh, r = Some bh -> last ev = Some (GetLatestBlockhash (Some bh)))
    /\ (r = None ->
        count is_blockhash_call ev = n
        /\ Forall (fun e => forall bh, e <> GetLatestBlockhash (Some bh)) ev).
Proof.
  induction n as [|n IH]; intros attempt h tr Hdelay Hinv.
  - exists None, []. split_all; try reflexivity; try discriminate.
    all: try (now intros []). all: try constructor.
    all: try (intros _; split; [reflexivity|constructor]).
  - destruct Hinv as [Hinv | Hinv]; [discriminate|].
    destruct (rpc_get_latest_blockhash w tr) as [bh|] eqn:Hrpc.
    + exists (Some bh), [GetLatestBlockhash (Some bh)].
      split; [now apply attempt_succeeds|].
      split_all; try reflexivity; try discriminate.
      all: try (change (1 <= S n)%nat; lia).
      all: try (repeat constructor; discriminate).
      all: try (now intros bh' [= <-]).
    + destruct (Z.lt_ge_cases attempt retries) as [Hlt | Hge].
      * destruct (IH (attempt + 1) h
                    (tr ++ [GetLatestBlockhash None; Printed LogBlockhashError;
                            Printed (LogBlockhashRetry attempt); Sleep delay]))
          as (r & ev & Hrun & Hle & Hpos & Hsl & Hall & Hsub & Hq & Hlast & Hnone);
          [exact Hdelay|right; lia|].
        assert (n <> O) as Hn by lia. specialize (Hpos Hn).
        exists r, ([GetLatestBlockhash None; Printed LogBlockhashError;
                    Printed (LogBlockhashRetry attempt); Sleep delay] ++ ev).
        split; [rewrite (attempt_fails_retry_any w n attempt retries delay h tr
                           Hdelay Hrpc Hlt);
                unfold after; now rewrite Hrun|].
        rewrite !count_app.
        change (count is_blockhash_call [GetLatestBlockhash None; Printed LogBlockhashError;
                  Printed (LogBlockhashRetry attempt); Sleep delay]) with 1%nat.
        change (count is_sleep [GetLatestBlockhash None; Printed LogBlockhashError;
                  Printed (LogBlockhashRetry attempt); Sleep delay]) with 1%nat.
        change (count is_submission [GetLatestBlockhash None; Printed LogBlockhashError;
                  Printed (LogBlockhashRetry attempt); Sleep delay]) with O.
        change (count is_status_query [GetLatestBlockhash None; Printed LogBlockhashError;
                  Printed (LogBlockhashRetry attempt); Sleep delay]) with O.
        split; [lia|]. split; [lia|]. split; [lia|].
        split; [|split; [exact Hsub|split; [exact Hq|split]]].
        -- repeat (constructor; [try discriminate; reflexivity|]). exact Hall.
        -- intros bh Hr. specialize (Hlast bh Hr).
           destruct ev as [|e ev]; [discriminate|]. exact Hlast.
        -- intros Hr. destruct (Hnone Hr) as [Hc Hf]. split; [lia|].
           repeat (constructor; [discriminate|]). exact Hf.
      * exists None, [GetLatestBlockhash None; Printed LogBlockhashError;
                      Printed LogBlockhashGiveUp].
        split; [now apply attempt_fails_last|].
        assert (n = O) as -> by lia.
        split_all; try reflexivity; try discriminate.
        all: try (repeat constructor; discriminate).
        all: try (intros _; split; [reflexivity|]; repeat constructor; discriminate).
Qed.



(** With a negative delay the first failed attempt that is not the last ends
    the fetch: [time.sleep] raises. *)
Example blockhash_fetch_negative_delay :
  get_latest_blockhash_with_retry Demo.blockhash_down 3 (-1 # 4) Demo.store_with_key []
  = (Raised PyValueError, Demo.store_with_key,
     [GetLatestBlockhash None; Printed LogBlockhashError; Printed (LogBlockhashRetry 1)]).
Proof. reflexivity. Qed.

(** *** Silent computations *)

Lemma silent_ret {A} (a : A) : silent (mret a).
Proof. intros h tr. cbn. split; [reflexivity|discriminate]. Qed.

Lemma silent_raise {A} e : silent (@raise A e).
Proof. intros h tr. cbn. split; [reflexivity|discriminate]. Qed.

Lemma silent_lift {A} origin (o : option A) : silent (lift origin o).
Proof. destruct o; [apply silent_ret|apply silent_raise]. Qed.

Lemma silent_load l : silent (load l).
Proof. intros h tr. unfold load. destruct (h !! l); split; (reflexivity || discriminate). Qed.

Lemma silent_alloc xs : silent (alloc xs).
Proof. intros h tr. cbn. split; [reflexivity|discriminate]. Qed.

Lemma silent_store l xs : silent (store l xs).
Proof. intros h tr. cbn. split; [reflexivity|discriminate]. Qed.

Lemma silent_bind {A B} (m : M A) (f : A -> M B) :
  silent m -> (forall a, silent (f a)) -> silent (m ≫= f).
Proof.
  intros Hm Hf h tr. unfold_m. unfold bind. specialize (Hm h tr).
  destruct (m h tr) as [[[a|e|] h1] e1]; destruct Hm as [-> Hfuel].
  - specialize (Hf a h1 (tr ++ [])).
    destruct (f a h1 (tr ++ [])) as [[r h2] e2]. exact Hf.
  - split; [reflexivity|discriminate].
  - now contradiction Hfuel.
Qed.

Lemma silent_try {A} (m : M A) handler :
  silent m -> (forall e, silent (handler e)) -> silent (try_except m handler).
Proof.
  intros Hm Hh h tr. unfold try_except. specialize (Hm h tr).
  destruct (m h tr) as [[[a|e|] h1] e1]; destruct Hm as [-> Hfuel].
  - split; [reflexivity|discriminate].
  - destruct (is_Exception e); [|split; [reflexivity|discriminate]].
    specialize (Hh e h1 (tr ++ [])).
    destruct (handler e h1 (tr ++ [])) as [[r h2] e2]. exact Hh.
  - now contradiction Hfuel.
Qed.

Ltac silent_step :=
  first
    [ apply silent_ret | apply silent_raise | apply silent_lift | apply silent_load
    | apply silent_alloc | apply silent_store
    | apply silent_bind; [|intros ?]
    | apply silent_try; [|intros ?]
    | match goal with
      | |- silent (match ?x with _ => _ end) => destruct x
      | |- silent (if ?b then _ else _) => destruct b
      end ].

Lemma silent_loads_instructions ins : silent (loads_instructions ins).
Proof.
  induction ins as [|[n|i] ins IH]; cbn [loads_instructions]; repeat silent_step;
    exact IH.
Qed.

Lemma silent_dumps_instructions os : silent (dumps_instructions os).
Proof.
  induction os as [|[n|o] os IH]; cbn [dumps_instructions]; repeat silent_step;
    exact IH.
Qed.

Lemma silent_decode_transaction lib payload : silent (decode_transaction lib payload).
Proof.
  unfold decode_transaction, decode_template, py_b64decode, json_loads.
  apply silent_try; [|intros e; apply silent_raise].
  apply silent_bind; [destruct payload; silent_step|intros bytes].
  apply silent_bind; [apply silent_lift|intros tx].
  apply silent_bind; [apply silent_loads_instructions|intros os; apply silent_ret].
Qed.

Lemma silent_py_bytes xs : silent (py_bytes xs).
Proof.
  induction xs as [|[n|x] xs IH]; cbn [py_bytes]; repeat silent_step; exact IH.
Qed.

(** A silent step in front: it either raises, and that is the outcome, or
    hands its result on, leaving the history as it was. *)
Lemma bind_silent {A B} (m : M A) (f : A -> M B) h tr :
  silent m ->
  (exists e h1, m h tr = (Raised e, h1, []) /\ (m ≫= f) h tr = (Raised e, h1, []))
  \/ (exists a h1, m h tr = (Normal a, h1, []) /\ (m ≫= f) h tr = f a h1 tr).
Proof.
  intros Hm. specialize (Hm h tr).
  destruct (m h tr) as [[[a|e|] h1] e1] eqn:Hrun; destruct Hm as [-> Hfuel].
  - right. exists a, h1. split; [reflexivity|].
    now rewrite (bind_normal _ _ _ _ _ _ _ Hrun), after_nil.
  - left. exists e, h1. split; [reflexivity|].
    now rewrite (bind_raised _ _ _ _ _ _ _ Hrun).
  - now contradiction Hfuel.
Qed.

(** *** The shape of a submission *)

(** Lines 51-57 always draw once, and emit nothing else. *)
Lemma modify_transaction_shape w o h tr :
  exists r h',
    modify_transaction w o h tr = (r, h', [RandomRandint 0 255 (random_randint w tr 0 255)])
    /\ r <> OutOfFuel
    /\ (forall e, r = Raised e -> exists cause, e = MalformedTemplate cause).
Proof.
  unfold modify_transaction, mutate.
  set (rest := fun random_number : Z =>
         ins ← getitem (o_instructions o) 1;
         d ← getitem_data ins;
         setitem_last d (Item random_number);;
         modified_tx_json ← json_dumps o;
         from_json modified_tx_json).
  assert (forall x, silent (rest x)) as Hrest.
  { intros x. unfold rest, getitem, getitem_data, setitem_last, json_dumps, from_json.
    repeat silent_step; apply silent_dumps_instructions. }
  change (mutate w o) with (randint w 0 255 ≫= rest).
  pose proof (Hrest (random_randint w tr 0 255) h
                (tr ++ [RandomRandint 0 255 (random_randint w tr 0 255)])) as Hs.
  destruct (rest (random_randint w tr 0 255) h
              (tr ++ [RandomRandint 0 255 (random_randint w tr 0 255)])) as [[[tx|e|] h1] e1] eqn:Hrun;
    destruct Hs as [-> Hfuel].
  - exists (Normal tx), h1. split; [|split; [discriminate|discriminate]].
    apply try_normal.
    rewrite (bind_normal (randint w 0 255) rest h tr (random_randint w tr 0 255) h
               [RandomRandint 0 255 (random_randint w tr 0 255)] eq_refl).
    unfold after. now rewrite Hrun.
  - assert ((randint w 0 255 ≫= rest) h tr = (Raised e, h1, [RandomRandint 0 255 (random_randint w tr 0 255)]))
      as Hmut.
    { rewrite (bind_normal (randint w 0 255) rest h tr (random_randint w tr 0 255) h
                 [RandomRandint 0 255 (random_randint w tr 0 255)] eq_refl).
      unfold after. now rewrite Hrun. }
    unfold try_except. rewrite Hmut.
    destruct (is_Exception e) eqn:He.
    + exists (Raised (MalformedTemplate e)), h1.
      split; [reflexivity|]. split; [discriminate|].
      intros e' [= <-]. now exists e.
    + exfalso. clear Hmut.
      assert (tame (rest (random_randint w tr 0 255))) as Htame.
      { unfold rest, getitem, getitem_data, setitem_last, json_dumps, from_json.
        repeat tame_step. }
      specialize (Htame h (tr ++ [RandomRandint 0 255 (random_randint w tr 0 255)])).
      rewrite Hrun in Htame. destruct Htame as (_ & _ & Hex).
      rewrite (Hex e eq_refl) in He. discriminate.
  - now contradiction Hfuel.
Qed.

(** The last block, lines 64-69, on a signed transaction. *)
Lemma broadcast_shape lib w (tx : Tx) h tr :
  exists r rest,
    try_except
      (raw ← lift "serialize" (serialize lib tx);
       tx_signature ← send_raw_transaction w raw;
       print (LogSent tx_signature);;
       mret tx_signature)
      (fun e => raise (BroadcastError e)) h tr = (r, h, rest)
    /\ ((rest = [] /\ r = Raised (BroadcastError (LibError "serialize")))
        \/ (exists raw, rest = [SendRawTransaction raw None]
                        /\ r = Raised (BroadcastError (LibError "send_raw_transaction"))
                        /\ serialize lib tx = Some raw)
        \/ (exists raw sig, rest = [SendRawTransaction raw (Some sig); Printed (LogSent sig)]
                            /\ r = Normal sig
                            /\ serialize lib tx = Some raw
                            /\ rpc_send_raw_transaction w tr raw = Some sig)).
Proof.
  destruct (serialize lib tx) as [raw|] eqn:Hser.
  - destruct (rpc_send_raw_transaction w tr raw) as [sig|] eqn:Hsend.
    + exists (Normal sig), [SendRawTransaction raw (Some sig); Printed (LogSent sig)].
      split; [|right; right; now exists raw, sig].
      apply try_normal. cbn [lift].
      rewrite (bind_normal (ret raw) _ h tr raw h [] eq_refl), after_nil.
      rewrite (bind_normal (send_raw_transaction w raw) _ h tr sig h
                 [SendRawTransaction raw (Some sig)])
        by (unfold send_raw_transaction; now rewrite Hsend).
      reflexivity.
    + exists (Raised (BroadcastError (LibError "send_raw_transaction"))),
        [SendRawTransaction raw None].
      split; [|right; left; now exists raw].
      rewrite (try_raised _ _ h tr (LibError "send_raw_transaction") h
                 [SendRawTransaction raw None]); [reflexivity| |reflexivity].
      cbn [lift].
      rewrite (bind_normal (ret raw) _ h tr raw h [] eq_refl), after_nil.
      apply bind_raised. unfold send_raw_transaction. now rewrite Hsend.
  - exists (Raised (BroadcastError (LibError "serialize"))), [].
    split; [|now left].
    now rewrite (try_raised _ _ h tr (LibError "serialize") h []).
Qed.

Ltac silent_head tac :=
  match goal with
  | |- context [@mbind M _ _ _ ?f ?m ?h ?tr] =>
      let Hs := fresh "Hs" in
      assert (silent m) as Hs by tac;
      destruct (bind_silent m f h tr Hs) as [(? & ? & _ & ->) | (? & ? & _ & ->)];
      clear Hs
  end.

(** What [send_modified_transaction] does behind the blockhash fetch. *)
Lemma send_modified_transaction_shape lib w url payload key h tr obh fev :
  get_latest_blockhash_with_retry w 5 (1 # 2) h tr = (Normal obh, h, fev) ->
  exists r h' rest,
    send_modified_transaction lib w url payload key h tr = (r, h', fev ++ rest)
    /\ ((obh = None /\ rest = [] /\ r = Raised BlockhashUnavailable)
        \/ (exists bh, obh = Some bh
            /\ ((rest = [] /\ exists e, r = Raised e)
                \/ (exists b, rest = [RandomRandint 0 255 b] /\ exists e, r = Raised e)
                \/ (exists b raw, rest = [RandomRandint 0 255 b; SendRawTransaction raw None]
                                  /\ exists e, r = Raised e)
                \/ (exists b raw sig,
                      rest = [RandomRandint 0 255 b; SendRawTransaction raw (Some sig);
                              Printed (LogSent sig)]
                      /\ r = Normal sig)))).
Proof.
  intros Hfetch. unfold send_modified_transaction.
  rewrite (bind_normal _ _ _ _ _ _ _ Hfetch). unfold after.
  destruct obh as [bh|].
  2:{ exists (Raised BlockhashUnavailable), h, []. split; [reflexivity|now left]. }
  set (tr' := tr ++ fev).
  silent_head ltac:(apply silent_load);
    [eexists _, _, []; split; [reflexivity|right]; exists bh; split; [reflexivity|left];
     split; [reflexivity|eauto]|].
  silent_head ltac:(apply silent_py_bytes);
    [eexists _, _, []; split; [reflexivity|right]; exists bh; split; [reflexivity|left];
     split; [reflexivity|eauto]|].
  silent_head ltac:(apply silent_lift);
    [eexists _, _, []; split; [reflexivity|right]; exists bh; split; [reflexivity|left];
     split; [reflexivity|eauto]|].
  silent_head ltac:(apply silent_decode_transaction);
    [eexists _, _, []; split; [reflexivity|right]; exists bh; split; [reflexivity|left];
     split; [reflexivity|eauto]|].
  match goal with
  | |- context [@mbind M _ _ _ _ (modify_transaction w ?o) ?h4 tr'] =>
      destruct (modify_transaction_shape w o h4 tr') as (rm & h5 & Hmod & Hfuel & _)
  end.
  destruct rm as [tx|e|]; [| |now contradiction Hfuel].
  2:{ rewrite (bind_raised _ _ _ _ _ _ _ Hmod).
      eexists _, _, _. split; [reflexivity|right]. exists bh. split; [reflexivity|].
      right; left. eexists. split; [reflexivity|now exists e]. }
  rewrite (bind_normal _ _ _ _ _ _ _ Hmod). unfold after.
  set (b := random_randint w tr' 0 255). set (tr2 := tr' ++ [RandomRandint 0 255 b]).
  silent_head ltac:(apply silent_lift);
    [eexists _, _, _; split; [reflexivity|right]; exists bh; split; [reflexivity|];
     right; left; exists b; split; [reflexivity|eauto]|].
  match goal with
  | |- context [try_except _ _ ?h6 tr2] =>
      match goal with
      | |- context [print (LogSent _)] => idtac
      end;
      match goal with
      | |- context [serialize lib ?signed] =>
          destruct (broadcast_shape lib w signed h6 tr2) as (r & rest & -> & Hshape);
          exists r, h6, ([RandomRandint 0 255 b] ++ rest)
      end
  end.
  split; [reflexivity|right].
  exists bh. split; [reflexivity|].
  destruct Hshape as [[-> ->] | [(raw & -> & -> & _) | (raw & sig & -> & -> & _)]].
  - right; left. exists b. split; [reflexivity|eauto].
  - right; right; left. exists b, raw. split; [reflexivity|eauto].
  - right; right; right. now exists b, raw, sig.
Qed.

Ltac count_eval :=
  repeat match goal with
    | |- context [count ?p (?e :: ?l)] =>
        let v := eval vm_compute in (count p (e :: l)) in
        change (count p (e :: l)) with v
    | |- context [count ?p []] => change (count p []) with O
    end.

Lemma count_cons p e ev :
  count p (e :: ev) = ((if p e then 1 else 0) + count p ev)%nat.
Proof. unfold count. cbn. now destruct (p e). Qed.

Lemma count_zero p ev : count p ev = O -> Forall (fun e => p e = false) ev.
Proof.
  induction ev as [|e ev IH]; intros Hc; [constructor|].
  rewrite count_cons in Hc. destruct (p e) eqn:Hp; [discriminate|].
  constructor; [exact Hp|now apply IH].
Qed.

(** X2: whatever the node, the library and the inputs do,
    [send_modified_transaction] ends (it needs no fuel), submits at most once,
    asks for a blockhash at most five times and never asks for a status.  It
    returns normally exactly when its one submission was accepted, and then
    returns the signature the node gave for it, printing it as the last line;
    when it raises, no submission was accepted.  It submits only behind a
    blockhash the node has given it. *)
Theorem send_submits_at_most_once lib w url payload key h tr :
  exists r h' ev,
    send_modified_transaction lib w url payload key h tr = (r, h', ev)
    /\ r <> OutOfFuel
    /\ (count is_submission ev <= 1)%nat
    /\ (count is_blockhash_call ev <= 5)%nat
    /\ count is_status_query ev = O
    /\ (forall sig, r = Normal sig ->
          exists pre raw,
            ev = pre ++ [SendRawTransaction raw (Some sig); Printed (LogSent sig)]
            /\ count is_submission pre = O)
    /\ ((forall sig, r <> Normal sig) ->
          Forall (fun e => forall raw sig, e <> SendRawTransaction raw (Some sig)) ev)
    /\ (count is_submission ev = 1%nat ->
          exists bh, In (GetLatestBlockhash (Some bh)) ev).
Proof.
  destruct (blockhash_attempts_bounds w (1 # 2) 5 5 1 h tr eq_refl)
    as (obh & fev & Hfetch & Hcalls & _ & _ & _ & Hsub & Hq & Hlast & _);
    [right; reflexivity|].
  change (blockhash_attempts w 5 1 5 (1 # 2) h tr)
    with (get_latest_blockhash_with_retry w 5 (1 # 2) h tr) in Hfetch.
  destruct (send_modified_transaction_shape lib w url payload key h tr obh fev Hfetch)
    as (r & h' & rest & Hrun & Hshape).
  exists r, h', (fev ++ rest). split; [exact Hrun|].
  assert (Forall (fun e => forall raw sig, e <> SendRawTransaction raw (Some sig)) fev)
    as Hnone.
  { eapply Forall_impl; [apply (count_zero _ _ Hsub)|].
    intros e He raw sig ->. discriminate. }
  rewrite !count_app, Hsub, Hq.
  assert (forall b raw,
            Forall (fun e => forall raw' sig, e <> SendRawTransaction raw' (Some sig))
              [RandomRandint 0 255 b; SendRawTransaction raw None]) as Hrej
    by (intros; repeat constructor; discriminate).
  assert (forall b,
            Forall (fun e => forall raw' sig, e <> SendRawTransaction raw' (Some sig))
              [RandomRandint 0 255 b]) as Hdraw
    by (intros; repeat constructor; discriminate).
  destruct Hshape as [(-> & -> & ->) | (bh & -> & Hshape)].
  - split_all; try discriminate; try (count_eval; lia).
    all: intros _; rewrite app_nil_r; exact Hnone.
  - assert (exists bh0, In (GetLatestBlockhash (Some bh0)) (fev ++ rest)) as Hin.
    { exists bh. apply in_or_app. left.
      specialize (Hlast bh eq_refl). rewrite last_lookup in Hlast.
      apply list_elem_of_In. eapply list_elem_of_lookup_2. exact Hlast. }
    destruct Hshape as [(-> & e & ->) | [(b & -> & e & ->) |
                         [(b & raw & -> & e & ->) | (b & raw & sig & -> & ->)]]].
    + split_all; try discriminate; try (count_eval; lia).
      all: try (intros _; exact Hin).
      all: intros _; rewrite ?app_nil_r; exact Hnone.
    + split_all; try discriminate; try (count_eval; lia).
      all: try (intros _; exact Hin).
      all: intros _; apply Forall_app; split; [exact Hnone|apply Hdraw].
    + split_all; try discriminate; try (count_eval; lia).
      all: try (intros _; exact Hin).
      all: intros _; apply Forall_app; split; [exact Hnone|apply Hrej].
    + split_all; try discriminate; try (count_eval; lia).
      all: try (intros _; exact Hin).
      * intros sig' [= <-]. exists (fev ++ [RandomRandint 0 255 b]), raw.
        split; [now rewrite <- app_assoc|]. now rewrite count_app, Hsub.
      * intros Hno. now contradiction (Hno sig).
Qed.

(** *** A submission that goes through, and one that is rejected *)

Section Submission.

Context (lib : Lib) (w : World).

(** The steps of [send_modified_transaction] between the blockhash fetch and
    the last block, on inputs that pass them. *)
Lemma send_modified_transaction_until_signed url s bytes tx i0 key ks kp h tr bh fev :
  get_latest_blockhash_with_retry w 5 (1 # 2) h tr = (Normal (Some bh), h, fev) ->
  h !! key = Some (map Item ks) -> forallb is_u8 ks = true -> keypair_from_bytes lib ks = Some kp ->
  b64decode lib s = Some bytes -> deserialize lib bytes = Some tx ->
  valid_tx tx = true ->
  instructions (message tx) !! 0%nat = Some i0 -> data i0 <> [] ->
  exists h',
    h ⊆ h'
    /\ send_modified_transaction lib w url (CStr s) key h tr
       = after (fev ++ [RandomRandint 0 255 (random_randint w (tr ++ fev) 0 255)])
           (tx ← lift "sign"
                   (sign lib
                      (set_recent_blockhash
                         (with_last_byte tx (random_randint w (tr ++ fev) 0 255)) bh)
                      kp);
            try_except
              (raw ← lift "serialize" (serialize lib tx);
               tx_signature ← send_raw_transaction w raw;
               print (LogSent tx_signature);;
               mret tx_signature)
              (fun e => raise (BroadcastError e))) h' tr.
Proof.
  intros Hfetch Hkey Hu8 Hkp Hb Hd Hvalid Hi0 Hne.
  destruct (decode_template_spec lib s bytes tx h Hb Hd) as (o & h1 & Hdec & Hloaded & Hsub).
  destruct (mutate_spec w h h1 o tx i0 (tr ++ fev) Hloaded Hi0 Hne Hvalid) as (h2 & Hmut).
  pose proof (keeps_modify_transaction h w o
                ltac:(destruct Hloaded as (_ & _ & _ & _ & _ & _ & Hf); exact Hf)
                h1 (tr ++ fev) Hsub) as Hkeep.
  assert (modify_transaction w o h1 (tr ++ fev)
          = (Normal (with_last_byte tx (random_randint w (tr ++ fev) 0 255)), h2,
             [RandomRandint 0 255 (random_randint w (tr ++ fev) 0 255)])) as Hmod
    by (unfold modify_transaction; now apply try_normal).
  rewrite Hmod in Hkeep. destruct Hkeep as [Hsub2 _].
  exists h2. split; [exact Hsub2|].
  unfold send_modified_transaction.
  rewrite (bind_normal _ _ _ _ _ _ _ Hfetch). unfold after at 1.
  rewrite (bind_normal (load key) _ h _ (map Item ks) h []) by (unfold load; now rewrite Hkey).
  rewrite after_nil.
  rewrite (bind_normal (py_bytes (map Item ks)) _ h _ ks h []) by (now rewrite py_bytes_items, Hu8).
  rewrite after_nil.
  rewrite (bind_normal (lift _ _) _ h _ kp h []) by now rewrite Hkp.
  rewrite after_nil.
  rewrite (bind_normal _ _ _ _ _ _ _ (Hdec _)), after_nil.
  rewrite (bind_normal _ _ _ _ _ _ _ Hmod).
  unfold after. rewrite <- !app_assoc.
  match goal with
  | |- context [?m h2 (tr ++ fev ++ ?l)] => destruct (m h2 (tr ++ fev ++ l)) as [[r h3] ev]
  end.
  now rewrite <- app_assoc.
Qed.

End Submission.

(** X3: a submission that goes through.  With a blockhash obtained, a key the
    keypair constructor accepts, a payload that decodes to a valid template
    with data on instruction 0, and signing, serialising and the node all
    succeeding, [send_modified_transaction] submits exactly the serialised,
    signed form of the template with its last data byte of instruction 0
    replaced by the byte of [random.randint] and its blockhash replaced by the
    one just fetched; it prints and returns the signature the node answers,
    and leaves every object of the caller's store as it was. *)
Theorem send_modified_transaction_success
    lib w url s bytes tx i0 key ks kp h tr bh fev signed raw sig :
  get_latest_blockhash_with_retry w 5 (1 # 2) h tr = (Normal (Some bh), h, fev) ->
  h !! key = Some (map Item ks) -> forallb is_u8 ks = true -> keypair_from_bytes lib ks = Some kp ->
  b64decode lib s = Some bytes -> deserialize lib bytes = Some tx ->
  valid_tx tx = true ->
  instructions (message tx) !! 0%nat = Some i0 -> data i0 <> [] ->
  let b := random_randint w (tr ++ fev) 0 255 in
  sign lib (set_recent_blockhash (with_last_byte tx b) bh) kp = Some signed ->
  serialize lib signed = Some raw ->
  rpc_send_raw_transaction w (tr ++ fev ++ [RandomRandint 0 255 b]) raw = Some sig ->
  exists h',
    send_modified_transaction lib w url (CStr s) key h tr
    = (Normal sig, h',
       fev ++ [RandomRandint 0 255 b; SendRawTransaction raw (Some sig); Printed (LogSent sig)])
    /\ h ⊆ h'
    /\ recent_blockhash (message (set_recent_blockhash (with_last_byte tx b) bh))
       = bh.
Proof.
  intros Hfetch Hkey Hu8 Hkp Hb Hd Hvalid Hi0 Hne b Hsign Hser Hsend.
  destruct (send_modified_transaction_until_signed lib w url s bytes tx i0 key ks kp h tr
              bh fev Hfetch Hkey Hu8 Hkp Hb Hd Hvalid Hi0 Hne) as (h' & Hsub & ->).
  exists h'. split; [|split; [exact Hsub|reflexivity]].
  unfold after. fold b. rewrite Hsign. cbn [lift].
  rewrite (bind_normal (ret signed) _ h' _ signed h' [] eq_refl), after_nil.
  rewrite (try_normal _ _ h' _ sig h' [SendRawTransaction raw (Some sig); Printed (LogSent sig)]).
  - now rewrite <- app_assoc.
  - rewrite Hser. cbn [lift].
    rewrite (bind_normal (ret raw) _ h' _ raw h' [] eq_refl), after_nil.
    rewrite (bind_normal (send_raw_transaction w raw) _ h' _ sig h'
               [SendRawTransaction raw (Some sig)])
      by (unfold send_raw_transaction; now rewrite Hsend).
    reflexivity.
Qed.

(** The template "two" sent on [Demo.healthy]. *)
Lemma send_modified_transaction_success_witness :
  exists h',
    send_modified_transaction Demo.lib Demo.healthy "u" (CStr "two") 1%positive
      Demo.store_with_key []
    = (Normal Demo.sig_a, h',
       [GetLatestBlockhash (Some (mkHash "fresh")); RandomRandint 0 255 0;
        SendRawTransaction (tx_bytes Demo.tx_sent) (Some Demo.sig_a);
        Printed (LogSent Demo.sig_a)])
    /\ Demo.store_with_key ⊆ h'.
Proof.
  destruct (send_modified_transaction_success Demo.lib Demo.healthy "u" "two" [2]
              Demo.tx_two (Demo.instr [10; 11]) 1%positive Demo.key_bytes
              (mkKeypair Demo.key_bytes) Demo.store_with_key [] (mkHash "fresh")
              [GetLatestBlockhash (Some (mkHash "fresh"))] Demo.tx_sent
              (tx_bytes Demo.tx_sent) Demo.sig_a
              eq_refl eq_refl eq_refl eq_refl eq_refl eq_refl eq_refl eq_refl
              ltac:(discriminate) eq_refl eq_refl eq_refl)
    as (h' & Hrun & Hsub & _).
  exists h'. split; [exact Hrun|exact Hsub].
Defined.

(** X4: which late failures are wrapped.  On inputs that pass the decoding and
    the mutation (a valid template with data on instruction 0): an exception of the signing step escapes
    [send_modified_transaction] as it is (lines 60-61 stand outside every
    try), with nothing submitted; an exception of the serialisation is
    wrapped into the send error of line 69, with nothing submitted; a
    submission the node rejects is wrapped into the same error, after exactly
    one submission, and no signature line is printed. *)
Theorem send_modified_transaction_late_failures
    lib w url s bytes tx i0 key ks kp h tr bh fev :
  get_latest_blockhash_with_retry w 5 (1 # 2) h tr = (Normal (Some bh), h, fev) ->
  h !! key = Some (map Item ks) -> forallb is_u8 ks = true -> keypair_from_bytes lib ks = Some kp ->
  b64decode lib s = Some bytes -> deserialize lib bytes = Some tx ->
  valid_tx tx = true ->
  instructions (message tx) !! 0%nat = Some i0 -> data i0 <> [] ->
  let b := random_randint w (tr ++ fev) 0 255 in
  let bound := set_recent_blockhash (with_last_byte tx b) bh in
  exists h',
    h ⊆ h'
    /\ (sign lib bound kp = None ->
        send_modified_transaction lib w url (CStr s) key h tr
        = (Raised (LibError "sign"), h', fev ++ [RandomRandint 0 255 b]))
    /\ (forall signed,
          sign lib bound kp = Some signed -> serialize lib signed = None ->
          send_modified_transaction lib w url (CStr s) key h tr
          = (Raised (BroadcastError (LibError "serialize")), h', fev ++ [RandomRandint 0 255 b]))
    /\ (forall signed raw,
          sign lib bound kp = Some signed -> serialize lib signed = Some raw ->
          rpc_send_raw_transaction w (tr ++ fev ++ [RandomRandint 0 255 b]) raw = None ->
          send_modified_transaction lib w url (CStr s) key h tr
          = (Raised (BroadcastError (LibError "send_raw_transaction")), h',
             fev ++ [RandomRandint 0 255 b; SendRawTransaction raw None])).
Proof.
  intros Hfetch Hkey Hu8 Hkp Hb Hd Hvalid Hi0 Hne b bound.
  destruct (send_modified_transaction_until_signed lib w url s bytes tx i0 key ks kp h tr
              bh fev Hfetch Hkey Hu8 Hkp Hb Hd Hvalid Hi0 Hne) as (h' & Hsub & ->).
  exists h'. split; [exact Hsub|]. unfold after. fold b. fold bound.
  split; [|split].
  - intros Hsign. rewrite Hsign. cbn [lift].
    now rewrite (bind_raised (raise (LibError "sign")) _ h' _ (LibError "sign") h' [] eq_refl),
      app_nil_r.
  - intros signed Hsign Hser. rewrite Hsign. cbn [lift].
    rewrite (bind_normal (ret signed) _ h' _ signed h' [] eq_refl), after_nil.
    rewrite (try_raised _ _ h' _ (LibError "serialize") h' []); [|now rewrite Hser|reflexivity].
    unfold after, raise. now rewrite !app_nil_r.
  - intros signed raw Hsign Hser Hsend. rewrite Hsign. cbn [lift].
    rewrite (bind_normal (ret signed) _ h' _ signed h' [] eq_refl), after_nil.
    rewrite (try_raised _ _ h' _ (LibError "send_raw_transaction") h'
               [SendRawTransaction raw None]); [| |reflexivity].
    + unfold after, raise. now rewrite app_nil_r, <- app_assoc.
    + rewrite Hser. cbn [lift].
      rewrite (bind_normal (ret raw) _ h' _ raw h' [] eq_refl), after_nil.
      apply bind_raised. unfold send_raw_transaction. now rewrite Hsend.
Qed.

(** The template "two" on [Demo.rejecting], and with [Demo.lib_unsigned]. *)
Lemma send_modified_transaction_late_failures_witness :
  (exists h',
     send_modified_transaction Demo.lib Demo.rejecting "u" (CStr "two") 1%positive
       Demo.store_with_key []
     = (Raised (BroadcastError (LibError "send_raw_transaction")), h',
        [GetLatestBlockhash (Some (mkHash "fresh")); RandomRandint 0 255 0;
         SendRawTransaction (tx_bytes Demo.tx_sent) None]))
  /\ (exists h',
        send_modified_transaction Demo.lib_unsigned Demo.healthy "u" (CStr "two") 1%positive
          Demo.store_with_key []
        = (Raised (LibError "sign"), h',
           [GetLatestBlockhash (Some (mkHash "fresh")); RandomRandint 0 255 0])).
Proof.
  split.
  - destruct (send_modified_transaction_late_failures Demo.lib Demo.rejecting "u" "two" [2]
                Demo.tx_two (Demo.instr [10; 11]) 1%positive Demo.key_bytes
                (mkKeypair Demo.key_bytes) Demo.store_with_key [] (mkHash "fresh")
                [GetLatestBlockhash (Some (mkHash "fresh"))]
                eq_refl eq_refl eq_refl eq_refl eq_refl eq_refl eq_refl eq_refl
                ltac:(discriminate))
      as (h' & _ & _ & _ & Hrej).
    exists h'. exact (Hrej Demo.tx_sent (tx_bytes Demo.tx_sent) eq_refl eq_refl eq_refl).
  - destruct (send_modified_transaction_late_failures Demo.lib_unsigned Demo.healthy "u"
                "two" [2] Demo.tx_two (Demo.instr [10; 11]) 1%positive Demo.key_bytes
                (mkKeypair Demo.key_bytes) Demo.store_with_key [] (mkHash "fresh")
                [GetLatestBlockhash (Some (mkHash "fresh"))]
                eq_refl eq_refl eq_refl eq_refl eq_refl eq_refl eq_refl eq_refl
                ltac:(discriminate))
      as (h' & _ & Hsign & _).
    exists h'. exact (Hsign eq_refl).
Defined.

(** *** Payloads that do not decode, and keys that are no keys *)

Lemma decode_transaction_undecodable lib payload h tr :
  (forall s bytes,
     payload = CStr s -> b64decode lib s = Some bytes -> deserialize lib bytes = None) ->
  exists c, decode_transaction lib payload h tr = (Raised (DeserializeError c), h, []).
Proof.
  intros Hbad. unfold decode_transaction.
  assert (exists c, decode_template lib payload h tr = (Raised c, h, [])
                    /\ is_Exception c = true) as (c & Hrun & Hc).
  { unfold decode_template, py_b64decode.
    destruct payload as [s| | | |];
      try (exists (LibError "b64decode"); split; reflexivity).
    destruct (b64decode lib s) as [bytes|] eqn:Hb;
      [|exists (LibError "b64decode"); split; reflexivity].
    exists (LibError "deserialize"). split; [|reflexivity]. cbn [lift].
    rewrite (bind_normal (ret bytes) _ h tr bytes h [] eq_refl), after_nil.
    now rewrite (Hbad s bytes eq_refl Hb). }
  exists c. now rewrite (try_raised _ _ _ _ _ _ _ Hrun Hc).
Qed.

Lemma send_undecodable lib w url payload key ks kp h tr :
  h !! key = Some (map Item ks) -> forallb is_u8 ks = true -> keypair_from_bytes lib ks = Some kp ->
  (forall s bytes,
     payload = CStr s -> b64decode lib s = Some bytes -> deserialize lib bytes = None) ->
  exists e ev,
    send_modified_transaction lib w url payload key h tr = (Raised e, h, ev)
    /\ (e = BlockhashUnavailable \/ exists c, e = DeserializeError c)
    /\ count is_submission ev = O /\ count is_status_query ev = O
    /\ iteration_starts ev = [] /\ iteration_errors ev = [].
Proof.
  intros Hkey Hu8 Hkp Hbad.
  destruct (blockhash_attempts_bounds w (1 # 2) 5 5 1 h tr eq_refl)
    as (obh & fev & Hfetch & _ & _ & _ & _ & Hsub & Hq & _); [right; reflexivity|].
  pose proof (tame_blockhash_attempts w 5 1 5 (1 # 2) h tr) as Htame.
  rewrite Hfetch in Htame.
  destruct Htame as ([Hs He] & _).
  unfold send_modified_transaction, get_latest_blockhash_with_retry.
  change (Z.to_nat 5) with 5%nat.
  rewrite (bind_normal _ _ _ _ _ _ _ Hfetch). unfold after.
  destruct obh as [bh|].
  - rewrite (bind_normal (load key) _ h _ (map Item ks) h []) by (unfold load; now rewrite Hkey).
    rewrite after_nil.
    rewrite (bind_normal (py_bytes (map Item ks)) _ h _ ks h []) by (now rewrite py_bytes_items, Hu8).
    rewrite after_nil.
    rewrite (bind_normal (lift _ _) _ h _ kp h []) by now rewrite Hkp.
    rewrite after_nil.
    destruct (decode_transaction_undecodable lib payload h (tr ++ fev) Hbad) as (c & Hdec).
    rewrite (bind_raised _ _ _ _ _ _ _ Hdec), app_nil_r.
    exists (DeserializeError c), fev. split; [reflexivity|]. split; [right; now exists c|].
    now split_all.
  - exists BlockhashUnavailable, fev. unfold raise. rewrite app_nil_r.
    split; [reflexivity|]. split; [now left|]. now split_all.
Qed.

(** X5: a payload that cannot be decoded (not a string, not base64, or bytes
    that are no transaction) does not stop the wallet: [process_wallet] runs
    all its repetitions and returns normally with the store untouched; every
    repetition fetches a blockhash first and ends in a logged error, the
    decoding error of line 48 or the missing blockhash of line 37; nothing is
    submitted and no status is asked for. *)
Theorem undecodable_payload_never_submits lib w fuel url key ks kp payload rc h tr :
  h !! key = Some (map Item ks) -> forallb is_u8 ks = true -> keypair_from_bytes lib ks = Some kp ->
  (forall s bytes,
     payload = CStr s -> b64decode lib s = Some bytes -> deserialize lib bytes = None) ->
  exists ev,
    process_wallet lib w fuel url key payload rc h tr = (Normal tt, h, ev)
    /\ count is_submission ev = O /\ count is_status_query ev = O
    /\ iteration_starts ev = map (fun i => i + 1) (range rc)
    /\ map fst (iteration_errors ev) = map (fun i => i + 1) (range rc)
    /\ Forall (fun e => e = BlockhashUnavailable \/ exists c, e = DeserializeError c)
         (map snd (iteration_errors ev)).
Proof.
  intros Hkey Hu8 Hkp Hbad.
  assert (forall xs h0 tr0, h0 = h -> exists ev,
            for_each xs (iteration_body lib w fuel url key payload rc) h0 tr0
            = (Normal tt, h, ev)
            /\ count is_submission ev = O /\ count is_status_query ev = O
            /\ iteration_starts ev = map (fun i => i + 1) xs
            /\ map fst (iteration_errors ev) = map (fun i => i + 1) xs
            /\ Forall (fun e => e = BlockhashUnavailable \/ exists c, e = DeserializeError c)
                 (map snd (iteration_errors ev))) as Hloop.
  { induction xs as [|i xs IH]; intros h0 tr0 ->.
    - exists []. split_all; try reflexivity. constructor.
    - destruct (send_undecodable lib w url payload key ks kp h
                  (tr0 ++ [Printed (LogIterStart (i + 1) rc)]) Hkey Hu8 Hkp Hbad)
        as (e & ev1 & Hsend & Hkind & Hsub & Hq & Hs & He).
      assert (is_Exception e = true) as Hexc
        by (destruct Hkind as [-> | [c ->]]; reflexivity).
      pose proof (iteration_body_raised lib w fuel url key payload rc i h tr0 e h ev1
                    Hsend Hexc) as Hbody.
      destruct (IH h (tr0 ++ Printed (LogIterStart (i + 1) rc) :: ev1
                          ++ [Printed (LogIterError (i + 1) rc e)]) eq_refl)
        as (ev2 & Hrest & Hsub2 & Hq2 & Hs2 & He2 & Hk2).
      exists ((Printed (LogIterStart (i + 1) rc) :: ev1
                 ++ [Printed (LogIterError (i + 1) rc e)]) ++ ev2).
      split; [cbn [for_each]; rewrite (bind_normal _ _ _ _ _ _ _ Hbody);
              unfold after; now rewrite Hrest|].
      rewrite !count_app, !count_cons, !count_app, Hsub, Hq, Hsub2, Hq2.
      rewrite iteration_starts_app, iteration_errors_app.
      cbn [iteration_starts iteration_errors].
      rewrite iteration_starts_app, iteration_errors_app, Hs, He, Hs2.
      cbn [iteration_starts iteration_errors app map fst snd].
      rewrite He2.
      split_all; try reflexivity.
      constructor; [exact Hkind|exact Hk2]. }
  destruct (Hloop (range rc) h (tr ++ [Printed (LogWalletStart (pubkey lib kp) rc)]) eq_refl)
    as (ev & Hrun & Hsub & Hq & Hs & He & Hk).
  exists (Printed (LogWalletStart (pubkey lib kp) rc) :: ev).
  split.
  - unfold process_wallet.
    rewrite (bind_normal (load key) _ h tr (map Item ks) h []) by (unfold load; now rewrite Hkey).
    rewrite after_nil.
    rewrite (bind_normal (py_bytes (map Item ks)) _ h tr ks h []) by (now rewrite py_bytes_items, Hu8).
    rewrite after_nil.
    rewrite (bind_normal (lift _ _) _ h tr kp h []) by now rewrite Hkp.
    rewrite after_nil, print_then. unfold after, replay_loop. now rewrite Hrun.
  - rewrite !count_cons. cbn [iteration_starts iteration_errors].
    now split_all.
Qed.

(** A payload column left empty (NaN), three repetitions, on [Demo.healthy]. *)
Lemma undecodable_payload_never_submits_witness :
  exists ev,
    process_wallet Demo.lib Demo.healthy 1 "u" 1%positive CNaN 3 Demo.store_with_key []
    = (Normal tt, Demo.store_with_key, ev)
    /\ count is_submission ev = O
    /\ map fst (iteration_errors ev) = [1; 2; 3].
Proof.
  destruct (undecodable_payload_never_submits Demo.lib Demo.healthy 1 "u" 1%positive
              Demo.key_bytes (mkKeypair Demo.key_bytes) CNaN 3 Demo.store_with_key []
              eq_refl eq_refl eq_refl ltac:(discriminate))
    as (ev & Hrun & Hsub & _ & _ & He & _).
  exists ev. split; [exact Hrun|]. split; [exact Hsub|exact He].
Defined.

(** X6: the key is checked once, before anything else.  A key list holding a
    value outside 0..255, or one [Keypair.from_bytes] rejects, makes
    [process_wallet] raise that error at line 134, outside the try of the
    loop: nothing is printed, no RPC call is made, the store is untouched.
    With a key that passes, [process_wallet] prints its opening line and never
    raises: it returns normally, or is still polling. *)
Theorem process_wallet_key_check lib w fuel url key payload rc h tr ks :
  h !! key = Some (map Item ks) ->
  (forallb is_u8 ks = false ->
   process_wallet lib w fuel url key payload rc h tr = (Raised PyValueError, h, []))
  /\ (forallb is_u8 ks = true -> keypair_from_bytes lib ks = None ->
      process_wallet lib w fuel url key payload rc h tr
      = (Raised (LibError "Keypair.from_bytes"), h, []))
  /\ (forall kp,
        forallb is_u8 ks = true -> keypair_from_bytes lib ks = Some kp ->
        exists r h' ev,
          process_wallet lib w fuel url key payload rc h tr
          = (r, h', Printed (LogWalletStart (pubkey lib kp) rc) :: ev)
          /\ (r = Normal tt \/ r = OutOfFuel)).
Proof.
  intros Hkey.
  assert (forall B (f : list (elem Z) -> M B),
            (load key ≫= f) h tr = f (map Item ks) h tr) as Hload.
  { intros B f.
    rewrite (bind_normal (load key) _ h tr (map Item ks) h []) by (unfold load; now rewrite Hkey).
    apply after_nil. }
  split; [|split].
  - intros Hu8. unfold process_wallet. rewrite Hload.
    apply bind_raised. now rewrite py_bytes_items, Hu8.
  - intros Hu8 Hkp. unfold process_wallet. rewrite Hload.
    rewrite (bind_normal (py_bytes (map Item ks)) _ h tr ks h []) by (now rewrite py_bytes_items, Hu8).
    rewrite after_nil. apply bind_raised. now rewrite Hkp.
  - intros kp Hu8 Hkp.
    destruct (for_each_iterations_any lib w fuel url key payload rc (range rc) h
                (tr ++ [Printed (LogWalletStart (pubkey lib kp) rc)]))
      as (r & h' & ev & n & Hrun & _ & Hr & _).
    exists r, h', ev. split.
    + unfold process_wallet. rewrite Hload.
      rewrite (bind_normal (py_bytes (map Item ks)) _ h tr ks h []) by (now rewrite py_bytes_items, Hu8).
      rewrite after_nil.
      rewrite (bind_normal (lift _ _) _ h tr kp h []) by now rewrite Hkp.
      rewrite after_nil, print_then. unfold after, replay_loop. now rewrite Hrun.
    + destruct Hr as [[-> _] | [-> _]]; auto.
Qed.

(** A key of three bytes, and a key list holding 256. *)
Lemma process_wallet_key_check_witness :
  process_wallet Demo.lib Demo.healthy 1 "u" 1%positive (CStr "two") 2
    Demo.store_with_short_key []
  = (Raised (LibError "Keypair.from_bytes"), Demo.store_with_short_key, [])
  /\ process_wallet Demo.lib Demo.healthy 1 "u" 1%positive (CStr "two") 2
       Demo.store_with_wide_key []
     = (Raised PyValueError, Demo.store_with_wide_key, []).
Proof.
  split.
  - exact (proj1 (proj2 (process_wallet_key_check Demo.lib Demo.healthy 1 "u" 1%positive
                           (CStr "two") 2 Demo.store_with_short_key []
                           Demo.short_key_bytes eq_refl)) eq_refl eq_refl).
  - exact (proj1 (process_wallet_key_check Demo.lib Demo.healthy 1 "u" 1%positive
                    (CStr "two") 2 Demo.store_with_wide_key [] [1; 256; 3] eq_refl)
             eq_refl).
Defined.

(** *** A dataset that loads *)

Lemma read_rows_step_loads lib row :
  row_loads lib row = true ->
  exists s ks d c n,
    row !! "private_key" = Some (CStr s) /\ literal_eval lib s = Some ks
    /\ row !! "data" = Some d /\ row !! "repeat_count" = Some c
    /\ (forall h0 tr0, py_int lib c h0 tr0 = (Normal n, h0, []))
    /\ forall rest data h tr,
         read_rows lib (row :: rest) data h tr
         = read_rows lib rest (data ++ [mkTask (fresh (dom h)) d n])
             (<[fresh (dom h) := map Item ks]> h) tr.
Proof.
  unfold row_loads. intros Hok.
  destruct (row !! "private_key") as [[s| | | |]|] eqn:Hk; try discriminate.
  destruct (literal_eval lib s) as [ks|] eqn:Hlit; [|repeat case_match; discriminate].
  destruct (row !! "data") as [d|] eqn:Hd; [|discriminate].
  destruct (row !! "repeat_count") as [c|] eqn:Hc; [|discriminate].
  assert (exists n, forall h0 tr0, py_int lib c h0 tr0 = (Normal n, h0, []))
    as (n & Hint).
  { destruct c as [t|z|q|b|]; cbn [py_int].
    - destruct (int_of_str lib t) as [z|]; [|discriminate]. now exists z.
    - now exists z.
    - now exists (Z.quot (Qnum q) (Z.pos (Qden q))).
    - discriminate.
    - discriminate. }
  exists s, ks, d, c, n. split_all; try reflexivity; try assumption.
  intros rest data h tr. cbn [read_rows]. unfold row_get. rewrite Hk, Hd, Hc.
  rewrite (bind_normal (mret (CStr s)) _ h tr (CStr s) h [] eq_refl), after_nil.
  unfold py_literal_eval. rewrite Hlit.
  rewrite (bind_normal (alloc (map Item ks)) _ h tr (fresh (dom h))
             (<[fresh (dom h) := map Item ks]> h) [] eq_refl), after_nil.
  rewrite (bind_normal (mret d) _ _ tr d _ [] eq_refl), after_nil.
  rewrite (bind_normal (mret c) _ _ tr c _ [] eq_refl), after_nil.
  now rewrite (bind_normal _ _ _ _ _ _ _ (Hint _ tr)), after_nil.
Qed.

Lemma read_rows_loads lib rows : forall data h tr,
  Forall (fun row => row_loads lib row = true) rows ->
  exists tasks h',
    read_rows lib rows data h tr = (Normal (data ++ tasks), h', [])
    /\ h ⊆ h'
    /\ Forall2 (task_of_row lib h') rows tasks
    /\ NoDup (map t_private_key tasks)
    /\ Forall (fun t => h !! t_private_key t = None) tasks.
Proof.
  induction rows as [|row rows IH]; intros data h tr Hok.
  - exists [], h. rewrite app_nil_r. split_all; try reflexivity; constructor.
  - apply Forall_cons in Hok as [Hrow Hrows].
    destruct (read_rows_step_loads lib row Hrow)
      as (s & ks & d & c & n & Hk & Hlit & Hd & Hc & Hint & Hstep).
    set (l := fresh (dom h)). set (h1 := <[l := map Item ks]> h).
    assert (h !! l = None) as Hl by (apply not_elem_of_dom, is_fresh).
    assert (h ⊆ h1) as Hsub by now apply insert_subseteq.
    destruct (IH (data ++ [mkTask l d n]) h1 tr Hrows)
      as (tasks & h' & Hrun & Hsub' & Hrel & Hnodup & Hfresh).
    exists (mkTask l d n :: tasks), h'.
    split; [rewrite Hstep; fold l h1; rewrite Hrun; now rewrite <- app_assoc|].
    split; [now transitivity h1|]. split; [|split].
    + constructor; [|exact Hrel]. split; [exact Hd|]. split.
      * exists s, ks. split; [exact Hk|]. split; [exact Hlit|].
        apply (lookup_weaken h1); [apply lookup_insert_eq|exact Hsub'].
      * now exists c.
    + cbn [map t_private_key]. constructor; [|exact Hnodup].
      intros Hin. apply list_elem_of_In, in_map_iff in Hin as (t & Ht & Hin).
      rewrite Forall_forall in Hfresh. apply list_elem_of_In in Hin.
      specialize (Hfresh t Hin). cbn in Hfresh.
      rewrite Ht in Hfresh. subst h1. now rewrite lookup_insert_eq in Hfresh.
    + constructor; [exact Hl|].
      eapply Forall_impl; [exact Hfresh|]. intros t Ht. cbn in Ht.
      eapply lookup_weaken_None; [exact Ht|exact Hsub].
Qed.

(** X8: a file all of whose rows the loader can convert gives one task per
    row, in the order of the rows: the payload is the data cell as it stands
    (it is not decoded here), the repeat count is what [int] makes of the
    cell (zero, negative and fractional counts load), and the key is a new
    list object holding the value of the private_key literal, whatever its
    length.  No two tasks share a key object, none is an object the store
    held before, and the objects the store held are as they were. *)
Theorem read_data_from_csv_loads lib w path rows h tr :
  fs_read_csv w tr path = Some rows ->
  Forall (fun row => row_loads lib row = true) rows ->
  exists tasks h',
    read_data_from_csv lib w path h tr = (Normal tasks, h', [ReadCsv path])
    /\ Forall2 (task_of_row lib h') rows tasks
    /\ NoDup (map t_private_key tasks)
    /\ Forall (fun t => h !! t_private_key t = None) tasks
    /\ h ⊆ h'.
Proof.
  intros Hcsv Hok.
  destruct (read_rows_loads lib rows [] h (tr ++ [ReadCsv path]) Hok)
    as (tasks & h' & Hrun & Hsub & Hrel & Hnodup & Hfresh).
  exists tasks, h'. split; [|now split_all].
  unfold read_data_from_csv. apply try_normal.
  rewrite (bind_normal (read_csv w path) _ h tr rows h [ReadCsv path])
    by (unfold read_csv; now rewrite Hcsv).
  unfold after. rewrite Hrun. reflexivity.
Qed.

(** The rows of [Demo.odd_rows]: a repeat count of 2.5 and a full key, then a
    repeat count of -1 with a three-byte key and no payload. *)
Lemma read_data_from_csv_loads_witness :
  exists h',
    read_data_from_csv Demo.lib (Demo.with_csv Demo.odd_rows) csv_file Demo.store_with_key []
    = (Normal [mkTask 2%positive (CStr "two") 2; mkTask 3%positive CNaN (-1)], h',
       [ReadCsv csv_file])
    /\ h' !! 2%positive = Some (map Item Demo.key_bytes)
    /\ h' !! 3%positive = Some (map Item Demo.short_key_bytes).
Proof.
  destruct (read_data_from_csv_loads Demo.lib (Demo.with_csv Demo.odd_rows) csv_file
              Demo.odd_rows Demo.store_with_key [] eq_refl
              ltac:(repeat constructor))
    as (tasks & h' & Hrun & _).
  assert (read_data_from_csv Demo.lib (Demo.with_csv Demo.odd_rows) csv_file
            Demo.store_with_key []
          = (Normal [mkTask 2%positive (CStr "two") 2; mkTask 3%positive CNaN (-1)],
             <[3%positive := map Item Demo.short_key_bytes]>
               (<[2%positive := map Item Demo.key_bytes]> Demo.store_with_key),
             [ReadCsv csv_file])) as Hval by (vm_compute; reflexivity).
  rewrite Hval in Hrun. injection Hrun as <- <-.
  eexists. split; [exact Hval|]. split; reflexivity.
Defined.

Lemma rows_load_or_not lib rows :
  Forall (fun row => row_loads lib row = true) rows
  \/ Exists (fun row => row_loads lib row = false) rows.
Proof.
  induction rows as [|row rows [IH | IH]].
  - left. constructor.
  - destruct (row_loads lib row) eqn:Hrow.
    + left. now constructor.
    + right. now apply Exists_cons_hd.
  - right. now apply Exists_cons_tl.
Qed.

(** X9: the main flow has two outcomes and no other.  Either the file cannot
    be read or holds a row the loader cannot convert: then the load error is
    printed and the process exits with status 1.  Or every row converts: then
    one job per row is handed to the pool, in the order of the rows, each with
    the fixed RPC address and the key, payload and repeat count of its row.
    Up to that hand-over the main flow makes no RPC call, and it raises
    nothing but the exit. *)
Theorem main_submit_outcomes lib w h tr :
  exists r h' ev,
    main_submit lib w h tr = (r, h', ev)
    /\ count is_rpc ev = O
    /\ ((exists e,
           r = Raised (SystemExit 1)
           /\ ev = [ReadCsv csv_file; Printed (LogCsvError (DatasetLoadError e))]
           /\ (fs_read_csv w tr csv_file = None
               \/ exists rows, fs_read_csv w tr csv_file = Some rows
                               /\ Exists (fun row => row_loads lib row = false) rows))
        \/ (exists rows jobs,
              r = Normal jobs
              /\ ev = [ReadCsv csv_file]
              /\ fs_read_csv w tr csv_file = Some rows
              /\ Forall2 (fun row j =>
                            j_rpc j = rpc
                            /\ task_of_row lib h' row
                                 (mkTask (j_private_key j) (j_data j) (j_repeat_count j)))
                   rows jobs
              /\ NoDup (map j_private_key jobs))).
Proof.
  unfold main_submit.
  destruct (fs_read_csv w tr csv_file) as [rows|] eqn:Hcsv.
  - destruct (rows_load_or_not lib rows) as [Hok | Hbad].
    + destruct (read_rows_loads lib rows [] h (tr ++ [ReadCsv csv_file]) Hok)
        as (tasks & h' & Hrows & _ & Hrel & Hnodup & _).
      assert (read_data_from_csv lib w csv_file h tr
              = (Normal tasks, h', [ReadCsv csv_file])) as Hrun.
      { unfold read_data_from_csv. apply try_normal.
        rewrite (bind_normal (read_csv w csv_file) _ h tr rows h [ReadCsv csv_file])
          by (unfold read_csv; now rewrite Hcsv).
        unfold after. rewrite Hrows. reflexivity. }
      eexists _, h', [ReadCsv csv_file]. split.
      * rewrite (bind_normal _ _ h tr tasks h' [ReadCsv csv_file]); [reflexivity|].
        now apply try_normal.
      * split; [reflexivity|right]. exists rows. eexists. split; [reflexivity|].
        split; [reflexivity|]. split; [reflexivity|]. split.
        -- clear Hrun Hrows Hnodup Hcsv Hok.
           induction Hrel as [|row t rows tasks Ht _ IH]; constructor.
           ++ split; [reflexivity|]. now destruct t.
           ++ exact IH.
        -- now rewrite map_map.
    + destruct (read_rows_malformed lib rows [] h (tr ++ [ReadCsv csv_file]) Hbad)
        as (e & h' & Hrows & He).
      assert (read_data_from_csv lib w csv_file h tr
              = (Raised (DatasetLoadError e), h', [ReadCsv csv_file])) as Hload.
      { unfold read_data_from_csv.
        rewrite (try_raised _ _ h tr e h' [ReadCsv csv_file]); [reflexivity| |exact He].
        rewrite (bind_normal (read_csv w csv_file) _ h tr rows h [ReadCsv csv_file])
          by (unfold read_csv; now rewrite Hcsv).
        unfold after. now rewrite Hrows. }
      exists (Raised (SystemExit 1)), h',
        [ReadCsv csv_file; Printed (LogCsvError (DatasetLoadError e))].
      split.
      * erewrite bind_raised; [reflexivity|].
        now rewrite (try_raised _ _ h tr _ h' [ReadCsv csv_file] Hload eq_refl).
      * split; [reflexivity|left]. exists e. split; [reflexivity|].
        split; [reflexivity|right]. now exists rows.
  - assert (read_data_from_csv lib w csv_file h tr
            = (Raised (DatasetLoadError (LibError "read_csv")), h, [ReadCsv csv_file]))
      as Hload.
    { unfold read_data_from_csv.
      rewrite (try_raised _ _ h tr (LibError "read_csv") h [ReadCsv csv_file]);
        [reflexivity| |reflexivity].
      apply bind_raised. unfold read_csv. now rewrite Hcsv. }
    exists (Raised (SystemExit 1)), h,
      [ReadCsv csv_file; Printed (LogCsvError (DatasetLoadError (LibError "read_csv")))].
    split.
    + erewrite bind_raised; [reflexivity|].
      now rewrite (try_raised _ _ h tr _ h [ReadCsv csv_file] Hload eq_refl).
    + split; [reflexivity|left]. exists (LibError "read_csv"). split; [reflexivity|].
      split; [reflexivity|now left].
Qed.

(** *** The polling loop, whatever the node replies *)

Lemma poll_rounds_views w sig k : forall tr,
  count is_status_query (poll_rounds w sig tr k) = k
  /\ filter is_sleep (poll_rounds w sig tr k) = repeat (Sleep 5) k
  /\ count is_blockhash_call (poll_rounds w sig tr k) = O
  /\ count is_submission (poll_rounds w sig tr k) = O.
Proof.
  induction k as [|k IH]; intros tr; [now split_all|].
  cbn [poll_rounds].
  destruct (IH (tr ++ retry_round sig (rpc_get_transaction w tr sig)))
    as (Hq & Hsl & Hb & Hs).
  rewrite !count_app, filter_app, Hq, Hsl, Hb, Hs.
  now split_all.
Qed.

(** The loop runs through the rounds whose reply is not a success, and ends at
    the first success or with the fuel. *)
Lemma wait_rounds w sig fuel : forall h tr,
  exists k,
    Forall (fun e => forall s r, e = GetTransaction s r -> s = sig /\ confirmed r = false)
      (poll_rounds w sig tr k)
    /\ (((k < fuel)%nat
         /\ rpc_get_transaction w (tr ++ poll_rounds w sig tr k) sig = MetaOk
         /\ wait_for_confirmation w fuel sig h tr
            = (Normal tt, h,
               poll_rounds w sig tr k
               ++ confirmed_round sig
                    (random_uniform w ((tr ++ poll_rounds w sig tr k)
                                    ++ [GetTransaction sig MetaOk; Printed (LogSuccess sig)]) 2 5)))
        \/ (k = fuel
            /\ wait_for_confirmation w fuel sig h tr = (OutOfFuel, h, poll_rounds w sig tr k))).
Proof.
  induction fuel as [|fuel IH]; intros h tr.
  - exists O. split; [constructor|right]. now split.
  - destruct (confirmed (rpc_get_transaction w tr sig)) eqn:Hc.
    + assert (rpc_get_transaction w tr sig = MetaOk) as Hr
        by (destruct (rpc_get_transaction w tr sig); (discriminate || reflexivity)).
      exists O. split; [constructor|left]. cbn [poll_rounds app]. rewrite app_nil_r.
      split; [lia|]. split; [exact Hr|]. now apply wait_confirmed.
    + destruct (IH h (tr ++ retry_round sig (rpc_get_transaction w tr sig)))
        as (k & Hall & Hrun).
      exists (S k). cbn [poll_rounds]. split.
      * apply Forall_app. split; [|exact Hall].
        unfold retry_round.
        constructor; [intros s r [= <- <-]; now split|].
        repeat (constructor; [discriminate|]). constructor.
      * rewrite (wait_retries w fuel sig h tr _ eq_refl Hc). unfold after.
        rewrite !app_assoc.
        destruct Hrun as [(Hk & Hok & ->) | (-> & ->)]; [left|right].
        -- split; [lia|]. split; [exact Hok|]. now rewrite <- !app_assoc.
        -- now split.
Qed.

(** X10: the polling loop of lines 145-154 with [check_transaction_status],
    for any replies of the node.  It never raises, also when the query itself
    raises, and leaves the store alone.  It goes through the rounds whose
    reply is anything but a success, waiting 5 after each, all for the same
    signature, and stops at the first success reply, behind which it calls
    [random.uniform(2, 5)] once, prints the value returned and sleeps it; the
    value lies between 2 and 5, both ends included.  It calls no other RPC
    method.  Within [fuel] queries it either has returned so, or has seen
    [fuel] replies none of which was a success. *)
Theorem poll_outcomes w sig fuel h tr :
  exists k tail r,
    wait_for_confirmation w fuel sig h tr = (r, h, poll_rounds w sig tr k ++ tail)
    /\ Forall (fun e => forall s q, e = GetTransaction s q -> s = sig /\ confirmed q = false)
         (poll_rounds w sig tr k)
    /\ count is_status_query (poll_rounds w sig tr k) = k
    /\ filter is_sleep (poll_rounds w sig tr k) = repeat (Sleep 5) k
    /\ count is_blockhash_call (poll_rounds w sig tr k ++ tail) = O
    /\ count is_submission (poll_rounds w sig tr k ++ tail) = O
    /\ ((r = Normal tt /\ (k < fuel)%nat
         /\ rpc_get_transaction w (tr ++ poll_rounds w sig tr k) sig = MetaOk
         /\ exists pause,
              tail = confirmed_round sig pause
              /\ pause = random_uniform w
                           ((tr ++ poll_rounds w sig tr k)
                            ++ [GetTransaction sig MetaOk; Printed (LogSuccess sig)]) 2 5
              /\ (2 <= pause)%Q /\ (pause <= 5)%Q)
        \/ (r = OutOfFuel /\ k = fuel /\ tail = [])).
Proof.
  destruct (wait_rounds w sig fuel h tr) as (k & Hall & Hrun).
  destruct (poll_rounds_views w sig k tr) as (Hq & Hsl & Hb & Hs).
  destruct Hrun as [(Hk & Hok & Hrun) | (-> & Hrun)].
  - eexists k, _, (Normal tt). split; [exact Hrun|].
    rewrite !count_app, Hb, Hs.
    split_all; try assumption; try reflexivity.
    left. split_all; try assumption; try reflexivity.
    eexists. split; [reflexivity|]. split; [reflexivity|apply pause_range].
  - exists fuel, [], OutOfFuel. rewrite app_nil_r.
    split_all; try assumption. right. now split_all.
Qed.

(** *** The bound on the polling loop *)

Lemma extends_refl {A} (m : M A) : extends m m.
Proof. now intros h tr _. Qed.

Lemma extends_bind {A B} (m m' : M A) (f f' : A -> M B) :
  extends m m' -> (forall a, extends (f a) (f' a)) -> extends (m ≫= f) (m' ≫= f').
Proof.
  intros Hm Hf h tr. unfold_m. unfold bind. specialize (Hm h tr).
  destruct (m h tr) as [[[a|e|] h1] e1]; cbn [fst] in *.
  - rewrite Hm by discriminate. specialize (Hf a h1 (tr ++ e1)).
    destruct (f a h1 (tr ++ e1)) as [[r h2] e2]; cbn [fst] in *.
    intros Hr. now rewrite Hf.
  - now rewrite Hm by discriminate.
  - intros Hr. now contradiction Hr.
Qed.

Lemma extends_try {A} (m m' : M A) handler :
  extends m m' -> extends (try_except m handler) (try_except m' handler).
Proof.
  intros Hm h tr. unfold try_except. specialize (Hm h tr).
  destruct (m h tr) as [[[a|e|] h1] e1]; cbn [fst] in *.
  - now rewrite Hm by discriminate.
  - now rewrite Hm by discriminate.
  - intros Hr. now contradiction Hr.
Qed.

Lemma extends_wait w sig fuel : forall fuel',
  (fuel <= fuel')%nat ->
  extends (wait_for_confirmation w fuel sig) (wait_for_confirmation w fuel' sig).
Proof.
  induction fuel as [|fuel IH]; intros fuel' Hle.
  - intros h tr Hr. now contradiction Hr.
  - destruct fuel' as [|fuel']; [lia|]. cbn [wait_for_confirmation].
    apply extends_bind; [apply extends_refl|]. intros [|]; [apply extends_refl|].
    apply extends_bind; [apply extends_refl|]. intros _.
    apply extends_bind; [apply extends_refl|]. intros _.
    apply IH. lia.
Qed.

Lemma extends_for_each {A} (body body' : A -> M unit) xs :
  (forall x, extends (body x) (body' x)) -> extends (for_each xs body) (for_each xs body').
Proof.
  intros Hbody. induction xs as [|x xs IH]; [apply extends_refl|].
  cbn [for_each]. apply extends_bind; [apply Hbody|]. intros _. exact IH.
Qed.

(** X11: the bound put on the [while True] loop does not show in a run that
    ends within it: a run of [process_wallet] that ends with [fuel] queries
    allowed to each poll is, event for event, the run with any larger bound. *)
Theorem process_wallet_fuel_independent lib w fuel fuel' url key payload rc h tr :
  (fuel <= fuel')%nat ->
  fst (fst (process_wallet lib w fuel url key payload rc h tr)) <> OutOfFuel ->
  process_wallet lib w fuel' url key payload rc h tr
  = process_wallet lib w fuel url key payload rc h tr.
Proof.
  intros Hle. revert h tr.
  change (extends (process_wallet lib w fuel url key payload rc)
                  (process_wallet lib w fuel' url key payload rc)).
  unfold process_wallet, replay_loop.
  apply extends_bind; [apply extends_refl|]. intros ks.
  apply extends_bind; [apply extends_refl|]. intros bs.
  apply extends_bind; [apply extends_refl|]. intros kp.
  apply extends_bind; [apply extends_refl|]. intros _.
  apply extends_for_each. intros i. unfold iteration_body.
  apply extends_try.
  apply extends_bind; [apply extends_refl|]. intros _.
  apply extends_bind; [apply extends_refl|]. intros sig.
  apply extends_bind; [apply extends_refl|]. intros _.
  now apply extends_wait.
Qed.

(** On [Demo.found_third] every poll ends at its third query: the run with
    three queries allowed is the run with seven. *)
Lemma process_wallet_fuel_independent_witness :
  process_wallet Demo.lib Demo.found_third 7 "u" 1%positive (CStr "two") 1
    Demo.store_with_key []
  = process_wallet Demo.lib Demo.found_third 3 "u" 1%positive (CStr "two") 1
      Demo.store_with_key [].
Proof.
  apply process_wallet_fuel_independent; [lia|].
  vm_compute. discriminate.
Defined.

(** *** The whole run of a wallet *)

Lemma Signature_eqb_refl sig : Signature_eqb sig sig = true.
Proof. destruct sig. apply String.eqb_refl. Qed.

Lemma protocol_run_app s ev1 ev2 :
  protocol_run s (ev1 ++ ev2)
  = match protocol_run s ev1 with
    | Some s1 => protocol_run s1 ev2
    | None => None
    end.
Proof.
  revert s. induction ev1 as [|e ev1 IH]; intros s; cbn [app protocol_run]; [reflexivity|].
  destruct (protocol_step s e); [apply IH|reflexivity].
Qed.

(** Events that neither submit nor ask for a status leave the submitted
    signature alone. *)
Lemma protocol_run_no_submission ev : forall s,
  count is_submission ev = O -> count is_status_query ev = O ->
  exists b, protocol_run s ev = Some (mkProtocol b (submitted s)).
Proof.
  induction ev as [|e ev IH]; intros s Hsub Hq.
  - exists (fresh_blockhash s). now destruct s.
  - rewrite count_cons in Hsub, Hq.
    destruct e as [[bh|]|raw r|sg r|path|a b r|a b r|d|l]; cbn in Hsub, Hq; try discriminate;
      cbn [protocol_run protocol_step]; try (apply IH; assumption).
    destruct (IH (mkProtocol true (submitted s)) Hsub Hq) as (b & Hb).
    now exists b.
Qed.

Lemma protocol_run_poll_rounds w sig b k : forall trp,
  protocol_run (mkProtocol b (Some sig)) (poll_rounds w sig trp k)
  = Some (mkProtocol b (Some sig)).
Proof.
  induction k as [|k IH]; intros trp; [reflexivity|].
  cbn [poll_rounds]. rewrite protocol_run_app.
  unfold retry_round. cbn [protocol_run protocol_step submitted].
  rewrite Signature_eqb_refl. apply IH.
Qed.

Lemma asked_sleep_mono ev ev' e :
  (forall x, In x ev -> In x ev') -> asked_sleep ev e -> asked_sleep ev' e.
Proof.
  intros Hsub [Hall Hb]. split; [|exact Hb].
  destruct e; try exact I. cbn in *.
  destruct Hall as [Hd | [Hd | Hin]]; [now left|right; now left|right; right; auto].
Qed.

Lemma asked_sleep_app ev1 ev2 :
  Forall (asked_sleep ev1) ev1 -> Forall (asked_sleep ev2) ev2 ->
  Forall (asked_sleep (ev1 ++ ev2)) (ev1 ++ ev2).
Proof.
  intros H1 H2. apply Forall_app. split.
  - eapply Forall_impl; [exact H1|]. intros e. apply asked_sleep_mono.
    intros x Hx. apply in_or_app. now left.
  - eapply Forall_impl; [exact H2|]. intros e. apply asked_sleep_mono.
    intros x Hx. apply in_or_app. now right.
Qed.

Lemma asked_sleep_other ev e : is_sleep e = false -> asked_sleep ev e.
Proof. destruct e; try discriminate; intros _; (split; [exact I|discriminate]). Qed.

Lemma asked_sleep_half ev : asked_sleep ev (Sleep (1 # 2)).
Proof.
  split; [now left|]. intros d [= <-]. split; [apply Qle_refl|]. unfold Qle. cbn. lia.
Qed.

Lemma asked_sleep_five ev : asked_sleep ev (Sleep 5).
Proof.
  split; [right; now left|]. intros d [= <-]. split; [|apply Qle_refl].
  unfold Qle. cbn. lia.
Qed.

Lemma asked_sleep_poll_rounds w sig k : forall trp ev,
  Forall (asked_sleep ev) (poll_rounds w sig trp k).
Proof.
  induction k as [|k IH]; intros trp ev; [constructor|].
  cbn [poll_rounds]. apply Forall_app. split; [|apply IH].
  unfold retry_round. repeat (constructor; [now apply asked_sleep_other|]).
  constructor; [apply asked_sleep_five|constructor].
Qed.

Lemma asked_sleep_confirmed_round sig pause :
  (2 <= pause)%Q -> (pause <= 5)%Q ->
  Forall (asked_sleep (confirmed_round sig pause)) (confirmed_round sig pause).
Proof.
  intros Hlo Hhi. unfold confirmed_round.
  repeat (constructor; [now apply asked_sleep_other|]).
  constructor; [|constructor]. split.
  - right. right. cbn. auto.
  - intros d [= <-]. split; [|exact Hhi].
    eapply Qle_trans; [|exact Hlo]. unfold Qle. cbn. lia.
Qed.

(** The events of one repetition: the announcement, the blockhash fetch, what
    the submission adds behind it, and the end: the logged error, or the
    signature and the poll. *)
Lemma iteration_body_events lib w fuel url key payload rc i h tr :
  exists fev rest tail,
    snd (iteration_body lib w fuel url key payload rc i h tr)
    = Printed (LogIterStart (i + 1) rc) :: fev ++ rest ++ tail
    /\ (count is_blockhash_call fev <= 5)%nat
    /\ count is_submission fev = O /\ count is_status_query fev = O
    /\ Forall (fun e => is_sleep e = true -> e = Sleep (1 # 2)) fev
    /\ (((rest = [] \/ exists b, rest = [RandomRandint 0 255 b])
         /\ exists e, tail = [Printed (LogIterError (i + 1) rc e)])
        \/ (exists bh b raw e,
              last fev = Some (GetLatestBlockhash (Some bh))
              /\ rest = [RandomRandint 0 255 b; SendRawTransaction raw None]
              /\ tail = [Printed (LogIterError (i + 1) rc e)])
        \/ (exists bh b raw sig trp k wtail,
              last fev = Some (GetLatestBlockhash (Some bh))
              /\ rest = [RandomRandint 0 255 b; SendRawTransaction raw (Some sig);
                         Printed (LogSent sig)]
              /\ tail = Printed (LogIterSignature (i + 1) rc sig)
                        :: poll_rounds w sig trp k ++ wtail
              /\ (wtail = []
                  \/ exists pause, wtail = confirmed_round sig pause
                                   /\ (2 <= pause)%Q /\ (pause <= 5)%Q))).
Proof.
  set (tr1 := tr ++ [Printed (LogIterStart (i + 1) rc)]).
  destruct (blockhash_attempts_bounds w (1 # 2) 5 5 1 h tr1 eq_refl)
    as (obh & fev & Hfetch & Hcalls & _ & _ & Hall & Hsub & Hq & Hlast & _);
    [right; reflexivity|].
  change (blockhash_attempts w 5 1 5 (1 # 2) h tr1)
    with (get_latest_blockhash_with_retry w 5 (1 # 2) h tr1) in Hfetch.
  destruct (send_modified_transaction_shape lib w url payload key h tr1 obh fev Hfetch)
    as (r & h' & rest & Hrun & Hshape).
  pose proof (tame_send_modified_transaction lib w url payload key h tr1) as Htame.
  rewrite Hrun in Htame. destruct Htame as (_ & _ & Hexc).
  assert (forall e, r = Raised e ->
            snd (iteration_body lib w fuel url key payload rc i h tr)
            = Printed (LogIterStart (i + 1) rc)
              :: fev ++ rest ++ [Printed (LogIterError (i + 1) rc e)]) as Hraised.
  { intros e ->.
    rewrite (iteration_body_raised lib w fuel url key payload rc i h tr e h' (fev ++ rest)
               Hrun (Hexc e eq_refl)).
    cbn [snd]. now rewrite <- app_assoc. }
  exists fev, rest.
  destruct Hshape as [(-> & -> & ->) | (bh & -> & Hshape)].
  { eexists. split; [now apply Hraised|]. split_all; try assumption.
    left. split; [now left|eauto]. }
  specialize (Hlast bh eq_refl).
  destruct Hshape as [(-> & e & ->) | [(b & -> & e & ->) |
                       [(b & raw & -> & e & ->) | (b & raw & sig & -> & ->)]]].
  - eexists. split; [now apply Hraised|]. split_all; try assumption.
    left. split; [now left|eauto].
  - eexists. split; [now apply Hraised|]. split_all; try assumption.
    left. split; [right; eauto|eauto].
  - eexists. split; [now apply Hraised|]. split_all; try assumption.
    right; left. now exists bh, b, raw, e.
  - rewrite (iteration_body_sent lib w fuel url key payload rc i h tr sig h' _ Hrun).
    unfold after.
    match goal with
    | |- context [wait_for_confirmation w fuel sig h' ?t] =>
        destruct (wait_rounds w sig fuel h' t) as (k & _ & [(_ & _ & ->) | (_ & ->)]);
        cbn [snd];
        [exists (Printed (LogIterSignature (i + 1) rc sig)
                 :: poll_rounds w sig t k
                 ++ confirmed_round sig
                      (random_uniform w ((t ++ poll_rounds w sig t k)
                                         ++ [GetTransaction sig MetaOk;
                                             Printed (LogSuccess sig)]) 2 5))
        |exists (Printed (LogIterSignature (i + 1) rc sig) :: poll_rounds w sig t k ++ [])];
        (split; [cbn [app]; rewrite <- ?app_assoc; cbn [app]; rewrite ?app_nil_r;
                 reflexivity|]);
        split_all; try assumption;
        right; right; eexists bh, b, raw, sig, t, k, _;
        (split; [assumption|]); (split; [reflexivity|]); (split; [reflexivity|])
    end.
    + right. eexists. split; [reflexivity|apply pause_range].
    + now left.
Qed.

Lemma iteration_body_budget lib w fuel url key payload rc i h tr :
  (count is_submission (snd (iteration_body lib w fuel url key payload rc i h tr)) <= 1)%nat
  /\ (count is_blockhash_call (snd (iteration_body lib w fuel url key payload rc i h tr))
      <= 5)%nat.
Proof.
  destruct (iteration_body_events lib w fuel url key payload rc i h tr)
    as (fev & rest & tail & -> & Hcalls & Hsub & _ & _ & Hshape).
  rewrite !count_cons, !count_app, Hsub. cbn [is_submission is_blockhash_call].
  destruct Hshape as [([-> | (b & ->)] & e & ->) |
                      [(bh & b & raw & e & _ & -> & ->) |
                       (bh & b & raw & sig & trp & k & wtail & _ & -> & -> & Hw)]].
  - count_eval. lia.
  - count_eval. lia.
  - count_eval. lia.
  - destruct (poll_rounds_views w sig k trp) as (_ & _ & Hb & Hs).
    rewrite !count_cons, !count_app, Hb, Hs. cbn [is_submission is_blockhash_call].
    destruct Hw as [-> | (pause & -> & Hlo & Hhi)]; unfold confirmed_round; count_eval; lia.
Qed.

Lemma iteration_body_protocol lib w fuel url key payload rc i h tr s :
  exists s',
    protocol_run s (snd (iteration_body lib w fuel url key payload rc i h tr)) = Some s'.
Proof.
  destruct (iteration_body_events lib w fuel url key payload rc i h tr)
    as (fev & rest & tail & -> & _ & Hsub & Hq & _ & Hshape).
  cbn [protocol_run protocol_step]. rewrite protocol_run_app.
  assert (forall bh, last fev = Some (GetLatestBlockhash (Some bh)) ->
            exists sg, protocol_run s fev = Some (mkProtocol true sg)) as Hfresh.
  { intros bh Hlast. apply last_Some in Hlast as (pre & ->).
    rewrite count_app in Hsub, Hq.
    destruct (protocol_run_no_submission pre s) as (b0 & Hpre); [lia|lia|].
    rewrite protocol_run_app, Hpre. now eexists. }
  destruct Hshape as [([-> | (b & ->)] & e & ->) |
                      [(bh & b & raw & e & Hlast & -> & ->) |
                       (bh & b & raw & sig & trp & k & wtail & Hlast & -> & -> & Hw)]].
  - destruct (protocol_run_no_submission fev s Hsub Hq) as (b0 & ->). now eexists.
  - destruct (protocol_run_no_submission fev s Hsub Hq) as (b0 & ->). now eexists.
  - destruct (Hfresh bh Hlast) as (sg & ->). now eexists.
  - destruct (Hfresh bh Hlast) as (sg & ->).
    cbn [app protocol_run protocol_step fresh_blockhash submitted].
    rewrite protocol_run_app, protocol_run_poll_rounds.
    destruct Hw as [-> | (pause & -> & Hlo & Hhi)]; [now eexists|].
    unfold confirmed_round. cbn [protocol_run protocol_step submitted].
    rewrite Signature_eqb_refl. now eexists.
Qed.

Lemma iteration_body_sleeps lib w fuel url key payload rc i h tr :
  Forall (asked_sleep (snd (iteration_body lib w fuel url key payload rc i h tr)))
    (snd (iteration_body lib w fuel url key payload rc i h tr)).
Proof.
  destruct (iteration_body_events lib w fuel url key payload rc i h tr)
    as (fev & rest & tail & -> & _ & _ & _ & Hall & Hshape).
  change (Printed (LogIterStart (i + 1) rc) :: fev ++ rest ++ tail)
    with ([Printed (LogIterStart (i + 1) rc)] ++ fev ++ rest ++ tail).
  apply asked_sleep_app; [repeat constructor; discriminate|].
  apply asked_sleep_app.
  { rewrite Forall_forall in Hall. apply Forall_forall. intros e He.
    destruct (is_sleep e) eqn:Hs; [|now apply asked_sleep_other].
    rewrite (Hall e He Hs). apply asked_sleep_half. }
  assert (forall l, Forall (fun e => is_sleep e = false) l -> Forall (asked_sleep l) l)
    as Hquiet.
  { intros l Hl. eapply Forall_impl; [exact Hl|]. intros e. apply asked_sleep_other. }
  destruct Hshape as [([-> | (b & ->)] & e & ->) |
                      [(bh & b & raw & e & _ & -> & ->) |
                       (bh & b & raw & sig & trp & k & wtail & _ & -> & -> & Hw)]].
  - apply Hquiet. repeat constructor.
  - apply Hquiet. repeat constructor.
  - apply Hquiet. repeat constructor.
  - apply asked_sleep_app; [apply Hquiet; repeat constructor|].
    change (Printed (LogIterSignature (i + 1) rc sig) :: poll_rounds w sig trp k ++ wtail)
      with ([Printed (LogIterSignature (i + 1) rc sig)] ++ poll_rounds w sig trp k ++ wtail).
    apply asked_sleep_app; [apply Hquiet; repeat constructor|].
    apply asked_sleep_app; [apply asked_sleep_poll_rounds|].
    destruct Hw as [-> | (pause & -> & Hlo & Hhi)]; [constructor|].
    now apply asked_sleep_confirmed_round.
Qed.

(** What holds of the events of every pass of a loop body, and of no events,
    and of two runs of events put together, holds of the events of the loop. *)
Lemma for_each_events {A} (P : list event -> Prop) (body : A -> M unit) :
  P [] -> (forall ev1 ev2, P ev1 -> P ev2 -> P (ev1 ++ ev2)) ->
  (forall x h tr, P (snd (body x h tr))) ->
  forall xs h tr, P (snd (for_each xs body h tr)).
Proof.
  intros Hnil Happ Hbody. induction xs as [|x xs IH]; intros h tr; [exact Hnil|].
  cbn [for_each]. unfold_m. unfold bind.
  specialize (Hbody x h tr).
  destruct (body x h tr) as [[[[]|e|] h1] e1]; cbn [snd] in *; try exact Hbody.
  specialize (IH h1 (tr ++ e1)).
  destruct (for_each xs body h1 (tr ++ e1)) as [[r h2] e2]. cbn [snd] in *.
  now apply Happ.
Qed.

Lemma for_each_count {A} (p : event -> bool) (c : nat) (body : A -> M unit) :
  (forall x h tr, (count p (snd (body x h tr)) <= c)%nat) ->
  forall xs h tr, (count p (snd (for_each xs body h tr)) <= c * length xs)%nat.
Proof.
  intros Hbody. induction xs as [|x xs IH]; intros h tr; [cbn; lia|].
  cbn [for_each length]. unfold_m. unfold bind.
  specialize (Hbody x h tr).
  destruct (body x h tr) as [[[[]|e|] h1] e1]; cbn [snd] in *; try lia.
  specialize (IH h1 (tr ++ e1)).
  destruct (for_each xs body h1 (tr ++ e1)) as [[r h2] e2]. cbn [snd] in *.
  rewrite count_app. lia.
Qed.

(** [process_wallet] is silent up to its opening line, and from there on is
    the loop. *)
Lemma process_wallet_events lib w fuel url key payload rc h tr :
  snd (process_wallet lib w fuel url key payload rc h tr) = []
  \/ exists kp h1,
       snd (process_wallet lib w fuel url key payload rc h tr)
       = Printed (LogWalletStart (pubkey lib kp) rc)
         :: snd (for_each (range rc) (iteration_body lib w fuel url key payload rc) h1
                   (tr ++ [Printed (LogWalletStart (pubkey lib kp) rc)])).
Proof.
  unfold process_wallet.
  silent_head ltac:(apply silent_load); [now left|].
  silent_head ltac:(apply silent_py_bytes); [now left|].
  silent_head ltac:(apply silent_lift); [now left|].
  right. rewrite print_then. unfold after, replay_loop.
  match goal with
  | |- context [for_each _ _ ?h1 (tr ++ [Printed (LogWalletStart (pubkey lib ?kp) rc)])] =>
      exists kp, h1
  end.
  now destruct (for_each _ _ _ _) as [[r h2] ev].
Qed.

(** X12: the RPC budget of a wallet.  Whatever the node, the library and the
    inputs do, a run of [process_wallet] submits at most repeat_count
    transactions and asks for a blockhash at most five times per repetition;
    with a repeat count of zero or less it makes no RPC call at all. *)
Theorem process_wallet_rpc_budget lib w fuel url key payload rc h tr :
  (count is_submission (snd (process_wallet lib w fuel url key payload rc h tr))
   <= Z.to_nat rc)%nat
  /\ (count is_blockhash_call (snd (process_wallet lib w fuel url key payload rc h tr))
      <= 5 * Z.to_nat rc)%nat
  /\ (rc <= 0 -> count is_rpc (snd (process_wallet lib w fuel url key payload rc h tr)) = O).
Proof.
  destruct (process_wallet_events lib w fuel url key payload rc h tr)
    as [-> | (kp & h1 & ->)]; [split_all; [cbn; lia|cbn; lia|reflexivity]|].
  rewrite !count_cons. cbn [is_submission is_blockhash_call is_rpc is_status_query orb].
  split_all.
  - pose proof (for_each_count is_submission 1
                  (iteration_body lib w fuel url key payload rc)
                  (fun i h0 tr0 =>
                     proj1 (iteration_body_budget lib w fuel url key payload rc i h0 tr0))
                  (range rc) h1 (tr ++ [Printed (LogWalletStart (pubkey lib kp) rc)])) as H.
    rewrite range_length in H. lia.
  - pose proof (for_each_count is_blockhash_call 5
                  (iteration_body lib w fuel url key payload rc)
                  (fun i h0 tr0 =>
                     proj2 (iteration_body_budget lib w fuel url key payload rc i h0 tr0))
                  (range rc) h1 (tr ++ [Printed (LogWalletStart (pubkey lib kp) rc)])) as H.
    rewrite range_length in H. lia.
  - intros Hrc. now rewrite (range_nonpos rc Hrc).
Qed.

(** X13: the order in which a wallet uses the node.  In every run of
    [process_wallet], each submission comes behind a blockhash the node gave
    after the previous submission, so that no blockhash is used for two
    submissions, and each status query asks for the signature the node
    returned for the latest submission; none is made before a submission was
    accepted, nor after a rejected one. *)
Theorem process_wallet_follows_protocol lib w fuel url key payload rc h tr :
  exists s,
    protocol_run (mkProtocol false None)
      (snd (process_wallet lib w fuel url key payload rc h tr)) = Some s.
Proof.
  destruct (process_wallet_events lib w fuel url key payload rc h tr)
    as [-> | (kp & h1 & ->)]; [now eexists|].
  cbn [protocol_run protocol_step].
  apply (for_each_events
           (fun ev => forall s, exists s', protocol_run s ev = Some s')
           (iteration_body lib w fuel url key payload rc)).
  - intros s. now exists s.
  - intros ev1 ev2 H1 H2 s. rewrite protocol_run_app.
    destruct (H1 s) as (s1 & ->). apply H2.
  - intros i h0 tr0 s. apply iteration_body_protocol.
Qed.

(** The order is a real constraint: it rules out a submission without a
    blockhash, two submissions behind one blockhash, a status query behind a
    rejected submission, and a status query for another signature. *)
Example protocol_run_rejects :
  protocol_run (mkProtocol false None) [SendRawTransaction [1] (Some Demo.sig_a)] = None
  /\ protocol_run (mkProtocol false None)
       [GetLatestBlockhash (Some (mkHash "b")); SendRawTransaction [1] (Some Demo.sig_a);
        SendRawTransaction [2] (Some Demo.sig_a)] = None
  /\ protocol_run (mkProtocol false None)
       [GetLatestBlockhash (Some (mkHash "b")); SendRawTransaction [1] None;
        GetTransaction Demo.sig_a ValueNone] = None
  /\ protocol_run (mkProtocol false None)
       [GetLatestBlockhash (Some (mkHash "b")); SendRawTransaction [1] (Some Demo.sig_a);
        GetTransaction (mkSignature "other") ValueNone] = None.
Proof. now split_all. Qed.

(** X14: the waits of a wallet.  Every sleep in a run of [process_wallet] is
    the half second between two blockhash attempts, the 5 seconds behind an
    unconfirmed status, or a value that a call [random.uniform(2, 5)] of the
    same run returned; so no sleep is shorter than half a second or longer
    than 5 seconds, and none is refused by [time.sleep]. *)
Theorem process_wallet_sleeps lib w fuel url key payload rc h tr :
  let ev := snd (process_wallet lib w fuel url key payload rc h tr) in
  Forall (allowed_sleep ev) ev
  /\ Forall (fun e => forall d, e = Sleep d -> (1 # 2 <= d)%Q /\ (d <= 5)%Q) ev.
Proof.
  intros ev.
  assert (Forall (asked_sleep ev) ev) as Hall.
  { subst ev.
    destruct (process_wallet_events lib w fuel url key payload rc h tr)
      as [-> | (kp & h1 & ->)]; [constructor|].
    match goal with
    | |- Forall _ (?e :: ?l) => change (e :: l) with ([e] ++ l)
    end.
    apply asked_sleep_app; [repeat constructor; discriminate|].
    apply (for_each_events (fun l => Forall (asked_sleep l) l)
             (iteration_body lib w fuel url key payload rc)).
    - constructor.
    - intros ev1 ev2. apply asked_sleep_app.
    - intros i h0 tr0. apply iteration_body_sleeps. }
  split; (eapply Forall_impl; [exact Hall|]); now intros e [Ha Hb].
Qed.

(** *** What a repetition can fail on *)

Lemma decode_transaction_raises lib payload h tr e h1 ev :
  decode_transaction lib payload h tr = (Raised e, h1, ev) ->
  exists c, e = DeserializeError c.
Proof.
  unfold decode_transaction, try_except.
  assert (tame (decode_template lib payload)) as Htame.
  { unfold decode_template, py_b64decode, json_loads. repeat tame_step. }
  specialize (Htame h tr).
  destruct (decode_template lib payload h tr) as [[[o|e0|] h0] e0'].
  - discriminate.
  - destruct Htame as (_ & _ & Hexc). rewrite (Hexc e0 eq_refl). cbn.
    intros [= <- _ _]. now exists e0.
  - discriminate.
Qed.

(** What [bytes] makes of a list depends on the list alone. *)
Lemma py_bytes_pure xs :
  (exists ks, forall h tr, py_bytes xs h tr = (Normal ks, h, []))
  \/ (exists e, forall h tr, py_bytes xs h tr = (Raised e, h, [])).
Proof.
  induction xs as [|[n|x] xs IH]; cbn [py_bytes].
  - left. now exists [].
  - right. now exists TypeError.
  - destruct (is_u8 x); [|right; now exists PyValueError].
    destruct IH as [(ks & Hks) | (e & He)].
    + left. exists (x :: ks). intros h tr.
      now rewrite (bind_normal _ _ _ _ _ _ _ (Hks h tr)), after_nil.
    + right. exists e. intros h tr. now rewrite (bind_raised _ _ _ _ _ _ _ (He h tr)).
Qed.

Lemma send_modified_transaction_raises lib w url payload key xs ks kp h tr e h' ev :
  h !! key = Some xs -> (forall h0 tr0, py_bytes xs h0 tr0 = (Normal ks, h0, [])) ->
  keypair_from_bytes lib ks = Some kp ->
  send_modified_transaction lib w url payload key h tr = (Raised e, h', ev) ->
  submission_error e.
Proof.
  intros Hkey Hu8 Hkp.
  destruct (blockhash_attempts_bounds w (1 # 2) 5 5 1 h tr eq_refl)
    as (obh & fev & Hfetch & _); [right; reflexivity|].
  unfold send_modified_transaction, get_latest_blockhash_with_retry.
  change (Z.to_nat 5) with 5%nat.
  rewrite (bind_normal _ _ _ _ _ _ _ Hfetch). unfold after.
  destruct obh as [bh|]; [|cbn; intros [= <- _ _]; now left].
  rewrite (bind_normal (load key) _ h _ xs h []) by (unfold load; now rewrite Hkey).
  rewrite after_nil.
  rewrite (bind_normal (py_bytes xs) _ h _ ks h [] (Hu8 _ _)).
  rewrite after_nil.
  rewrite (bind_normal (lift _ _) _ h _ kp h []) by now rewrite Hkp.
  rewrite after_nil.
  pose proof (silent_decode_transaction lib payload h (tr ++ fev)) as Hs.
  destruct (decode_transaction lib payload h (tr ++ fev)) as [[[o|e0|] h1] e1] eqn:Hdec;
    destruct Hs as [-> Hfuel]; [| |now contradiction Hfuel].
  - rewrite (bind_normal _ _ _ _ _ _ _ Hdec), after_nil.
    destruct (modify_transaction_shape w o h1 (tr ++ fev))
      as (rm & h2 & Hmod & Hfuel' & Hcause).
    destruct rm as [tx|e0|]; [| |now contradiction Hfuel'].
    + rewrite (bind_normal _ _ _ _ _ _ _ Hmod). unfold after.
      destruct (sign lib (set_recent_blockhash tx bh) kp) as [signed|] eqn:Hsign.
      * cbn [lift].
        rewrite (bind_normal (ret signed) _ h2 _ signed h2 [] eq_refl), after_nil.
        destruct (broadcast_shape lib w signed h2
                    ((tr ++ fev) ++ [RandomRandint 0 255 (random_randint w (tr ++ fev) 0 255)]))
          as (r & rest & -> & Hshape).
        destruct Hshape as [[_ ->] | [(raw & _ & -> & _) | (raw & sig & _ & -> & _)]];
          intros [= <- _ _]; do 4 right; now eexists.
      * cbn [lift]. rewrite (bind_raised (raise _) _ h2 _ (LibError "sign") h2 [] eq_refl).
        intros [= <- _ _]. do 3 right. now left.
    + rewrite (bind_raised _ _ _ _ _ _ _ Hmod). intros [= <- _ _].
      destruct (Hcause e0 eq_refl) as (c & ->). right; right; left. now exists c.
  - rewrite (bind_raised _ _ _ _ _ _ _ Hdec). intros [= <- _ _].
    destruct (decode_transaction_raises lib payload h (tr ++ fev) e0 h1 [] Hdec) as (c & ->).
    right; left. now exists c.
Qed.

Lemma keeps_iteration_body base lib w fuel url key payload rc i :
  keeps base (fun _ => True) (iteration_body lib w fuel url key payload rc i).
Proof.
  unfold iteration_body. apply keeps_try; [|intros e; apply keeps_emit].
  eapply keeps_bind; [apply keeps_emit|intros _ _].
  eapply keeps_bind; [apply keeps_send_modified_transaction|intros sig _].
  eapply keeps_bind; [apply keeps_emit|intros _ _].
  apply keeps_wait_for_confirmation.
Qed.

Lemma iteration_body_errors lib w fuel url key xs ks kp payload rc i h tr :
  h !! key = Some xs -> (forall h0 tr0, py_bytes xs h0 tr0 = (Normal ks, h0, [])) ->
  keypair_from_bytes lib ks = Some kp ->
  Forall (fun ie => submission_error (snd ie))
    (iteration_errors (snd (iteration_body lib w fuel url key payload rc i h tr))).
Proof.
  intros Hkey Hu8 Hkp.
  pose proof (tame_send_modified_transaction lib w url payload key h
                (tr ++ [Printed (LogIterStart (i + 1) rc)])) as Htame.
  destruct (send_modified_transaction lib w url payload key h
              (tr ++ [Printed (LogIterStart (i + 1) rc)]))
    as [[[sig|e|] h1] ev1] eqn:Hsend; destruct Htame as ([_ He] & Hfuel & Hexc).
  - rewrite (iteration_body_sent lib w fuel url key payload rc i h tr sig h1 ev1 Hsend).
    unfold after.
    match goal with
    | |- context [wait_for_confirmation w fuel sig h1 ?t] =>
        destruct (wait_outcome w fuel sig h1 t) as (h2 & ev2 & Hrun & _ & _ & He2)
    end.
    destruct Hrun as [-> | [-> _]]; cbn [snd];
      rewrite iteration_errors_app, He2, app_nil_r; cbn [iteration_errors];
      rewrite iteration_errors_app, He; constructor.
  - rewrite (iteration_body_raised lib w fuel url key payload rc i h tr e h1 ev1 Hsend
               (Hexc e eq_refl)).
    cbn [snd iteration_errors]. rewrite iteration_errors_app, He.
    constructor; [|constructor].
    exact (send_modified_transaction_raises lib w url payload key xs ks kp h _ e h1 ev1
             Hkey Hu8 Hkp Hsend).
  - now contradiction Hfuel.
Qed.

(** X15: the key is checked once.  Whatever the key list holds, no repetition
    of [process_wallet] fails on it: line 134 has either stopped the wallet
    before its first line of output, or let through a key that line 40 accepts
    in every repetition, the list being left as it was.  So every error that
    line 157 logs is the missing blockhash of line 37, a wrapped error of
    lines 48, 57 or 69, or what [tx.sign] raised. *)
Theorem repetitions_fail_on_submission_only lib w fuel url key payload rc h tr :
  Forall (fun ie => submission_error (snd ie))
    (iteration_errors (snd (process_wallet lib w fuel url key payload rc h tr))).
Proof.
  unfold process_wallet.
  destruct (h !! key) as [cells|] eqn:Hkey.
  2:{ rewrite (bind_raised (load key) _ h tr DanglingReference h [])
        by (unfold load; now rewrite Hkey).
      constructor. }
  rewrite (bind_normal (load key) _ h tr cells h []) by (unfold load; now rewrite Hkey).
  rewrite after_nil.
  destruct (py_bytes_pure cells) as [(ks & Hu8) | (e & He)].
  2:{ rewrite (bind_raised (py_bytes cells) _ h tr e h [] (He _ _)).
      constructor. }
  rewrite (bind_normal (py_bytes cells) _ h tr ks h [] (Hu8 _ _)).
  rewrite after_nil.
  destruct (keypair_from_bytes lib ks) as [kp|] eqn:Hkp.
  2:{ cbn [lift].
      rewrite (bind_raised (raise _) _ h tr (LibError "Keypair.from_bytes") h [] eq_refl).
      constructor. }
  cbn [lift]. rewrite (bind_normal (ret kp) _ h tr kp h [] eq_refl), after_nil.
  rewrite print_then. unfold after, replay_loop.
  assert (forall xs h0 tr0, h ⊆ h0 ->
            Forall (fun ie => submission_error (snd ie))
              (iteration_errors
                 (snd (for_each xs (iteration_body lib w fuel url key payload rc) h0 tr0))))
    as Hloop.
  { induction xs as [|i xs IH]; intros h0 tr0 Hsub; [constructor|].
    cbn [for_each]. unfold_m. unfold bind.
    pose proof (iteration_body_errors lib w fuel url key cells ks kp payload rc i h0 tr0
                  (lookup_weaken _ _ _ _ Hkey Hsub) Hu8 Hkp) as Hbody.
    pose proof (keeps_iteration_body h lib w fuel url key payload rc i h0 tr0 Hsub)
      as Hkeep.
    destruct (iteration_body lib w fuel url key payload rc i h0 tr0)
      as [[[[]|e|] h1] e1]; cbn [snd] in *; try exact Hbody.
    destruct Hkeep as [Hsub1 _]. specialize (IH h1 (tr0 ++ e1) Hsub1).
    destruct (for_each xs _ h1 (tr0 ++ e1)) as [[r h2] e2]. cbn [snd] in *.
    rewrite iteration_errors_app. apply Forall_app. now split. }
  specialize (Hloop (range rc) h (tr ++ [Printed (LogWalletStart (pubkey lib kp) rc)])
                (reflexivity h)).
  destruct (for_each _ _ _ _) as [[r h2] ev]. exact Hloop.
Qed.

(** Called on its own with a key list that holds 256, the submission does
    fail on the key, at line 40 and so behind the blockhash fetch. *)
Example send_modified_transaction_bad_key :
  send_modified_transaction Demo.lib Demo.healthy "u" (CStr "two") 1%positive
    Demo.store_with_wide_key []
  = (Raised PyValueError, Demo.store_with_wide_key,
     [GetLatestBlockhash (rpc_get_latest_blockhash Demo.healthy [])])
  /\ ~ submission_error PyValueError.
Proof.
  split; [reflexivity|].
  intros [H | [[c H] | [[c H] | [H | [c H]]]]]; discriminate.
Qed.

(** *** What is submitted *)

Lemma template_submission_mono lib tx kp ev ev' e :
  (forall x, In x ev -> In x ev') ->
  template_submission lib tx kp ev e -> template_submission lib tx kp ev' e.
Proof.
  intros Hin He raw r Heq.
  destruct (He raw r Heq) as (byte & bh & signed & Hb & Hbh & Hrest).
  exists byte, bh, signed. split; [now apply Hin|]. split; [now apply Hin|exact Hrest].
Qed.

Lemma template_submission_none lib tx kp ev l :
  count is_submission l = O -> Forall (template_submission lib tx kp ev) l.
Proof.
  intros Hc. eapply Forall_impl; [exact (count_zero _ _ Hc)|].
  intros e He raw r ->. discriminate.
Qed.

Lemma template_submission_app lib tx kp ev1 ev2 :
  Forall (template_submission lib tx kp ev1) ev1 ->
  Forall (template_submission lib tx kp ev2) ev2 ->
  Forall (template_submission lib tx kp (ev1 ++ ev2)) (ev1 ++ ev2).
Proof.
  intros H1 H2. apply Forall_app. split.
  - eapply Forall_impl; [exact H1|]. intros e.
    apply template_submission_mono. intros x Hx. apply in_or_app. now left.
  - eapply Forall_impl; [exact H2|]. intros e.
    apply template_submission_mono. intros x Hx. apply in_or_app. now right.
Qed.

Lemma send_modified_transaction_submits lib w url s bytes tx key ks kp h tr :
  b64decode lib s = Some bytes -> deserialize lib bytes = Some tx ->
  h !! key = Some (map Item ks) -> forallb is_u8 ks = true -> keypair_from_bytes lib ks = Some kp ->
  Forall (template_submission lib tx kp
            (snd (send_modified_transaction lib w url (CStr s) key h tr)))
    (snd (send_modified_transaction lib w url (CStr s) key h tr)).
Proof.
  intros Hb Hd Hkey Hu8 Hkp.
  destruct (blockhash_attempts_bounds w (1 # 2) 5 5 1 h tr eq_refl)
    as (obh & fev & Hfetch & _ & _ & _ & _ & Hsub & _ & Hlast & _); [right; reflexivity|].
  unfold send_modified_transaction, get_latest_blockhash_with_retry.
  change (Z.to_nat 5) with 5%nat.
  rewrite (bind_normal _ _ _ _ _ _ _ Hfetch). unfold after.
  destruct obh as [bh|];
    [|cbn; rewrite app_nil_r; now apply template_submission_none].
  specialize (Hlast bh eq_refl).
  rewrite (bind_normal (load key) _ h _ (map Item ks) h []) by (unfold load; now rewrite Hkey).
  rewrite after_nil.
  rewrite (bind_normal (py_bytes (map Item ks)) _ h _ ks h []) by (now rewrite py_bytes_items, Hu8).
  rewrite after_nil.
  rewrite (bind_normal (lift _ _) _ h _ kp h []) by now rewrite Hkp.
  rewrite after_nil.
  destruct (decode_template_spec lib s bytes tx h Hb Hd) as (o & h1 & Hdec & Hloaded & _).
  rewrite (bind_normal _ _ _ _ _ _ _ (Hdec _)), after_nil.
  destruct (modify_transaction_shape w o h1 (tr ++ fev))
    as (rm & h2 & Hmod & Hfuel & _).
  set (b := random_randint w (tr ++ fev) 0 255) in *.
  assert (count is_submission (fev ++ [RandomRandint 0 255 b]) = O) as Hnone
    by (rewrite count_app, Hsub; reflexivity).
  destruct rm as [tx'|e0|]; [| |now contradiction Hfuel].
  2:{ rewrite (bind_raised _ _ _ _ _ _ _ Hmod). cbn [snd].
      now apply template_submission_none. }
  assert (tx' = with_last_byte tx b /\ mutable_template tx = true)
    as [-> Hmut].
  { unfold modify_transaction, try_except in Hmod.
    destruct (mutate w o h1 (tr ++ fev)) as [[[tx0|e0|] h3] e3] eqn:Hrun.
    - destruct (mutate_result w h h1 o tx (tr ++ fev) tx0 h3 e3 Hloaded Hrun)
        as (-> & _ & Hmut).
      injection Hmod as <- _ _. now split.
    - destruct (is_Exception e0); discriminate.
    - discriminate. }
  rewrite (bind_normal _ _ _ _ _ _ _ Hmod). unfold after.
  destruct (sign lib (set_recent_blockhash (with_last_byte tx b) bh) kp)
    as [signed|] eqn:Hsign.
  2:{ cbn [lift].
      rewrite (bind_raised (raise _) _ h2 _ (LibError "sign") h2 [] eq_refl).
      cbn [snd]. rewrite app_nil_r. now apply template_submission_none. }
  cbn [lift]. rewrite (bind_normal (ret signed) _ h2 _ signed h2 [] eq_refl), after_nil.
  destruct (broadcast_shape lib w signed h2 ((tr ++ fev) ++ [RandomRandint 0 255 b]))
    as (r & rest & -> & Hshape).
  cbn [snd]. rewrite app_assoc.
  destruct Hshape as [[-> _] | Hshape];
    [rewrite app_nil_r; now apply template_submission_none|].
  assert (exists raw q tail,
            rest = SendRawTransaction raw q :: tail /\ serialize lib signed = Some raw
            /\ count is_submission tail = O) as (raw & q & tail & -> & Hser & Htail).
  { destruct Hshape as [(raw & -> & _ & Hser) | (raw & sig & -> & _ & Hser & _)].
    - now exists raw, None, [].
    - now exists raw, (Some sig), [Printed (LogSent sig)]. }
  apply Forall_app. split; [now apply template_submission_none|].
  constructor; [|now apply template_submission_none].
  intros raw' r' [= <- <-]. exists b, bh, signed.
  split; [apply in_or_app; left; apply in_or_app; right; now left|].
  split; [|now split_all].
  apply in_or_app; left; apply in_or_app; left.
  apply last_Some in Hlast as (pre & ->). apply in_or_app. right. now left.
Qed.

Lemma wait_submits_nothing w fuel sig h tr :
  count is_submission (snd (wait_for_confirmation w fuel sig h tr)) = O.
Proof.
  destruct (wait_rounds w sig fuel h tr) as (k & _ & [(_ & _ & ->) | (_ & ->)]);
    destruct (poll_rounds_views w sig k tr) as (_ & _ & _ & Hs); cbn [snd].
  - now rewrite count_app, Hs.
  - exact Hs.
Qed.

Lemma iteration_body_submits lib w fuel url s bytes tx key ks kp rc i h tr :
  b64decode lib s = Some bytes -> deserialize lib bytes = Some tx ->
  h !! key = Some (map Item ks) -> forallb is_u8 ks = true -> keypair_from_bytes lib ks = Some kp ->
  Forall (template_submission lib tx kp
            (snd (iteration_body lib w fuel url key (CStr s) rc i h tr)))
    (snd (iteration_body lib w fuel url key (CStr s) rc i h tr)).
Proof.
  intros Hb Hd Hkey Hu8 Hkp.
  pose proof (send_modified_transaction_submits lib w url s bytes tx key ks kp h
                (tr ++ [Printed (LogIterStart (i + 1) rc)]) Hb Hd Hkey Hu8 Hkp) as Hsub.
  pose proof (tame_send_modified_transaction lib w url (CStr s) key h
                (tr ++ [Printed (LogIterStart (i + 1) rc)])) as Htame.
  destruct (send_modified_transaction lib w url (CStr s) key h
              (tr ++ [Printed (LogIterStart (i + 1) rc)]))
    as [[[sig|e|] h1] ev1] eqn:Hsend; destruct Htame as (_ & Hfuel & Hexc);
    cbn [snd] in Hsub.
  - rewrite (iteration_body_sent lib w fuel url key (CStr s) rc i h tr sig h1 ev1 Hsend).
    unfold after.
    match goal with
    | |- context [wait_for_confirmation w fuel sig h1 ?t] =>
        pose proof (wait_submits_nothing w fuel sig h1 t) as Hwait;
        destruct (wait_for_confirmation w fuel sig h1 t) as [[r h2] ev2]
    end.
    cbn [snd] in *.
    change ((Printed (LogIterStart (i + 1) rc)
             :: ev1 ++ [Printed (LogIterSignature (i + 1) rc sig)]) ++ ev2)
      with ([Printed (LogIterStart (i + 1) rc)]
            ++ (ev1 ++ [Printed (LogIterSignature (i + 1) rc sig)]) ++ ev2).
    apply template_submission_app; [now apply template_submission_none|].
    apply template_submission_app; [|now apply template_submission_none].
    apply template_submission_app; [exact Hsub|now apply template_submission_none].
  - rewrite (iteration_body_raised lib w fuel url key (CStr s) rc i h tr e h1 ev1 Hsend
               (Hexc e eq_refl)).
    cbn [snd].
    change (Printed (LogIterStart (i + 1) rc)
            :: ev1 ++ [Printed (LogIterError (i + 1) rc e)])
      with ([Printed (LogIterStart (i + 1) rc)]
            ++ ev1 ++ [Printed (LogIterError (i + 1) rc e)]).
    apply template_submission_app; [now apply template_submission_none|].
    apply template_submission_app; [exact Hsub|now apply template_submission_none].
  - now contradiction Hfuel.
Qed.

(** What holds of the events of every pass of a loop body started in a store
    that extends [base], holds of the events of the loop, when the body keeps
    [base]. *)
Lemma for_each_events_kept {A} (base : heap) (P : list event -> Prop) (body : A -> M unit) :
  P [] -> (forall ev1 ev2, P ev1 -> P ev2 -> P (ev1 ++ ev2)) ->
  (forall x, keeps base (fun _ => True) (body x)) ->
  (forall x h tr, base ⊆ h -> P (snd (body x h tr))) ->
  forall xs h tr, base ⊆ h -> P (snd (for_each xs body h tr)).
Proof.
  intros Hnil Happ Hkeeps Hbody. induction xs as [|x xs IH]; intros h tr Hsub; [exact Hnil|].
  cbn [for_each]. unfold_m. unfold bind.
  specialize (Hbody x h tr Hsub). specialize (Hkeeps x h tr Hsub).
  destruct (body x h tr) as [[[[]|e|] h1] e1]; cbn [snd] in *; try exact Hbody.
  destruct Hkeeps as [Hsub1 _]. specialize (IH h1 (tr ++ e1) Hsub1).
  destruct (for_each xs body h1 (tr ++ e1)) as [[r h2] e2]. cbn [snd] in *.
  now apply Happ.
Qed.

(** X16: what a wallet ever submits.  With a payload that decodes to the
    template [tx], every transaction that a run of [process_wallet] hands to
    the node, accepted or not and in whatever repetition, is the serialised
    form of [tx] signed with the wallet's key after one byte that
    [random.randint(0, 255)] returned in this run was written over the last
    data byte of instruction 0 and the blockhash was set to one the node gave
    in this run.  The bytes written by earlier repetitions do not accumulate:
    each repetition starts from the template.  Nothing is submitted from a
    template that has no instruction or no data on instruction 0. *)
Theorem every_submission_is_the_mutated_template
    lib w fuel url s bytes tx key ks kp rc h tr :
  b64decode lib s = Some bytes -> deserialize lib bytes = Some tx ->
  h !! key = Some (map Item ks) -> keypair_from_bytes lib ks = Some kp ->
  Forall (template_submission lib tx kp
            (snd (process_wallet lib w fuel url key (CStr s) rc h tr)))
    (snd (process_wallet lib w fuel url key (CStr s) rc h tr)).
Proof.
  intros Hb Hd Hkey Hkp.
  unfold process_wallet.
  rewrite (bind_normal (load key) _ h tr (map Item ks) h []) by (unfold load; now rewrite Hkey).
  rewrite after_nil.
  destruct (forallb is_u8 ks) eqn:Hu8.
  2:{ rewrite (bind_raised (py_bytes (map Item ks)) _ h tr PyValueError h [])
        by (now rewrite py_bytes_items, Hu8).
      constructor. }
  rewrite (bind_normal (py_bytes (map Item ks)) _ h tr ks h []) by (now rewrite py_bytes_items, Hu8).
  rewrite after_nil.
  rewrite (bind_normal (lift _ _) _ h tr kp h []) by now rewrite Hkp.
  rewrite after_nil, print_then. unfold after, replay_loop.
  pose proof (for_each_events_kept h
                (fun ev => Forall (template_submission lib tx kp ev) ev)
                (iteration_body lib w fuel url key (CStr s) rc)
                (Forall_nil_2 _)
                (template_submission_app lib tx kp)
                (keeps_iteration_body h lib w fuel url key (CStr s) rc)
                (fun i h0 tr0 Hsub =>
                   iteration_body_submits lib w fuel url s bytes tx key ks kp rc i h0 tr0
                     Hb Hd (lookup_weaken _ _ _ _ Hkey Hsub) Hu8 Hkp)
                (range rc) h (tr ++ [Printed (LogWalletStart (pubkey lib kp) rc)])
                (reflexivity h)) as Hloop.
  destruct (for_each _ _ _ _) as [[r h2] ev]. cbn [snd] in *.
  change (Printed (LogWalletStart (pubkey lib kp) rc) :: ev)
    with ([Printed (LogWalletStart (pubkey lib kp) rc)] ++ ev).
  apply template_submission_app; [now apply template_submission_none|exact Hloop].
Qed.

(** Three repetitions on [Demo.second_rejected]: three submissions, the second
    of them rejected. *)
Lemma every_submission_is_the_mutated_template_witness :
  count is_submission
    (snd (process_wallet Demo.lib Demo.second_rejected 1 "u" 1%positive (CStr "two") 3
            Demo.store_with_key [])) = 3%nat
  /\ Forall (template_submission Demo.lib Demo.tx_two (mkKeypair Demo.key_bytes)
               (snd (process_wallet Demo.lib Demo.second_rejected 1 "u" 1%positive
                       (CStr "two") 3 Demo.store_with_key [])))
       (snd (process_wallet Demo.lib Demo.second_rejected 1 "u" 1%positive (CStr "two") 3
               Demo.store_with_key [])).
Proof.
  split; [vm_compute; reflexivity|].
  apply (every_submission_is_the_mutated_template Demo.lib Demo.second_rejected 1 "u"
           "two" [2] Demo.tx_two 1%positive Demo.key_bytes (mkKeypair Demo.key_bytes) 3
           Demo.store_with_key []); reflexivity.
Defined.

(** *** One transaction at a time *)

Lemma pending_run_app p ev1 ev2 :
  pending_run p (ev1 ++ ev2)
  = match pending_run p ev1 with
    | Some p1 => pending_run p1 ev2
    | None => None
    end.
Proof.
  revert p. induction ev1 as [|e ev1 IH]; intros p; cbn [app pending_run]; [reflexivity|].
  destruct (pending_step p e); [apply IH|reflexivity].
Qed.

Lemma pending_run_no_submission ev :
  count is_submission ev = O -> count is_status_query ev = O ->
  pending_run None ev = Some None.
Proof.
  induction ev as [|e ev IH]; intros Hsub Hq; [reflexivity|].
  rewrite count_cons in Hsub, Hq.
  destruct e; cbn in Hsub, Hq; try discriminate; cbn [pending_run pending_step];
    now apply IH.
Qed.

Lemma pending_run_unconfirmed sig ev :
  Forall (fun e => forall s r, e = GetTransaction s r -> s = sig /\ confirmed r = false) ev ->
  count is_submission ev = O -> count is_blockhash_call ev = O ->
  pending_run (Some sig) ev = Some (Some sig).
Proof.
  induction ev as [|e ev IH]; intros Hall Hsub Hb; [reflexivity|].
  apply Forall_cons in Hall as [He Hall].
  rewrite count_cons in Hsub, Hb.
  destruct e as [r|raw r|s r|path|a b r|a b r|d|l]; cbn in Hsub, Hb; try discriminate;
    cbn [pending_run pending_step]; try (now apply IH).
  destruct (He s r eq_refl) as [-> Hc]. rewrite Signature_eqb_refl, Hc. now apply IH.
Qed.

(** A repetition that begins with nothing pending ends with nothing pending,
    unless its poll does not end. *)
Lemma iteration_body_pending lib w fuel url key payload rc i h tr :
  exists p,
    pending_run None (snd (iteration_body lib w fuel url key payload rc i h tr)) = Some p
    /\ ((fst (fst (iteration_body lib w fuel url key payload rc i h tr)) = Normal tt
         /\ p = None)
        \/ (fst (fst (iteration_body lib w fuel url key payload rc i h tr)) = OutOfFuel
            /\ exists sig, p = Some sig)).
Proof.
  set (tr1 := tr ++ [Printed (LogIterStart (i + 1) rc)]).
  destruct (blockhash_attempts_bounds w (1 # 2) 5 5 1 h tr1 eq_refl)
    as (obh & fev & Hfetch & _ & _ & _ & _ & Hsub & Hq & _); [right; reflexivity|].
  change (blockhash_attempts w 5 1 5 (1 # 2) h tr1)
    with (get_latest_blockhash_with_retry w 5 (1 # 2) h tr1) in Hfetch.
  destruct (send_modified_transaction_shape lib w url payload key h tr1 obh fev Hfetch)
    as (r & h' & rest & Hrun & Hshape).
  pose proof (tame_send_modified_transaction lib w url payload key h tr1) as Htame.
  rewrite Hrun in Htame. destruct Htame as (_ & _ & Hexc).
  pose proof (pending_run_no_submission fev Hsub Hq) as Hfev.
  assert (forall e, r = Raised e -> pending_run None rest = Some None ->
            exists p,
              pending_run None
                (snd (iteration_body lib w fuel url key payload rc i h tr)) = Some p
              /\ ((fst (fst (iteration_body lib w fuel url key payload rc i h tr))
                   = Normal tt /\ p = None)
                  \/ (fst (fst (iteration_body lib w fuel url key payload rc i h tr))
                      = OutOfFuel /\ exists sig, p = Some sig))) as Hraised.
  { intros e -> Hrest.
    rewrite (iteration_body_raised lib w fuel url key payload rc i h tr e h' (fev ++ rest)
               Hrun (Hexc e eq_refl)).
    cbn [snd fst pending_run pending_step].
    rewrite !pending_run_app, Hfev, Hrest. exists None. split; [reflexivity|now left]. }
  destruct Hshape as [(-> & -> & ->) | (bh & -> & Hshape)]; [now apply (Hraised _ eq_refl)|].
  destruct Hshape as [(-> & e & ->) | [(b & -> & e & ->) |
                       [(b & raw & -> & e & ->) | (b & raw & sig & -> & ->)]]];
    try (now apply (Hraised _ eq_refl)).
  rewrite (iteration_body_sent lib w fuel url key payload rc i h tr sig h' _ Hrun).
  unfold after.
  match goal with
  | |- context [wait_for_confirmation w fuel sig h' ?t] =>
      destruct (wait_rounds w sig fuel h' t) as (k & Hall & Hwait);
      destruct (poll_rounds_views w sig k t) as (_ & _ & Hb & Hs);
      pose proof (pending_run_unconfirmed sig _ Hall Hs Hb) as Hpoll
  end.
  destruct Hwait as [(_ & _ & ->) | (_ & ->)]; cbn [snd fst].
  - exists None. split; [|now left].
    cbn [app pending_run pending_step]. rewrite !pending_run_app, Hfev.
    cbn [app pending_run pending_step]. rewrite pending_run_app, Hpoll.
    unfold confirmed_round. cbn [pending_run pending_step confirmed].
    now rewrite Signature_eqb_refl.
  - exists (Some sig). split; [|right; split; [reflexivity|now exists sig]].
    cbn [app pending_run pending_step]. rewrite !pending_run_app, Hfev.
    cbn [app pending_run pending_step]. exact Hpoll.
Qed.

(** X17: one transaction at a time.  In every run of [process_wallet], once
    the node has accepted a submission, the wallet makes no other RPC call
    than status queries for the returned signature until a reply reports
    success: no blockhash is asked for and nothing is submitted while a
    transaction is unconfirmed.  A run that returns has seen the success of
    everything the node accepted; a run cut off by the bound on the polling
    loop is waiting for its last accepted submission. *)
Theorem process_wallet_one_at_a_time lib w fuel url key payload rc h tr :
  exists p,
    pending_run None (snd (process_wallet lib w fuel url key payload rc h tr)) = Some p
    /\ (fst (fst (process_wallet lib w fuel url key payload rc h tr)) <> OutOfFuel ->
        p = None)
    /\ (fst (fst (process_wallet lib w fuel url key payload rc h tr)) = OutOfFuel ->
        exists sig, p = Some sig).
Proof.
  assert (forall xs h0 tr0,
            exists p,
              pending_run None
                (snd (for_each xs (iteration_body lib w fuel url key payload rc) h0 tr0))
              = Some p
              /\ ((fst (fst (for_each xs (iteration_body lib w fuel url key payload rc)
                               h0 tr0)) = Normal tt /\ p = None)
                  \/ (fst (fst (for_each xs (iteration_body lib w fuel url key payload rc)
                                  h0 tr0)) = OutOfFuel /\ exists sig, p = Some sig)))
    as Hloop.
  { induction xs as [|i xs IH]; intros h0 tr0.
    - exists None. split; [reflexivity|now left].
    - cbn [for_each]. unfold_m. unfold bind.
      destruct (iteration_body_pending lib w fuel url key payload rc i h0 tr0)
        as (p & Hp & Hr).
      destruct (iteration_body lib w fuel url key payload rc i h0 tr0)
        as [[r1 h1] e1]; cbn [snd fst] in *.
      destruct Hr as [[-> ->] | [-> (sig & ->)]].
      + destruct (IH h1 (tr0 ++ e1)) as (p & Hp2 & Hr2).
        destruct (for_each xs _ h1 (tr0 ++ e1)) as [[r2 h2] e2]; cbn [snd fst] in *.
        exists p. rewrite pending_run_app, Hp. now split.
      + exists (Some sig). split; [exact Hp|right]. split; [reflexivity|now exists sig]. }
  unfold process_wallet.
  silent_head ltac:(apply silent_load);
    [exists None; split_all; [reflexivity|reflexivity|discriminate]|].
  silent_head ltac:(apply silent_py_bytes);
    [exists None; split_all; [reflexivity|reflexivity|discriminate]|].
  silent_head ltac:(apply silent_lift);
    [exists None; split_all; [reflexivity|reflexivity|discriminate]|].
  rewrite print_then. unfold after, replay_loop.
  match goal with
  | |- context [for_each _ _ ?h1 ?t] => destruct (Hloop (range rc) h1 t) as (p & Hp & Hr)
  end.
  destruct (for_each _ _ _ _) as [[r h2] ev]. cbn [snd fst] in *.
  exists p. split; [exact Hp|].
  destruct Hr as [[-> ->] | [-> (sig & ->)]].
  - split; [reflexivity|discriminate].
  - split; [intros Hne; now contradiction Hne|intros _; now exists sig].
Qed.

(** The discipline is a real constraint: it rules out a blockhash call and a
    second submission behind an unconfirmed one, and a status query with
    nothing pending. *)
Example pending_run_rejects :
  pending_run None
    [SendRawTransaction [1] (Some Demo.sig_a); GetTransaction Demo.sig_a ValueNone;
     GetLatestBlockhash None] = None
  /\ pending_run None
       [SendRawTransaction [1] (Some Demo.sig_a); SendRawTransaction [2] None] = None
  /\ pending_run None
       [SendRawTransaction [1] (Some Demo.sig_a); GetTransaction Demo.sig_a MetaOk;
        GetTransaction Demo.sig_a MetaOk] = None.
Proof. now split_all. Qed.
